(** * merger-cli: the parser registry, the plugin installer and the default reader

    A shallow embedding of
    - [merger/parsers/modules.py]   (registry resolution, plugin validation,
      install / uninstall, registry construction from the persisted records),
    - [merger/v2/parsers/parsers.py] (the directory-scanning registry),
    - [merger/v2/readers/default_reader.py] (the default text/binary reader),
    - [merger/merger_cli.py] (the branches of [main]), and
    - the text extraction of the two PDF examples,
    followed by the properties established about them.

    Python strings are modelled by [string] (sequences of 8-bit characters):
    the development covers ASCII file names and extensions.  Exceptions are
    values of [exn]; a call that may raise returns a [result]. *)

From Stdlib Require Import ZArith Ascii String List Bool Lia.
From Stdlib Require QArith Uint63 Floats.
From stdpp Require Import base option list strings gmap.

Local Open Scope string_scope.
Local Open Scope list_scope.

(** ** Python values, exceptions, results *)

Module Py.

(** A class object, as far as the registry cares: its name, and whether
    [issubclass(cls, Parser)] holds, for the [Parser] the module that asks
    has imported. *)
Record py_class := PyClassOf { cls_name : string; cls_is_parser : bool }.

(** The values a plugin module can bind to an exported name.  [PySet] lists
    its members in iteration order; [PyObject] stands for any other object
    (not iterable, not a class, not a string); [PyIterator] is an iterator
    (a generator, [iter(...)], [map(...)]) that has [items] to yield, once. *)
#[warnings="-register-all"]
Inductive py_value :=
| PyNone
| PyInt (n : Z)
| PyStr (s : string)
| PyList (items : list py_value)
| PyTuple (items : list py_value)
| PySet (items : list py_value)
| PyClass (c : py_class)
| PyObject
| PyIterator (items : list py_value).

(** The reasons [InvalidModule] is raised with, one per message. *)
Inductive invalid_reason :=
| AllMissingOrInvalid
| AllNotTwoItems
| ExportsUnresolved (name : string)
| ExtensionsNotProvided
| ExtensionsNotIterable
| ExtensionNotString (v : py_value)
| ExtensionRegexMismatch (ext : string)
| ParserNotSubclass
| ExtensionAlreadyRegistered (ext : string) (owner : py_class).

Inductive exn :=
| FileNotFoundError (path : string)
| IsADirectoryError (path : string)
| ImportError (path : string)
| InvalidModule (file : string) (reason : invalid_reason)
| ModuleAlreadyInstalled (msg : string)
| KeyError (key : string)
| AttributeError (name : string)
| ValueError (ext : string) (registered candidate : py_class)
| TypeError
| StopIteration
| LookupError (encoding : string)
| UnicodeDecodeError
| SameFileError (src dst : string).

Inductive result (A : Type) :=
| Ok (a : A)
| Raise (e : exn).
Arguments Ok {A} a.
Arguments Raise {A} e.

#[export] Instance result_ret : MRet result := fun _ a => Ok a.
#[export] Instance result_bind : MBind result := fun _ _ k r =>
  match r with
  | Ok a => k a
  | Raise e => Raise e
  end.

(** A call that what is no [Exception] ([SystemExit], [KeyboardInterrupt])
    can pass through, [except Exception] not catching it: the call ends
    with a [result], or it is left that way. *)
Inductive passing (A : Type) :=
| Ends (r : result A)
| Exits.
Arguments Ends {A} r.
Arguments Exits {A}.

(** [try: r except: h] runs the handler on the exceptions it selects. *)
Definition try_except {A} (r : result A) (h : exn -> option (result A)) : result A :=
  match r with
  | Ok a => Ok a
  | Raise e => match h e with Some r' => r' | None => Raise e end
  end.

(** *** Strings *)

(** [str.lower] on ASCII: the letters A-Z move to a-z. *)
Definition lower_ascii (c : ascii) : ascii :=
  let n := nat_of_ascii c in
  if (65 <=? n)%nat && (n <=? 90)%nat then ascii_of_nat (n + 32) else c.

Fixpoint lower (s : string) : string :=
  match s with
  | EmptyString => EmptyString
  | String c s' => String (lower_ascii c) (lower s')
  end.

(** The slice [s[n:]]. *)
Fixpoint slice_from (n : nat) (s : string) : string :=
  match n, s with
  | O, _ => s
  | S n', String _ s' => slice_from n' s'
  | S _, EmptyString => EmptyString
  end.

(** [s.endswith(suffix)] *)
Definition endswith (s suffix : string) : bool :=
  (String.length suffix <=? String.length s)%nat
  && String.eqb (slice_from (String.length s - String.length suffix) s) suffix.

(** [s.startswith(p)] *)
Definition startswith (s p : string) : bool := String.prefix p s.

(** [sep.join(l)] *)
Fixpoint join (sep : string) (l : list string) : string :=
  match l with
  | [] => ""
  | [x] => x
  | x :: rest => x +:+ sep +:+ join sep rest
  end.

(** [sorted(l)] on strings, by insertion; Python orders strings by code
    point, which is [String.leb] here. *)
Fixpoint insert_sorted (x : string) (l : list string) : list string :=
  match l with
  | [] => [x]
  | y :: l' => if String.leb x y then x :: y :: l' else y :: insert_sorted x l'
  end.

Definition sorted (l : list string) : list string :=
  foldr insert_sorted [] l.

(** *** Dictionaries

    A [dict] with string keys keeps its insertion order, and the order is
    observable (iteration), so it is an association list whose keys are
    pairwise distinct. *)
Definition dict (V : Type) := list (string * V).

Fixpoint dict_get {V} (k : string) (d : dict V) : option V :=
  match d with
  | [] => None
  | (k', v) :: d' => if String.eqb k' k then Some v else dict_get k d'
  end.

Definition dict_mem {V} (k : string) (d : dict V) : bool :=
  match dict_get k d with Some _ => true | None => false end.

(** [d[k] = v]: overwrite in place, or append a new last item. *)
Fixpoint dict_set {V} (k : string) (v : V) (d : dict V) : dict V :=
  match d with
  | [] => [(k, v)]
  | (k', v') :: d' =>
      if String.eqb k' k then (k', v) :: d' else (k', v') :: dict_set k v d'
  end.

(** [del d[k]] for a key that is present. *)
Fixpoint dict_del {V} (k : string) (d : dict V) : dict V :=
  match d with
  | [] => []
  | (k', v') :: d' =>
      if String.eqb k' k then d' else (k', v') :: dict_del k d'
  end.

(** *** Sets of strings

    A [set]/[frozenset] of strings is a duplicate-free list.  Python fixes
    no iteration order for a set; the model iterates in order of first
    occurrence. *)
Definition str_in (x : string) (l : list string) : bool :=
  existsb (String.eqb x) l.

Fixpoint frozenset (l : list string) : list string :=
  match l with
  | [] => []
  | x :: l' => x :: List.filter (fun y => negb (String.eqb x y)) (frozenset l')
  end.

(** [a & b] *)
Definition set_inter (a b : list string) : list string :=
  List.filter (fun x => str_in x b) a.

End Py.
Import Py.

(** ** The world the installer runs in *)

Module World.

(** What importing a file does: [importlib] finds no loader for it, running
    its code raises an [Exception], running its code raises something that
    is no [Exception] ([SystemExit], [KeyboardInterrupt]), or running it
    leaves a namespace of bound names. *)
Inductive exec_outcome :=
| NoSpec
| ExecRaises
| ExecExits
| ExecOk (ns : dict py_value).

(** A file's bytes, through the two things the installer observes of them:
    the 8-character digest [hash_from_file] returns and what importing them
    does, given the module name and the path they are imported under (the
    code sees both, as [__name__] and [__file__]).  Copying a file copies
    both. *)
Record file_content := FileContent {
  digest : string;
  exec : string -> string -> exec_outcome
}.

Inductive node :=
| Dir
| File (c : file_content).

(** One value of the persisted ["modules"] mapping.  A field is [None] when
    the JSON object lacks the key. *)
Record module_entry := ModuleEntry {
  entry_extensions : option (list string);
  entry_path : option string;
  entry_original_name : option string
}.

(** The file system (path to node), the ["modules"] mapping of the persisted
    configuration ([None] when the file or the key is missing) and the
    directory [get_parsers_dir()] answers.  The file system leaves out the
    configuration file, which [config] stands for, and the bytecode caches
    ([__pycache__] directories) an import may write beside the file it
    runs; they do not change what an import does. *)
Record world := World {
  fs : gmap string node;
  config : option (dict module_entry);
  parsers_dir : string
}.

(** [Path("")] is the current directory, which exists. *)
Definition stat (w : world) (p : string) : option node :=
  if String.eqb p "" then Some Dir else fs w !! p.

Definition path_exists (w : world) (p : string) : bool :=
  match stat w p with Some _ => true | None => false end.

Definition path_is_file (w : world) (p : string) : bool :=
  match stat w p with Some (File _) => true | _ => false end.

(** [Path(p).name]: what follows the last ["/"]. *)
Fixpoint name_from (cur s : string) : string :=
  match s with
  | EmptyString => cur
  | String c r =>
      if Ascii.eqb c "/" then name_from "" r
      else name_from (cur +:+ String c "") r
  end.

Definition path_name (p : string) : string := name_from "" p.

(** Stateful code: a world in, a world and a result out.  The world that
    comes out of a raising call is the world at the moment of the raise. *)
Definition io (A : Type) : Type := world -> world * result A.

Definition io_ret {A} (a : A) : io A := fun w => (w, Ok a).

Definition io_raise {A} (e : exn) : io A := fun w => (w, Raise e).

Definition io_bind {A B} (m : io A) (k : A -> io B) : io B := fun w =>
  match m w with
  | (w', Ok a) => k a w'
  | (w', Raise e) => (w', Raise e)
  end.

Definition io_lift {A} (r : result A) : io A := fun w => (w, r).

Definition io_read {A} (f : world -> A) : io A := fun w => (w, Ok (f w)).

(** A call that reads the world and may raise. *)
Definition io_try {A} (f : world -> result A) : io A := fun w => (w, f w).

(** [for x in l: body(x)] *)
Fixpoint io_for {A} (l : list A) (body : A -> io unit) : io unit :=
  match l with
  | [] => io_ret tt
  | x :: rest => io_bind (body x) (fun _ => io_for rest body)
  end.

(** Modelled from the spec: [get_config()] of [merger/utils/config.py],
    followed by [.setdefault("modules", {})]; "a missing store file is legal
    and equivalent to an empty mapping". *)
Definition get_config_modules : io (dict module_entry) :=
  io_read (fun w => default [] (config w)).

(** Modelled from the spec: [write_json(get_config_path(), config)] of
    [merger/utils/json.py], which replaces the persisted document. *)
Definition write_json (modules : dict module_entry) : io unit := fun w =>
  (World (fs w) (Some modules) (parsers_dir w), Ok tt).

(** The world without the file at [p]. *)
Definition without_file (p : string) (w : world) : world :=
  World (delete p (fs w)) (config w) (parsers_dir w).

(** [p.unlink()] on a path known to be a file. *)
Definition unlink (p : string) : io unit := fun w => (without_file p w, Ok tt).

(** Where [shutil.copy(src, dst)] writes: into [dst] when it is a
    directory. *)
Definition copy_target (w : world) (src dst : string) : string :=
  match stat w dst with
  | Some Dir => dst +:+ "/" +:+ path_name src
  | _ => dst
  end.

(** [shutil.copy(src, dst)]; copying a file onto itself raises.  Paths are
    absolute and free of links, so two paths name the same file when they
    are equal. *)
Definition shutil_copy (src dst : string) : io unit := fun w =>
  let target := copy_target w src dst in
  match stat w src with
  | None => (w, Raise (FileNotFoundError src))
  | Some Dir => (w, Raise (IsADirectoryError src))
  | Some (File c) =>
      if String.eqb src target then (w, Raise (SameFileError src target))
      else
        (World (<[target := File c]> (fs w)) (config w) (parsers_dir w), Ok tt)
  end.

(** Modelled from the spec: [hash_from_file(path, 8)] of
    [merger/utils/hash.py], "a short content hash (first 8 hex characters of
    a cryptographic digest) of the file's bytes"; opening a missing path or a
    directory raises as [open] does. *)
Definition hash_from_file (w : world) (p : string) : result string :=
  match stat w p with
  | None => Raise (FileNotFoundError p)
  | Some Dir => Raise (IsADirectoryError p)
  | Some (File c) => Ok (digest c)
  end.

(** A loaded module: its name, its [__file__] and its attributes. *)
Record py_module := PyModule {
  mod_name : string;
  mod_file : string;
  mod_dict : dict py_value
}.

(** The attributes a module has before its code runs; the code may rebind
    them. *)
Definition initial_attributes (name path : string) : dict py_value :=
  [ ("__name__", PyStr name); ("__doc__", PyNone); ("__package__", PyStr "");
    ("__loader__", PyObject); ("__spec__", PyObject); ("__file__", PyStr path);
    ("__cached__", PyObject); ("__builtins__", PyObject) ].

Definition bind_all (ns base : dict py_value) : dict py_value :=
  foldl (fun d kv => dict_set (fst kv) (snd kv) d) base ns.

(** [getattr(module, name)]: the name must be a string. *)
Definition getattr (module : py_module) (name : py_value) : result py_value :=
  match name with
  | PyStr n =>
      match dict_get n (mod_dict module) with
      | Some v => Ok v
      | None => Raise (AttributeError n)
      end
  | _ => Raise TypeError
  end.

(** [{attribute: getattr(module, attribute) for attribute in module_all}] *)
Fixpoint resolve_exports (module : py_module) (module_all : list py_value)
    (acc : dict py_value) : result (dict py_value) :=
  match module_all with
  | [] => Ok acc
  | attribute :: rest =>
      value ← getattr module attribute;
      match attribute with
      | PyStr n => resolve_exports module rest (dict_set n value acc)
      | _ => Raise TypeError
      end
  end.

(** [v == s] for a string [s]. *)
Definition py_eq_str (v : py_value) (s : string) : bool :=
  match v with
  | PyStr s' => String.eqb s' s
  | _ => false
  end.

(** [isinstance(v, Iterable)], with the items a first iteration yields. *)
Definition iterate (v : py_value) : option (list py_value) :=
  match v with
  | PyList items | PyTuple items | PySet items | PyIterator items => Some items
  | PyStr s => Some (map (fun c => PyStr (String c "")) (list_ascii_of_string s))
  | _ => None
  end.

(** The items a later iteration over the same object yields, after a first
    one ran to its end: an iterator has none left. *)
Definition iterate_again (v : py_value) : list py_value :=
  match v with
  | PyIterator _ => []
  | _ => default [] (iterate v)
  end.

(** The strings among the items of an iterable. *)
Definition strings_of (items : list py_value) : list string :=
  flat_map (fun v => match v with PyStr s => [s] | _ => [] end) items.

End World.
Import World.

Declare Scope io_scope.
Delimit Scope io_scope with io.
Notation "'do' x <- m ; k" := (io_bind m (fun x => k))
  (at level 10, x name, m at level 100, k at level 200,
   format "'[v' 'do'  x  <-  m ; '/' k ']'") : io_scope.

(** ** merger/parsers/modules.py *)

Module Modules.

Local Open Scope io_scope.

(** The class every lookup falls back to. *)
Definition DefaultParser : py_class :=
  {| cls_name := "DefaultParser"; cls_is_parser := true |}.

(** [_EXTENSION_REGEX = re.compile(r"\.[a-z0-9.]+$", re.IGNORECASE)]:
    one character of the class [[a-z0-9.]], letters in either case. *)
Definition extension_char (c : ascii) : bool :=
  let n := nat_of_ascii c in
  ((97 <=? n)%nat && (n <=? 122)%nat)
  || ((65 <=? n)%nat && (n <=? 90)%nat)
  || ((48 <=? n)%nat && (n <=? 57)%nat)
  || (n =? 46)%nat.

Fixpoint all_extension_chars (s : string) : bool :=
  match s with
  | EmptyString => true
  | String c s' => extension_char c && all_extension_chars s'
  end.

(** [_EXTENSION_REGEX.fullmatch(s)]: a dot, then one or more characters of
    the class, and nothing else. *)
Definition _EXTENSION_REGEX_fullmatch (s : string) : bool :=
  match s with
  | String "."%char (String c rest) => all_extension_chars (String c rest)
  | _ => false
  end.

(** [get_parser(filename)], with the global [_PARSERS] passed in. *)
Fixpoint get_parser (_PARSERS : dict py_class) (filename : string) : py_class :=
  match _PARSERS with
  | [] => DefaultParser
  | (extension, parser) :: rest =>
      if endswith (lower filename) (lower extension) then parser
      else get_parser rest filename
  end.

(** [module_from_path(path, name)].  What the code raises that is no
    [Exception] is not caught and ends the call as it is.  A [result] holds
    an [Exception]: of that case the model keeps that the call does not
    return, not what it is left with. *)
Definition module_from_path (w : world) (path name : string) : result py_module :=
  if negb (path_exists w path) then Raise (FileNotFoundError path)
  else if negb (path_is_file w path) then Raise (IsADirectoryError path)
  else
    match stat w path with
    | Some (File c) =>
        match exec c name path with
        | NoSpec => Raise (ImportError path)
        | ExecRaises => Raise (ImportError path)
        | ExecExits => Raise (ImportError path)
        | ExecOk ns =>
            Ok (PyModule name path (bind_all ns (initial_attributes name path)))
        end
    | _ => Raise (IsADirectoryError path)
    end.

(** The loop over [extensions]: every item a string that matches the regex. *)
Fixpoint check_extensions (file : string) (items : list py_value)
    : result (list string) :=
  match items with
  | [] => Ok []
  | extension :: rest =>
      match extension with
      | PyStr s =>
          if negb (_EXTENSION_REGEX_fullmatch s)
          then Raise (InvalidModule file (ExtensionRegexMismatch s))
          else
            match check_extensions file rest with
            | Ok l => Ok (s :: l)
            | Raise e => Raise e
            end
      | v => Raise (InvalidModule file (ExtensionNotString v))
      end
  end.

(** [next(value for key, value in attributes.items() if key != "EXTENSIONS")] *)
Fixpoint next_other_export (attributes : dict py_value) : result py_value :=
  match attributes with
  | [] => Raise StopIteration
  | (key, value) :: rest =>
      if negb (String.eqb key "EXTENSIONS") then Ok value
      else next_other_export rest
  end.

(** [get_extensions_and_parser_cls(module)], from the length check on:
    [module_all] is the list or tuple bound to [__all__].  The loop over
    [extensions] is a first iteration, [frozenset(extensions)] a second. *)
Definition extensions_and_parser_of (module : py_module)
    (module_all : list py_value) : result (list string * py_class) :=
  let file := mod_file module in
  if negb (length module_all =? 2)%nat
  then Raise (InvalidModule file AllNotTwoItems)
  else
    attributes ← try_except (resolve_exports module module_all [])
      (fun e => match e with
                | AttributeError n =>
                    Some (Raise (InvalidModule file (ExportsUnresolved n)))
                | _ => None
                end);
    match dict_get "EXTENSIONS" attributes with
    | None => Raise (InvalidModule file ExtensionsNotProvided)
    | Some extensions =>
        match iterate extensions with
        | None => Raise (InvalidModule file ExtensionsNotIterable)
        | Some items =>
            _ ← check_extensions file items;
            parser_cls ← next_other_export attributes;
            match parser_cls with
            | PyClass c =>
                if cls_is_parser c
                then Ok (frozenset (strings_of (iterate_again extensions)), c)
                else Raise (InvalidModule file ParserNotSubclass)
            | _ => Raise (InvalidModule file ParserNotSubclass)
            end
        end
    end.

(** [get_extensions_and_parser_cls(module)] *)
Definition get_extensions_and_parser_cls (module : py_module)
    : result (list string * py_class) :=
  match dict_get "__all__" (mod_dict module) with
  | Some (PyList module_all) | Some (PyTuple module_all) =>
      extensions_and_parser_of module module_all
  | _ => Raise (InvalidModule (mod_file module) AllMissingOrInvalid)
  end.

(** The extensions every installed record claims. *)
Definition installed_extensions (modules : dict module_entry) : list string :=
  frozenset
    (flat_map (fun kv => default [] (entry_extensions (snd kv))) modules).

(** [install_module(path)]; paths are absolute, so [path.resolve()] is
    [path]. *)
Definition install_module (path : string) : io unit :=
  do modules <- get_config_modules;
  do file_hash <- io_try (fun w => hash_from_file w path);
  let filename := file_hash +:+ ".py" in
  if dict_mem file_hash modules
  then io_raise (ModuleAlreadyInstalled path)
  else
    do module <- io_try (fun w => module_from_path w path file_hash);
    do ext_cls <- io_lift (get_extensions_and_parser_cls module);
    let extensions := fst ext_cls in
    let overlapping := set_inter extensions (installed_extensions modules) in
    if negb (length overlapping =? 0)%nat
    then io_raise (ModuleAlreadyInstalled
                     ("Extensions already installed: "
                        +:+ join ", " (sorted overlapping)))
    else
      do dir <- io_read parsers_dir;
      let module_path := dir +:+ "/" +:+ filename in
      do _ <- shutil_copy path module_path;
      let modules' :=
        dict_set file_hash
          (ModuleEntry (Some extensions) (Some module_path)
             (Some (path_name path)))
          modules in
      write_json modules'.

(** [list_modules()]: a copy of the mapping. *)
Definition list_modules : io (dict module_entry) := get_config_modules.

(** The deletion both branches of [uninstall_module] perform for a record. *)
Definition remove_module_file (module_entry : module_entry) : io unit :=
  let module_path := default "" (entry_path module_entry) in
  do present <- io_read (fun w => path_exists w module_path);
  if present then
    do regular <- io_read (fun w => path_is_file w module_path);
    if negb regular then io_raise (IsADirectoryError module_path)
    else unlink module_path
  else io_ret tt.

(** [uninstall_module(module_id)] *)
Definition uninstall_module (module_id : string) : io unit :=
  do modules <- get_config_modules;
  if String.eqb module_id "*" then
    do _ <- io_for modules (fun kv => remove_module_file (snd kv));
    write_json []
  else
    match dict_get module_id modules with
    | None => io_raise (KeyError module_id)
    | Some module_entry =>
        do _ <- remove_module_file module_entry;
        write_json (dict_del module_id modules)
    end.

(** The inner loop of [load_parsers]: register every extension of one
    module, refusing one that is registered. *)
Fixpoint register_extensions (module_path : string) (parser_cls : py_class)
    (extensions : list string) (parsers : dict py_class)
    : result (dict py_class) :=
  match extensions with
  | [] => Ok parsers
  | extension :: rest =>
      match dict_get extension parsers with
      | Some owner =>
          Raise (InvalidModule module_path
                   (ExtensionAlreadyRegistered extension owner))
      | None =>
          register_extensions module_path parser_cls rest
            (dict_set extension parser_cls parsers)
      end
  end.

(** The outer loop of [load_parsers], over the records that remain. *)
Fixpoint load_records (w : world) (modules : dict module_entry)
    (parsers : dict py_class) : result (dict py_class) :=
  match modules with
  | [] => Ok parsers
  | (module_id, module_entry) :: rest =>
      let module_path := default "" (entry_path module_entry) in
      if negb (path_exists w module_path)
      then Raise (FileNotFoundError module_path)
      else if negb (path_is_file w module_path)
      then Raise (IsADirectoryError module_path)
      else
        module ← module_from_path w module_path module_id;
        ext_cls ← get_extensions_and_parser_cls module;
        parsers' ← register_extensions module_path (snd ext_cls) (fst ext_cls)
                     parsers;
        load_records w rest parsers'
  end.

(** [load_parsers()] *)
Definition load_parsers (w : world) : result (dict py_class) :=
  load_records w (default [] (config w)) [].

End Modules.

(** ** merger/v2/parsers/parsers.py *)

Module V2Parsers.

Definition DefaultParser : py_class :=
  {| cls_name := "DefaultParser"; cls_is_parser := true |}.

(** [_EXTENSION_REGEX], the same pattern as in [modules.py]. *)
Definition _EXTENSION_REGEX_fullmatch (s : string) : bool :=
  match s with
  | String "."%char (String c rest) =>
      Modules.all_extension_chars (String c rest)
  | _ => false
  end.

(** The loop of [validate_module] over [extensions]. *)
Fixpoint extensions_valid (items : list py_value) : bool :=
  match items with
  | [] => true
  | PyStr s :: rest =>
      if negb (_EXTENSION_REGEX_fullmatch s) then false
      else extensions_valid rest
  | _ :: _ => false
  end.

(** [[value for name, value in exported.items() if name != "EXTENSIONS"]] *)
Definition other_items (exported : dict py_value) : list py_value :=
  map snd (List.filter (fun kv => negb (String.eqb (fst kv) "EXTENSIONS")) exported).

(** [validate_module(module)], from the length check on: [all_names] is
    the list or tuple bound to [__all__]. *)
Definition validate_exports (module : py_module) (all_names : list py_value)
    : result bool :=
  if negb (length all_names =? 2)%nat then Ok false
  else
    match resolve_exports module all_names [] with
    | Raise (AttributeError _) => Ok false
    | Raise e => Raise e
    | Ok exported =>
        match dict_get "EXTENSIONS" exported with
        | None => Ok false
        | Some extensions =>
            match iterate extensions with
            | None => Ok false
            | Some items =>
                if negb (extensions_valid items) then Ok false
                else
                  match other_items exported with
                  | [PyClass candidate] => Ok (cls_is_parser candidate)
                  | _ => Ok false
                  end
            end
        end
    end.

(** [validate_module(module)] *)
Definition validate_module (module : py_module) : result bool :=
  match dict_get "__all__" (mod_dict module) with
  | Some (PyList all_names) | Some (PyTuple all_names) =>
      validate_exports module all_names
  | _ => Ok false
  end.

(** What [load_parsers] writes to the log, above the debug chatter of
    [validate_module]. *)
Inductive log_record :=
| LogLoadFailed (path : string)
| LogSkipFailedToLoad (name : string)
| LogSkipInvalid (name : string)
| LogDuplicate (ext : string) (registered candidate : py_class)
| LogRegistered (cls : py_class) (ext : string).

(** [path.stem] of a name that ends in [".py"]. *)
Definition path_stem (p : string) : string :=
  let name := path_name p in
  String.substring 0 (String.length name - 3) name.

(** How the inner [load_module_from_path(path)] ends: it returns the
    module, it returns [None], or what the module's code raised passes
    through it. *)
Inductive loaded :=
| Loaded (module : py_module)
| NotLoaded
| LoadExits.

(** The inner [load_module_from_path(path)]: [None] when no spec is found or
    the module's code raises an [Exception] (reading a directory raises
    one); what is no [Exception] is not caught. *)
Definition load_module_from_path (w : world) (path : string) : loaded :=
  let module_name := "_parser_" +:+ path_stem path in
  match stat w path with
  | Some (File c) =>
      match exec c module_name path with
      | ExecOk ns =>
          Loaded (PyModule module_name path
                    (bind_all ns (initial_attributes module_name path)))
      | ExecExits => LoadExits
      | _ => NotLoaded
      end
  | _ => NotLoaded
  end.

(** [next(getattr(module, name) for name in module.__all__
          if name != "EXTENSIONS")] *)
Fixpoint next_parser_export (module : py_module) (names : list py_value)
    : result py_value :=
  match names with
  | [] => Raise StopIteration
  | name :: rest =>
      if negb (py_eq_str name "EXTENSIONS") then getattr module name
      else next_parser_export module rest
  end.

(** The registration loop over one module's extensions. *)
Fixpoint register_extensions (parser_cls : py_class) (extensions : list string)
    (parsers : dict py_class) (log : list log_record)
    : list log_record * result (dict py_class) :=
  match extensions with
  | [] => (log, Ok parsers)
  | extension :: rest =>
      match dict_get extension parsers with
      | Some registered =>
          (log ++ [LogDuplicate extension registered parser_cls],
           Raise (ValueError extension registered parser_cls))
      | None =>
          register_extensions parser_cls rest
            (dict_set extension parser_cls parsers)
            (log ++ [LogRegistered parser_cls extension])
      end
  end.

(** What the loop body does with a module that loaded and validated; its
    loop over [extensions] comes after the one of [validate_module]. *)
Definition register_module (module : py_module) (parsers : dict py_class)
    (log : list log_record) : list log_record * result (dict py_class) :=
  match dict_get "EXTENSIONS" (mod_dict module),
        dict_get "__all__" (mod_dict module) with
  | Some extensions, Some (PyList names | PyTuple names) =>
      match iterate extensions, next_parser_export module names with
      | Some _, Ok (PyClass parser_cls) =>
          register_extensions parser_cls
            (strings_of (iterate_again extensions)) parsers log
      | _, Raise e => (log, Raise e)
      | _, _ => (log, Raise TypeError)
      end
  | None, _ => (log, Raise (AttributeError "EXTENSIONS"))
  | _, _ => (log, Raise (AttributeError "__all__"))
  end.

(** The loop of [load_parsers] over the paths [parsers_dir.glob("*.py")]
    yields, in the order it yields them. *)
Fixpoint load_paths (w : world) (paths : list string) (parsers : dict py_class)
    (log : list log_record)
    : list log_record * passing (dict py_class) :=
  match paths with
  | [] => (log, Ends (Ok parsers))
  | path :: rest =>
      if String.eqb (path_name path) "__init__.py"
      then load_paths w rest parsers log
      else
        match load_module_from_path w path with
        | LoadExits => (log, Exits)
        | NotLoaded =>
            load_paths w rest parsers
              (log ++ [LogLoadFailed path; LogSkipFailedToLoad (path_name path)])
        | Loaded module =>
            match validate_module module with
            | Raise e => (log, Ends (Raise e))
            | Ok false =>
                load_paths w rest parsers (log ++ [LogSkipInvalid (path_name path)])
            | Ok true =>
                match register_module module parsers log with
                | (log', Ok parsers') => load_paths w rest parsers' log'
                | (log', Raise e) => (log', Ends (Raise e))
                end
            end
        end
  end.

(** [load_parsers()], given what the glob yields. *)
Definition load_parsers (w : world) (paths : list string)
    : list log_record * passing (dict py_class) :=
  load_paths w paths [] [].

(** Unpacking [extension, parser = value] for a value of [_PARSERS]: the
    values are classes, and a class object is not iterable. *)
Definition unpack_pair (value : py_class) : result (string * py_class) :=
  Raise TypeError.

(** [get_parser(filename)], with the global [_PARSERS] passed in; the loop
    runs over [_PARSERS.values()]. *)
Fixpoint get_parser (_PARSERS : dict py_class) (filename : string)
    : result py_class :=
  match _PARSERS with
  | [] => Ok DefaultParser
  | (_, value) :: rest =>
      pair ← unpack_pair value;
      if endswith filename (fst pair) then Ok (snd pair)
      else get_parser rest filename
  end.

End V2Parsers.

(** ** merger/v2/readers/default_reader.py *)

Module DefaultReader.

Import QArith_base.

Definition bytes := list Byte.byte.

(** A decoded [str]: its code points. *)
Definition text := list N.

(** The libraries the reader calls, as the reader sees them:
    - [chardet_detect b] is [chardet.detect(b)] through its two entries,
      ["encoding"] (possibly [None]) and ["confidence"];
    - [filetype_guess b] is [filetype.guess(b)] reduced to [kind.mime]
      ([Ok None] when no kind is found), or the exception it raises;
    - [codec name] is the codec registry: [None] for a name Python knows no
      codec under, otherwise the strict decoder, which answers [None] when
      the bytes are not valid in that encoding. *)
Record runtime := Runtime {
  chardet_detect : bytes -> option string * Q;
  filetype_guess : bytes -> result (option string);
  codec : string -> option (bytes -> option text)
}.

Definition TEXT_CONFIDENCE_THRESHOLD : Q := 8 # 10.
Definition MAX_BINARY_RATIO : Q := 30 # 100.

Definition TEXTUAL_APPLICATION_MIMES : list string :=
  [ "application/json"; "application/xml"; "application/javascript";
    "application/x-yaml" ].

(** [b.decode(encoding)] with strict error handling. *)
Definition bytes_decode (rt : runtime) (b : bytes) (encoding : string)
    : result text :=
  match codec rt encoding with
  | None => Raise (LookupError encoding)
  | Some decoder =>
      match decoder b with
      | Some t => Ok t
      | None => Raise UnicodeDecodeError
      end
  end.

(** *** [b.decode("utf-8", errors="replace")]

    Every maximal ill-formed run becomes one [U+FFFD]; [None] marks such a
    run in [utf8_units]. *)
Definition continuation (b : N) : bool := ((128 <=? b) && (b <=? 191))%N.

Definition second_of_three (b0 b1 : N) : bool :=
  (if b0 =? 224 then (160 <=? b1) && (b1 <=? 191)
   else if b0 =? 237 then (128 <=? b1) && (b1 <=? 159)
   else continuation b1)%N.

Definition second_of_four (b0 b1 : N) : bool :=
  (if b0 =? 240 then (144 <=? b1) && (b1 <=? 191)
   else if b0 =? 244 then (128 <=? b1) && (b1 <=? 143)
   else continuation b1)%N.

Fixpoint utf8_units (bs : list N) : list (option N) :=
  match bs with
  | [] => []
  | b0 :: r =>
      if (b0 <? 128)%N then Some b0 :: utf8_units r
      else if ((194 <=? b0) && (b0 <=? 223))%N then
        match r with
        | b1 :: r1 =>
            if continuation b1
            then Some ((b0 - 192) * 64 + (b1 - 128))%N :: utf8_units r1
            else None :: utf8_units r
        | [] => [None]
        end
      else if ((224 <=? b0) && (b0 <=? 239))%N then
        match r with
        | b1 :: r1 =>
            if second_of_three b0 b1 then
              match r1 with
              | b2 :: r2 =>
                  if continuation b2
                  then Some ((b0 - 224) * 4096 + (b1 - 128) * 64
                             + (b2 - 128))%N :: utf8_units r2
                  else None :: utf8_units r1
              | [] => [None]
              end
            else None :: utf8_units r
        | [] => [None]
        end
      else if ((240 <=? b0) && (b0 <=? 244))%N then
        match r with
        | b1 :: r1 =>
            if second_of_four b0 b1 then
              match r1 with
              | b2 :: r2 =>
                  if continuation b2 then
                    match r2 with
                    | b3 :: r3 =>
                        if continuation b3
                        then Some ((b0 - 240) * 262144 + (b1 - 128) * 4096
                                   + (b2 - 128) * 64 + (b3 - 128))%N
                             :: utf8_units r3
                        else None :: utf8_units r2
                    | [] => [None]
                    end
                  else None :: utf8_units r1
              | [] => [None]
              end
            else None :: utf8_units r
        | [] => [None]
        end
      else None :: utf8_units r
  end.

Definition REPLACEMENT_CHARACTER : N := 65533.

Definition decode_utf8_replace (b : bytes) : text :=
  map (fun u => default REPLACEMENT_CHARACTER u) (utf8_units (map Byte.to_N b)).

(** [guess_encoding(file_chunk)] *)
Definition guess_encoding (rt : runtime) (file_chunk : bytes) : string * Q :=
  let result := chardet_detect rt file_chunk in
  (match fst result with
   | Some encoding => if String.eqb encoding "" then "utf-8" else encoding
   | None => "utf-8"
   end,
   snd result).

(** [guess_mime_type(file_chunk)] *)
Definition guess_mime_type (rt : runtime) (file_chunk : bytes) : option string :=
  match filetype_guess rt file_chunk with
  | Ok kind => kind
  | Raise _ => None
  end.

(** [byte < 9 or (13 < byte < 32)] *)
Definition non_printable_byte (byte : Byte.byte) : bool :=
  let n := Byte.to_N byte in
  ((n <? 9) || ((13 <? n) && (n <? 32)))%N.

(** [sum(... for byte in file_chunk)] *)
Definition non_printable (file_chunk : bytes) : nat :=
  length (List.filter non_printable_byte file_chunk).

Definition contains_nul (file_chunk : bytes) : bool :=
  existsb (fun byte => Byte.eqb byte Byte.x00) file_chunk.

(** [looks_binary(file_chunk)].  The quotient and the bound are the exact
    rationals; Python evaluates both in binary64 (see [looks_binary_float]
    below). *)
Definition looks_binary (file_chunk : bytes) : bool :=
  if contains_nul file_chunk then true
  else
    let ratio :=
      Z.of_nat (non_printable file_chunk)
      # Pos.of_nat (Nat.max (length file_chunk) 1) in
    negb (Qle_bool ratio MAX_BINARY_RATIO).

(** [validate(file_chunk)]; the logger only observes. *)
Definition validate (rt : runtime) (file_chunk : bytes) : result bool :=
  let mime_type := guess_mime_type rt file_chunk in
  let rejected_by_mime :=
    match mime_type with
    | Some m =>
        if String.eqb m "" then false
        else
          let is_text_mime :=
            startswith m "text/" || str_in m TEXTUAL_APPLICATION_MIMES in
          negb is_text_mime
    | None => false
    end in
  if rejected_by_mime then Ok false
  else if looks_binary file_chunk then Ok false
  else
    let encoding := fst (guess_encoding rt file_chunk) in
    try_except
      (_ ← bytes_decode rt file_chunk encoding; Ok true)
      (fun e => match e with
                | UnicodeDecodeError => Some (Ok false)
                | _ => None
                end).

(** [get_content(file_bytes)] *)
Definition get_content (rt : runtime) (file_bytes : bytes) : result text :=
  let encoding := fst (guess_encoding rt (take 1024 file_bytes)) in
  try_except
    (bytes_decode rt file_bytes encoding)
    (fun e => match e with
              | UnicodeDecodeError => Some (Ok (decode_utf8_replace file_bytes))
              | _ => None
              end).

(** *** The ratio test in binary64

    The same comparison as Python runs it: both integers become binary64
    values, the division is the correctly rounded one, and [0.30] is the
    binary64 value nearest to three tenths. *)
Import PrimFloat.

Definition exceeds_ratio_float (count size : Z) : bool :=
  PrimFloat.ltb 0x1.3333333333333p-2%float
    (PrimFloat.div (PrimFloat.of_uint63 (Uint63.of_Z count))
       (PrimFloat.of_uint63 (Uint63.of_Z (Z.max size 1)))).

Definition looks_binary_float (file_chunk : bytes) : bool :=
  if contains_nul file_chunk then true
  else exceeds_ratio_float (Z.of_nat (non_printable file_chunk))
         (Z.of_nat (length file_chunk)).

(** The [n] integers from [start] on. *)
Fixpoint range_from (start : Z) (n : nat) : list Z :=
  match n with
  | O => []
  | S k => start :: range_from (start + 1) k
  end.

(** The exact comparison, on integers. *)
Definition exceeds_ratio_exact (count size : Z) : bool :=
  (30 * Z.max size 1 <? 100 * count)%Z.

(** Do the two comparisons agree for every size up to [n] and every count up
    to the size? *)
Definition ratio_tests_agree_up_to (n : nat) : bool :=
  forallb
    (fun size =>
       forallb
         (fun count =>
            Bool.eqb (exceeds_ratio_float count size)
              (exceeds_ratio_exact count size))
         (range_from 0 (S (Z.to_nat size))))
    (range_from 0 (S n)).

End DefaultReader.

(** ** merger/merger_cli.py *)

Module MergerCli.

(** The parsed command line.  [install] and [input_dir] are paths or [None];
    a path is always true in a condition, the empty string is not. *)
Record arguments := Args {
  input_dir : option string;
  output_path : string;
  install : option string;
  uninstall : option string;
  list_installed : bool;
  ignore : list string;
  merger_ignore : string;
  no_tree : bool
}.

(** What [main] writes to the log. *)
Inductive log_event :=
| InfoParserRegistered
| ErrorCouldNotInstall (e : exn)
| InfoNoParsersInstalled
| InfoUninstalled (module_name ext : string)
| ErrorFailedToUninstallFrom (module_name ext : string) (e : exn)
| ErrorFailedToUninstall (ext : string) (e : exn)
| ErrorNoParserFound (ext : string)
| InfoNoCustomParsers
| InfoInstalledParsers
| InfoInstalledLine (module_name : string) (extensions : list string)
| InfoFoundIgnoreFile
| InfoSaved (output_path : string).

(** How [main] ends: it returns, [parser.error] exits with status 2, or an
    exception escapes. *)
Inductive ending :=
| Returned
| SystemExit (status : Z)
| Escaped (e : exn).

Section Main.

(** The collaborators of [main] that [src/] does not hold, acting on a
    state of their own: [import_parser], [remove_parser] and
    [list_installed_parsers] of [merger.parsers.parsers]; the existence and
    kind of a path; [read_merger_ignore_file]; and the merge itself (the
    output directory, [FileTree.from_path], [write_tree]).  The exceptions
    they raise are subclasses of [Exception]. *)
Context {state : Type}.
Variable import_parser : string -> state -> state * result unit.
Variable remove_parser : string -> state -> state * result unit.
Variable list_installed_parsers : state -> dict (list string).
Variable path_exists : string -> state -> bool.
Variable path_is_file : string -> state -> bool.
Variable read_merger_ignore_file : string -> state -> result (list string).
Variable write_merged :
  string -> list string -> string -> state -> state * result unit.

(** The inner loop of the ["*"] branch: every extension of one module. *)
Fixpoint uninstall_extensions (module_name : string) (extensions : list string)
    (st : state) : state * list log_event :=
  match extensions with
  | [] => (st, [])
  | ext :: rest =>
      let (st', event) :=
        match remove_parser ext st with
        | (st', Ok _) => (st', InfoUninstalled module_name ext)
        | (st', Raise exc) =>
            (st', ErrorFailedToUninstallFrom module_name ext exc)
        end in
      let (st'', events) := uninstall_extensions module_name rest st' in
      (st'', event :: events)
  end.

(** The outer loop of the ["*"] branch, over the snapshot [installed]. *)
Fixpoint uninstall_all (installed : dict (list string)) (st : state)
    : state * list log_event :=
  match installed with
  | [] => (st, [])
  | (module_name, extensions) :: rest =>
      let (st', events) := uninstall_extensions module_name extensions st in
      let (st'', events') := uninstall_all rest st' in
      (st'', events ++ events')
  end.

(** The loop of the one-extension branch: the first module that lists
    [ext] ends it; the flag is [found]. *)
Fixpoint uninstall_first (ext : string) (installed : dict (list string))
    (st : state) : state * list log_event * bool :=
  match installed with
  | [] => (st, [], false)
  | (module_name, extensions) :: rest =>
      if str_in ext extensions then
        match remove_parser ext st with
        | (st', Ok _) => (st', [InfoUninstalled module_name ext], true)
        | (st', Raise e) => (st', [ErrorFailedToUninstall ext e], false)
        end
      else uninstall_first ext rest st
  end.

(** The state after [remove_parser] was tried on each of [exts] in turn,
    whatever each try did. *)
Definition after_removals (exts : list string) (st : state) : state :=
  foldl (fun s ext => fst (remove_parser ext s)) st exts.

(** [main()], from the parsed arguments on. *)
Definition main (args : arguments) (st : state)
    : state * list log_event * ending :=
  match install args with
  | Some module_path =>
      match import_parser module_path st with
      | (st', Ok _) => (st', [InfoParserRegistered], Returned)
      | (st', Raise e) => (st', [ErrorCouldNotInstall e], Returned)
      end
  | None =>
      match uninstall args with
      | Some (String c rest as selector) =>
          let installed := list_installed_parsers st in
          match installed with
          | [] => (st, [InfoNoParsersInstalled], Returned)
          | _ :: _ =>
              if String.eqb selector "*" then
                let (st', events) := uninstall_all installed st in
                (st', events, Returned)
              else
                let '(st', events, found) :=
                  uninstall_first selector installed st in
                (st',
                 events ++ (if found then []
                            else [ErrorNoParserFound selector]),
                 Returned)
          end
      | _ =>
          if list_installed args then
            match list_installed_parsers st with
            | [] => (st, [InfoNoCustomParsers], Returned)
            | installed =>
                (st,
                 InfoInstalledParsers
                   :: map (fun kv => InfoInstalledLine (fst kv) (snd kv))
                        installed,
                 Returned)
            end
          else
            match input_dir args with
            | None => (st, [], SystemExit 2)
            | Some dir =>
                let merge (events : list log_event)
                      (ignore_patterns : list string) :=
                  match write_merged dir (frozenset ignore_patterns)
                          (output_path args) st with
                  | (st', Ok _) =>
                      (st', events ++ [InfoSaved (output_path args)], Returned)
                  | (st', Raise e) => (st', events, Escaped e)
                  end in
                if path_exists (merger_ignore args) st then
                  if negb (path_is_file (merger_ignore args) st)
                  then (st, [], SystemExit 2)
                  else
                    match read_merger_ignore_file (merger_ignore args) st with
                    | Ok patterns =>
                        merge [InfoFoundIgnoreFile] (ignore args ++ patterns)
                    | Raise e => (st, [InfoFoundIgnoreFile], Escaped e)
                    end
                else merge [] (ignore args)
            end
      end
  end.

End Main.

(** The module and the extension an uninstall event of the ["*"] branch is
    about. *)
Definition event_subject (event : log_event) : option (string * string) :=
  match event with
  | InfoUninstalled module_name ext => Some (module_name, ext)
  | ErrorFailedToUninstallFrom module_name ext _ => Some (module_name, ext)
  | _ => None
  end.

(** Every extension of the snapshot, with its module, in iteration order. *)
Definition listed_extensions (installed : dict (list string))
    : list (string * string) :=
  flat_map (fun kv => map (fun ext => (fst kv, ext)) (snd kv)) installed.

End MergerCli.

(** ** examples/custom_readers/pdf.py, examples/custom_parsers/pdf_parser.py

    [extract_pdf_text] and [PdfParser.parse] run the same loop over the
    pages of the document; what [page.get_text()] answers for each page is
    given. *)

Module PdfExample.

(** The line feed, ["\n"]. *)
Definition LF : ascii := ascii_of_nat 10.

(** [text.replace("\n\n", "")]: the occurrences of two line feeds, found
    from the left without overlap, are dropped. *)
Fixpoint remove_double_newlines (text : string) : string :=
  match text with
  | String a (String b rest as tail) =>
      if Ascii.eqb a LF && Ascii.eqb b LF then remove_double_newlines rest
      else String a (remove_double_newlines tail)
  | _ => text
  end.

(** [" ".join(texts)] *)
Fixpoint join_spaces (texts : list string) : string :=
  match texts with
  | [] => ""
  | [text] => text
  | text :: rest => text +:+ " " +:+ join_spaces rest
  end.

(** The loop over the pages: the text of a page that has some is cleaned
    and appended. *)
Fixpoint page_texts (pages : list string) : list string :=
  match pages with
  | [] => []
  | text :: rest =>
      if negb (String.eqb text "")
      then remove_double_newlines text :: page_texts rest
      else page_texts rest
  end.

Definition extract_pdf_text (pages : list string) : string :=
  join_spaces (page_texts pages).

End PdfExample.

(** ** Notions of the specification *)

Module Spec.

(** "Case-insensitive suffix matching": some tail of the file name equals
    the extension once both are lowered. *)
Definition ci_suffix (extension filename : string) : Prop :=
  exists stem tail, filename = stem +:+ tail /\ lower tail = lower extension.

(** No extension of the registry part [d] matches the file name. *)
Definition none_matches (d : dict py_class) (filename : string) : Prop :=
  Forall (fun kv => ~ ci_suffix (fst kv) filename) d.

(** The records the persisted store holds. *)
Definition installed_records (w : world) : dict module_entry :=
  default [] (config w).

(** The path a record stores its file under. *)
Definition stored_file (record : string * module_entry) : string :=
  default "" (entry_path (snd record)).

(** "The union of extensions already claimed by every currently installed
    PluginRecord". *)
Definition claimed (modules : dict module_entry) (extension : string) : Prop :=
  exists id entry extensions,
    In (id, entry) modules
    /\ entry_extensions entry = Some extensions
    /\ In extension extensions.

(** The extension set a candidate file declares, when the file can be
    hashed, loads and validates. *)
Definition candidate_extensions (w : world) (path : string)
    : option (list string) :=
  match hash_from_file w path with
  | Ok file_hash =>
      match Modules.module_from_path w path file_hash with
      | Ok module =>
          match Modules.get_extensions_and_parser_cls module with
          | Ok ext_cls => Some (fst ext_cls)
          | Raise _ => None
          end
      | Raise _ => None
      end
  | Raise _ => None
  end.

(** The plugin a candidate file holds: its extension set and its parser
    class, when the file can be hashed, loads and validates. *)
Definition candidate_plugin (w : world) (path : string)
    : option (list string * py_class) :=
  match hash_from_file w path with
  | Ok file_hash =>
      match Modules.module_from_path w path file_hash with
      | Ok module =>
          match Modules.get_extensions_and_parser_cls module with
          | Ok ext_cls => Some ext_cls
          | Raise _ => None
          end
      | Raise _ => None
      end
  | Raise _ => None
  end.

(** *** Plugin shape *)

(** One character of the class [[a-z0-9.]], letters in either case. *)
Definition extension_class_char (c : ascii) : Prop :=
  let n := nat_of_ascii (lower_ascii c) in
  97 <= n <= 122 \/ 48 <= n <= 57 \/ n = 46.

#[export] Instance extension_class_char_dec c : Decision (extension_class_char c).
Proof. unfold extension_class_char; apply _. Defined.

(** "Matches the extension regex": a dot followed by one or more characters
    of the class. *)
Definition matches_extension_regex (s : string) : Prop :=
  exists body,
    s = String "."%char body
    /\ body <> ""
    /\ Forall extension_class_char (list_ascii_of_string body).

(** The four conditions of plugin validation, for the export list [names]
    of a module whose [EXTENSIONS] yields [items] and whose other export is
    the class [c]: exactly two exports, one of them [EXTENSIONS] bound to an
    iterable of strings that all match the regex, the other a subclass of
    [Parser]. *)
Definition exports_shape (module : py_module) (names items : list py_value)
    (c : py_class) : Prop :=
  exists other extensions,
    (names = [PyStr "EXTENSIONS"; PyStr other]
     \/ names = [PyStr other; PyStr "EXTENSIONS"])
    /\ other <> "EXTENSIONS"
    /\ dict_get "EXTENSIONS" (mod_dict module) = Some extensions
    /\ iterate extensions = Some items
    /\ Forall (fun item => exists s, item = PyStr s
                                    /\ matches_extension_regex s) items
    /\ dict_get other (mod_dict module) = Some (PyClass c)
    /\ cls_is_parser c = true.

Definition plugin_shape (module : py_module) (items : list py_value)
    (c : py_class) : Prop :=
  exists names,
    (dict_get "__all__" (mod_dict module) = Some (PyList names)
     \/ dict_get "__all__" (mod_dict module) = Some (PyTuple names))
    /\ exports_shape module names items c.

(** *** Registry construction *)

(** The classes a module exports through [__all__]. *)
Definition exported_classes (module : py_module) : list py_class :=
  match dict_get "__all__" (mod_dict module) with
  | Some (PyList names) | Some (PyTuple names) =>
      flat_map
        (fun name =>
           match getattr module name with
           | Ok (PyClass c) => [c]
           | _ => []
           end)
        names
  | _ => []
  end.

(** The strings a module's [EXTENSIONS] yields, in iteration order, to the
    code that iterates over it after validation did: an iterator yields
    none then. *)
Definition declared_extensions (module : py_module) : list string :=
  match dict_get "EXTENSIONS" (mod_dict module) with
  | Some extensions => strings_of (iterate_again extensions)
  | None => []
  end.

(** Binding offers one after the other, up to the first extension that is
    bound already: the registry, or the conflict (extension, owner,
    candidate). *)
Fixpoint bind_in_order (offers : list (string * py_class))
    (parsers : dict py_class) : dict py_class + string * py_class * py_class :=
  match offers with
  | [] => inl parsers
  | (extension, candidate) :: rest =>
      match dict_get extension parsers with
      | Some owner => inr (extension, owner, candidate)
      | None => bind_in_order rest (parsers ++ [(extension, candidate)])
      end
  end.

(** The directory scan of [v2]: a path it skips, the diagnostic it leaves
    for it, and the bindings a path it accepts offers. *)
Definition v2_skipped (w : world) (path : string) : Prop :=
  path_name path <> "__init__.py"
  /\ (V2Parsers.load_module_from_path w path = V2Parsers.NotLoaded
      \/ exists module,
           V2Parsers.load_module_from_path w path = V2Parsers.Loaded module
           /\ V2Parsers.validate_module module = Ok false).

Definition v2_diagnostic (w : world) (path : string) : V2Parsers.log_record :=
  match V2Parsers.load_module_from_path w path with
  | V2Parsers.Loaded _ => V2Parsers.LogSkipInvalid (path_name path)
  | _ => V2Parsers.LogSkipFailedToLoad (path_name path)
  end.

Definition v2_bindings (w : world) (path : string)
    : list (string * py_class) :=
  if String.eqb (path_name path) "__init__.py" then []
  else
    match V2Parsers.load_module_from_path w path with
    | V2Parsers.Loaded module =>
        match V2Parsers.validate_module module, exported_classes module with
        | Ok true, c :: _ => map (fun e => (e, c)) (declared_extensions module)
        | _, _ => []
        end
    | _ => []
    end.

(** Loading returns for every path the scan visits, and [validate_module]
    returns for every module the scan loads. *)
Definition v2_validation_returns (w : world) (paths : list string) : Prop :=
  forall path,
    In path paths ->
    path_name path <> "__init__.py" ->
    V2Parsers.load_module_from_path w path <> V2Parsers.LoadExits
    /\ forall module,
         V2Parsers.load_module_from_path w path = V2Parsers.Loaded module ->
         exists verdict, V2Parsers.validate_module module = Ok verdict.

(** The record-based construction of [modules.py]: what loading and
    validating one record gives, and the bindings a valid record offers. *)
Definition v1_loaded (w : world) (record : string * module_entry)
    : result (list string * py_class) :=
  module ← Modules.module_from_path w (default "" (entry_path (snd record)))
             (fst record);
  Modules.get_extensions_and_parser_cls module.

Definition v1_valid (w : world) (record : string * module_entry) : Prop :=
  exists ext_cls, v1_loaded w record = Ok ext_cls.

Definition v1_bindings (w : world) (record : string * module_entry)
    : list (string * py_class) :=
  match v1_loaded w record with
  | Ok ext_cls => map (fun e => (e, snd ext_cls)) (fst ext_cls)
  | Raise _ => []
  end.

(** *** The persisted store *)

(** The extensions a record lists. *)
Definition recorded_extensions (record : string * module_entry) : list string :=
  default [] (entry_extensions (snd record)).

(** The invariants of the store: no hash occurs twice, and no extension is
    listed twice, be it by two records or by one. *)
Definition store_invariant (records : dict module_entry) : Prop :=
  NoDup (map fst records) /\ NoDup (flat_map recorded_extensions records).

(** Where [install_module] stores the file of the candidate with hash
    [file_hash]. *)
Definition store_target (w : world) (file_hash : string) : string :=
  parsers_dir w +:+ "/" +:+ file_hash +:+ ".py".

(** The store agrees with the files it points to: every record loads and
    validates, and lists exactly the extensions its file declares. *)
Definition record_consistent (w : world) (record : string * module_entry)
    : Prop :=
  exists exts c recorded,
    v1_loaded w record = Ok (exts, c)
    /\ entry_extensions (snd record) = Some recorded
    /\ forall e, In e exts <-> In e recorded.

Definition store_consistent (w : world) : Prop :=
  Forall (record_consistent w) (installed_records w).

(** *** The default reader *)

(** A MIME probe that does not reject: nothing detected, a ["text/*"] type,
    or one of the allow-listed application types. *)
Definition acceptable_mime (mime : option string) : Prop :=
  match mime with
  | None => True
  | Some m =>
      m = ""
      \/ (exists rest, m = "text/" +:+ rest)
      \/ In m DefaultReader.TEXTUAL_APPLICATION_MIMES
  end.

(** The encoding name [validate] and [get_content] decode [sample] with. *)
Definition detected_encoding (rt : DefaultReader.runtime)
    (sample : DefaultReader.bytes) : string :=
  fst (DefaultReader.guess_encoding rt sample).

(** The bytes decode strictly under the encoding detected on [sample]. *)
Definition decodes_as (rt : DefaultReader.runtime)
    (sample file_bytes : DefaultReader.bytes) (t : DefaultReader.text) : Prop :=
  exists decoder,
    DefaultReader.codec rt (detected_encoding rt sample) = Some decoder
    /\ decoder file_bytes = Some t.

(** "The control ranges [0,9) and (13,32)". *)
Definition in_control_ranges (byte : Byte.byte) : Prop :=
  (Byte.to_N byte < 9)%N \/ (13 < Byte.to_N byte < 32)%N.

#[export] Instance in_control_ranges_dec byte : Decision (in_control_ranges byte).
Proof. unfold in_control_ranges; apply _. Defined.

(** How many bytes of the chunk lie in the control ranges. *)
Definition control_bytes (chunk : DefaultReader.bytes) : nat :=
  length (List.filter (fun byte => bool_decide (in_control_ranges byte)) chunk).

(** "Strictly more than 30% of the bytes lie in the control ranges". *)
Definition control_share_above_30_percent (chunk : DefaultReader.bytes) : Prop :=
  30 * length chunk < 100 * control_bytes chunk.

(** *** Extracted text *)

(** [needle] occurs in [s]. *)
Definition occurs_in (needle s : string) : Prop :=
  exists before after, s = before +:+ needle +:+ after.

(** A bytecode cache directory, or a path inside one. *)
Definition bytecode_cache (p : string) : Prop :=
  occurs_in "/__pycache__" p.

(** An empty line: two line feeds in a row. *)
Definition empty_line : string :=
  String PdfExample.LF (String PdfExample.LF "").

(** Whether two line feeds in a row occur in [s]. *)
Fixpoint has_empty_line (s : string) : bool :=
  match s with
  | String a (String b _ as tail) =>
      (Ascii.eqb a PdfExample.LF && Ascii.eqb b PdfExample.LF)
      || has_empty_line tail
  | _ => false
  end.

End Spec.
Import Spec.

(** ** Sample plugins, stores and runtimes *)

Module Samples.

(** The namespace a plugin file leaves: [__all__], [EXTENSIONS] and the
    exported class. *)
Definition plugin_namespace (extensions : list string) (cls : py_class)
    : dict py_value :=
  [ ("__all__", PyList [PyStr "EXTENSIONS"; PyStr (cls_name cls)]);
    ("EXTENSIONS", PySet (map PyStr extensions));
    (cls_name cls, PyClass cls) ].

Definition plugin_file (hash : string) (extensions : list string)
    (cls : py_class) : node :=
  File (FileContent hash
          (fun _ _ => ExecOk (plugin_namespace extensions cls))).

Definition FooParser : py_class := PyClassOf "FooParser" true.
Definition BarParser : py_class := PyClassOf "BarParser" true.
Definition LowerTxtParser : py_class := PyClassOf "LowerTxtParser" true.
Definition UpperTxtParser : py_class := PyClassOf "UpperTxtParser" true.

Definition store_dir : string := "/home/user/.merger/parsers".

Definition stored_path (hash : string) : string :=
  store_dir +:+ "/" +:+ hash +:+ ".py".

Definition record (hash : string) (extensions : list string) (name : string)
    : string * module_entry :=
  (hash, ModuleEntry (Some extensions) (Some (stored_path hash)) (Some name)).

(** Three installed records; the stored path of the second is a directory. *)
Definition three_records_middle_directory : world :=
  World
    (<[stored_path "a1b2c3d4" := plugin_file "a1b2c3d4" [".foo"] FooParser]>
       (<[stored_path "bbbbbbbb" := Dir]>
          (<[stored_path "cccccccc" := plugin_file "cccccccc" [".bar"] BarParser]>
             ∅)))
    (Some [ record "a1b2c3d4" [".foo"] "foo.py";
            record "bbbbbbbb" [".dir"] "dir.py";
            record "cccccccc" [".bar"] "bar.py" ])
    store_dir.

(** Two candidate plugins whose extensions differ in letter case only, and
    an empty store. *)
Definition two_case_variants : world :=
  World
    (<["/src/lower_txt.py" := plugin_file "11111111" [".txt"] LowerTxtParser]>
       (<["/src/upper_txt.py" := plugin_file "22222222" [".TXT"] UpperTxtParser]>
          ∅))
    None
    store_dir.

(** A third candidate, which claims [".txt"] as the first does. *)
Definition MarkdownParser : py_class := PyClassOf "MarkdownParser" true.

Definition with_overlapping_candidate : world :=
  World
    (<["/src/notes.py" := plugin_file "33333333" [".md"; ".txt"] MarkdownParser]>
       (fs two_case_variants))
    None
    store_dir.

(** A registry where a short extension precedes a longer one it is a
    suffix of. *)
Definition GzParser : py_class := PyClassOf "GzParser" true.
Definition TarGzParser : py_class := PyClassOf "TarGzParser" true.

Definition gz_before_tar_gz : dict py_class :=
  [(".gz", GzParser); (".tar.gz", TarGzParser)].

(** A file whose code binds no [__all__]. *)
Definition no_all_file (hash : string) : node :=
  File (FileContent hash (fun _ _ => ExecOk [("helper", PyObject)])).

(** Two stored files, the first of which is no plugin; both are recorded. *)
Definition invalid_then_valid : world :=
  World
    (<[stored_path "0badc0de" := no_all_file "0badc0de"]>
       (<[stored_path "a1b2c3d4" := plugin_file "a1b2c3d4" [".foo"] FooParser]>
          ∅))
    (Some [ record "0badc0de" [".bad"] "bad.py";
            record "a1b2c3d4" [".foo"] "foo.py" ])
    store_dir.

(** A module that lists [EXTENSIONS] twice in [__all__]. *)
Definition extensions_listed_twice : py_module :=
  PyModule "deadbeef" "/src/twice.py"
    (bind_all
       [ ("__all__", PyList [PyStr "EXTENSIONS"; PyStr "EXTENSIONS"]);
         ("EXTENSIONS", PyList [PyStr ".txt"]);
         ("TxtParser", PyClass (PyClassOf "TxtParser" true)) ]
       (initial_attributes "deadbeef" "/src/twice.py")).

(** A module whose [__all__] holds something that is no string. *)
Definition all_with_number : py_module :=
  PyModule "deadbeef" "/src/number.py"
    (bind_all
       [ ("__all__", PyList [PyStr "EXTENSIONS"; PyInt 7]);
         ("EXTENSIONS", PyList [PyStr ".txt"]) ]
       (initial_attributes "deadbeef" "/src/number.py")).

(** The module the first stored file of [invalid_then_valid]'s valid record
    loads to. *)
Definition foo_module : py_module :=
  PyModule "a1b2c3d4" (stored_path "a1b2c3d4")
    (bind_all (plugin_namespace [".foo"] FooParser)
       (initial_attributes "a1b2c3d4" (stored_path "a1b2c3d4"))).

(** Two installed records with their files in place. *)
Definition two_records_regular : world :=
  World
    (<[stored_path "a1b2c3d4" := plugin_file "a1b2c3d4" [".foo"] FooParser]>
       (<[stored_path "cccccccc" := plugin_file "cccccccc" [".bar"] BarParser]>
          ∅))
    (Some [ record "a1b2c3d4" [".foo"] "foo.py";
            record "cccccccc" [".bar"] "bar.py" ])
    store_dir.

(** Two plugin files in the store directory that both declare [".foo"],
    and an [__init__.py] beside them. *)
Definition duplicate_foo_files : world :=
  World
    (<[stored_path "a1b2c3d4" := plugin_file "a1b2c3d4" [".foo"] FooParser]>
       (<[stored_path "cccccccc" := plugin_file "cccccccc" [".foo"] BarParser]>
          (<[store_dir +:+ "/__init__.py"
               := plugin_file "00000000" [".init"] GzParser]> ∅)))
    None
    store_dir.

(** [two_case_variants] after its first candidate was installed. *)
Definition after_first_install : world :=
  fst (Modules.install_module "/src/lower_txt.py" two_case_variants).

(** One installed record with its file in place, and a candidate beside
    it. *)
Definition bar_content : file_content :=
  FileContent "cccccccc"
    (fun _ _ => ExecOk (plugin_namespace [".bar"] BarParser)).

Definition one_record_one_candidate : world :=
  World
    (<[stored_path "a1b2c3d4" := plugin_file "a1b2c3d4" [".foo"] FooParser]>
       (<["/src/bar.py" := File bar_content]> ∅))
    (Some [ record "a1b2c3d4" [".foo"] "foo.py" ])
    store_dir.

(** A module whose [EXTENSIONS] is an iterator over one extension. *)
Definition GenParser : py_class := PyClassOf "GenParser" true.

Definition one_shot_extensions : py_module :=
  PyModule "deadbeef" "/src/gen.py"
    (bind_all
       [ ("__all__", PyList [PyStr "EXTENSIONS"; PyStr "GenParser"]);
         ("EXTENSIONS", PyIterator [PyStr ".gen"]);
         ("GenParser", PyClass GenParser) ]
       (initial_attributes "deadbeef" "/src/gen.py")).

(** A plugin file that lies where the installer would copy it to, and an
    empty store. *)
Definition candidate_in_store : world :=
  World
    (<[stored_path "a1b2c3d4" := plugin_file "a1b2c3d4" [".foo"] FooParser]>
       ∅)
    None
    store_dir.

(** Two stored files: the code of the first calls [sys.exit()], the second
    is a plugin. *)
Definition exiting_then_valid : world :=
  World
    (<[stored_path "0badc0de"
         := File (FileContent "0badc0de" (fun _ _ => ExecExits))]>
       (<[stored_path "a1b2c3d4" := plugin_file "a1b2c3d4" [".foo"] FooParser]>
          ∅))
    None
    store_dir.

(** [two_case_variants] after both candidates were installed. *)
Definition after_second_install : world :=
  fst (Modules.install_module "/src/upper_txt.py" after_first_install).


(** *** Runtimes for the default reader *)

Definition decode_ascii (b : DefaultReader.bytes) : option DefaultReader.text :=
  if forallb (fun byte => (Byte.to_N byte <? 128)%N) b
  then Some (map Byte.to_N b) else None.

Definition decode_latin_1 (b : DefaultReader.bytes) : option DefaultReader.text :=
  Some (map Byte.to_N b).

Definition decode_utf_8 (b : DefaultReader.bytes) : option DefaultReader.text :=
  let units := DefaultReader.utf8_units (map Byte.to_N b) in
  if forallb (fun u => match u with Some _ => true | None => false end) units
  then Some (map (fun u => default 0%N u) units) else None.

(** A codec registry with three codecs; codec names ignore letter case. *)
Definition three_codecs (name : string)
    : option (DefaultReader.bytes -> option DefaultReader.text) :=
  let n := lower name in
  if String.eqb n "ascii" then Some decode_ascii
  else if String.eqb n "utf-8" then Some decode_utf_8
  else if String.eqb n "latin-1" || String.eqb n "iso-8859-1"
  then Some decode_latin_1
  else None.

(** A detector that answers one charset name with confidence 0.99, a MIME
    probe that answers [mime], and the three codecs. *)
Definition runtime_answering (charset : option string) (mime : option string)
    : DefaultReader.runtime :=
  DefaultReader.Runtime
    (fun _ => (charset, QArith_base.Qmake 99 100))
    (fun _ => Ok mime)
    three_codecs.

(** The detector reports ["EUC-TW"], a charset [chardet] knows and Python
    has no codec for. *)
Definition detects_euc_tw : DefaultReader.runtime :=
  runtime_answering (Some "EUC-TW") None.

(** 500 bytes: 200 of value 1 to 8, then 300 letters. *)
Definition chunk_500_with_200_control : DefaultReader.bytes :=
  concat (repeat [Byte.x01; Byte.x02; Byte.x03; Byte.x04;
                  Byte.x05; Byte.x06; Byte.x07; Byte.x08] 25)
  ++ repeat Byte.x61 300.

(** Text with one NUL byte in it. *)
Definition chunk_with_nul : DefaultReader.bytes :=
  [Byte.x68; Byte.x69; Byte.x00; Byte.x21].

(** *** Collaborators for the command line

    The state is the list of installed extensions; removing one that is
    not installed raises [KeyError], and [".locked"] cannot be removed. *)

Definition cli_remove_parser (ext : string) (st : list string)
    : list string * result unit :=
  if String.eqb ext ".locked" then (st, Raise (KeyError ext))
  else if str_in ext st
  then (List.filter (fun e => negb (String.eqb e ext)) st, Ok tt)
  else (st, Raise (KeyError ext)).

Definition cli_import_parser (path : string) (st : list string)
    : list string * result unit :=
  (st, Raise (FileNotFoundError path)).

(** One module per installed extension pair, as a fixed listing. *)
Definition cli_installed (st : list string) : dict (list string) :=
  match st with
  | [] => []
  | _ => [("alpha", [".a"; ".locked"]); ("beta", [".b"])]
  end.

Definition cli_write_merged (dir : string) (patterns : list string)
    (output : string) (st : list string) : list string * result unit :=
  (st, Ok tt).

Definition cli_main (args : MergerCli.arguments) (st : list string) :=
  MergerCli.main cli_import_parser cli_remove_parser cli_installed
    (fun _ _ => false) (fun _ _ => false) (fun _ _ => Ok [])
    cli_write_merged args st.

Definition cli_uninstall (selector : string) : MergerCli.arguments :=
  MergerCli.Args None "./merger.json" None (Some selector) false []
    "./merger.ignore" false.

End Samples.

(** * Properties *)

(** ** Strings *)

Lemma append_assoc (a b c : string) : (a +:+ b) +:+ c = a +:+ (b +:+ c).
Proof.
  induction a as [|x a IH]; [reflexivity|].
  change (String x ((a +:+ b) +:+ c) = String x (a +:+ (b +:+ c))).
  now rewrite IH.
Qed.

Lemma length_append (a b : string) :
  String.length (a +:+ b) = String.length a + String.length b.
Proof.
  induction a as [|x a IH]; [reflexivity|].
  change (S (String.length (a +:+ b)) = S (String.length a + String.length b)).
  now rewrite IH.
Qed.

Lemma lower_length (s : string) : String.length (lower s) = String.length s.
Proof. induction s as [|c s IH]; simpl; congruence. Qed.

Lemma lower_append (a b : string) : lower (a +:+ b) = lower a +:+ lower b.
Proof.
  induction a as [|x a IH]; [reflexivity|].
  change (String (lower_ascii x) (lower (a +:+ b))
          = String (lower_ascii x) (lower a +:+ lower b)).
  now rewrite IH.
Qed.

Lemma slice_from_append (a b : string) :
  slice_from (String.length a) (a +:+ b) = b.
Proof. induction a as [|x a IH]; [now destruct b|exact IH]. Qed.

(** Every string splits at every position within it. *)
Lemma slice_from_split (n : nat) (s : string) :
  n <= String.length s ->
  exists stem, s = stem +:+ slice_from n s /\ String.length stem = n.
Proof.
  revert s; induction n as [|n IH]; intros s Hn.
  - exists ""; split; reflexivity.
  - destruct s as [|c s]; simpl in Hn; [lia|].
    destruct (IH s) as (stem & Hs & Hl); [lia|].
    exists (String c stem); split.
    + change (String c s = String c (stem +:+ slice_from n s)). now rewrite <- Hs.
    + simpl; now rewrite Hl.
Qed.

(** [endswith] decides "is a suffix of". *)
Lemma endswith_spec (s suffix : string) :
  endswith s suffix = true <-> exists stem, s = stem +:+ suffix.
Proof.
  unfold endswith; rewrite andb_true_iff, Nat.leb_le, String.eqb_eq; split.
  - intros [Hle Heq].
    destruct (slice_from_split (String.length s - String.length suffix) s)
      as (stem & Hs & _); [lia|].
    exists stem; now rewrite <- Heq.
  - intros [stem ->]; rewrite length_append; split; [lia|].
    replace (String.length stem + String.length suffix - String.length suffix)
      with (String.length stem) by lia.
    apply slice_from_append.
Qed.

(** The test of [get_parser] is the specification's case-insensitive
    suffix match. *)
Lemma endswith_lower_ci_suffix (extension filename : string) :
  endswith (lower filename) (lower extension) = true
  <-> ci_suffix extension filename.
Proof.
  rewrite endswith_spec; split.
  - intros [stem Hs].
    assert (Hlen : String.length stem + String.length extension
                   = String.length filename).
    { rewrite <- (lower_length filename), Hs, length_append, lower_length; lia. }
    destruct (slice_from_split (String.length stem) filename)
      as (stem' & Hf & Hl); [lia|].
    exists stem', (slice_from (String.length stem) filename); split; [exact Hf|].
    rewrite Hf, lower_append in Hs.
    rewrite <- (slice_from_append (lower stem') (lower (slice_from _ filename))).
    rewrite Hs, lower_length, Hl.
    apply slice_from_append.
  - intros (stem & tail & -> & Ht).
    exists (lower stem); now rewrite lower_append, Ht.
Qed.

(** ** Registry resolution ([modules.get_parser]) *)

(** C1.  For every registry and every file name, [get_parser] returns the
    parser of the first extension, in the registry's insertion order, that is
    a case-insensitive suffix of the file name (whatever the number of dots
    in the extension), and [DefaultParser] when no installed extension is a
    suffix of the file name. *)
Theorem get_parser_first_ci_suffix_or_default :
  forall (_PARSERS : dict py_class) (filename : string),
    (exists before extension parser after,
        _PARSERS = before ++ (extension, parser) :: after
        /\ none_matches before filename
        /\ ci_suffix extension filename
        /\ Modules.get_parser _PARSERS filename = parser)
    \/ (none_matches _PARSERS filename
        /\ Modules.get_parser _PARSERS filename = Modules.DefaultParser).
Proof.
  intros registry filename.
  induction registry as [|[extension parser] rest IH].
  - right; split; [constructor | reflexivity].
  - simpl.
    destruct (endswith (lower filename) (lower extension)) eqn:Hm.
    + left; exists [], extension, parser, rest.
      repeat split; [constructor | now apply endswith_lower_ci_suffix].
    + assert (Hno : ~ ci_suffix extension filename).
      { rewrite <- endswith_lower_ci_suffix; congruence. }
      destruct IH as [(before & e & p & after & -> & Hb & He & Hg) | [Hall Hg]].
      * left; exists ((extension, parser) :: before), e, p, after.
        repeat split; [now constructor | exact He | exact Hg].
      * right; split; [now constructor | exact Hg].
Qed.

Example get_parser_multi_part_suffix :
  Modules.get_parser [(".tar.gz", Samples.TarGzParser)] "Backup.TAR.GZ"
  = Samples.TarGzParser.
Proof. reflexivity. Qed.

Example get_parser_first_match_wins :
  Modules.get_parser Samples.gz_before_tar_gz "backup.tar.gz"
  = Samples.GzParser.
Proof. reflexivity. Qed.

Example get_parser_default_without_match :
  Modules.get_parser Samples.gz_before_tar_gz "README" = Modules.DefaultParser
  /\ Modules.get_parser Samples.gz_before_tar_gz "notes.txt"
     = Modules.DefaultParser
  /\ Modules.get_parser Samples.gz_before_tar_gz "backup.tar.bz2"
     = Modules.DefaultParser
  /\ Modules.get_parser [] "backup.tar.gz" = Modules.DefaultParser.
Proof. repeat split. Qed.

(** ** Sets of strings *)

Lemma str_in_In (x : string) (l : list string) : str_in x l = true <-> In x l.
Proof.
  unfold str_in; rewrite existsb_exists; split.
  - intros (y & Hy & He); apply String.eqb_eq in He; now subst.
  - intros H; exists x; split; [exact H | apply String.eqb_refl].
Qed.

Lemma frozenset_In (x : string) (l : list string) :
  In x (frozenset l) <-> In x l.
Proof.
  induction l as [|y l IH]; simpl; [tauto|].
  rewrite filter_In, IH, negb_true_iff, String.eqb_neq.
  destruct (string_dec y x); intuition congruence.
Qed.

Lemma set_inter_In (x : string) (a b : list string) :
  In x (set_inter a b) <-> In x a /\ In x b.
Proof. unfold set_inter; now rewrite filter_In, str_in_In. Qed.

Lemma insert_sorted_In (x y : string) (l : list string) :
  In x (insert_sorted y l) <-> x = y \/ In x l.
Proof.
  induction l as [|z l IH]; simpl; [intuition congruence|].
  destruct (String.leb y z); simpl; [intuition congruence|].
  rewrite IH; intuition congruence.
Qed.

Lemma sorted_In (x : string) (l : list string) : In x (sorted l) <-> In x l.
Proof.
  induction l as [|y l IH]; simpl; [tauto|].
  unfold sorted in *; simpl; rewrite insert_sorted_In, IH; intuition congruence.
Qed.

Lemma installed_extensions_claimed (modules : dict module_entry) (e : string) :
  In e (Modules.installed_extensions modules) <-> claimed modules e.
Proof.
  unfold Modules.installed_extensions, claimed.
  rewrite frozenset_In, in_flat_map; split.
  - intros ([id entry] & Hin & He); simpl in He.
    destruct (entry_extensions entry) as [exts|] eqn:Hx; simpl in He; [|easy].
    now exists id, entry, exts.
  - intros (id & entry & exts & Hin & Hx & He).
    exists (id, entry); split; [exact Hin|]; simpl; now rewrite Hx.
Qed.

Lemma length_eqb_0_nil {A} (l : list A) :
  (length l =? 0)%nat = true <-> l = [].
Proof. destruct l; simpl; split; congruence. Qed.

Lemma nonempty_has_member {A} (l : list A) : l <> [] <-> exists x, In x l.
Proof.
  destruct l as [|x l]; split.
  - intros H; now contradiction H.
  - intros [x []].
  - intros _; exists x; now left.
  - intros _; discriminate.
Qed.

(** ** What the loader and the validator can raise *)

Lemma hash_from_file_raises (w : world) (p : string) (e : exn) :
  hash_from_file w p = Raise e ->
  e = FileNotFoundError p \/ e = IsADirectoryError p.
Proof.
  unfold hash_from_file; destruct (stat w p) as [[|c]|]; intros H;
    inversion H; auto.
Qed.

Lemma module_from_path_raises (w : world) (p name : string) (e : exn) :
  Modules.module_from_path w p name = Raise e ->
  e = FileNotFoundError p \/ e = IsADirectoryError p \/ e = ImportError p.
Proof.
  unfold Modules.module_from_path, path_exists, path_is_file.
  destruct (stat w p) as [[|c]|]; simpl; intros H; try (inversion H; auto; fail).
  destruct (exec c name p); inversion H; auto.
Qed.

Lemma getattr_raises (module : py_module) (name : py_value) (e : exn) :
  getattr module name = Raise e ->
  e = TypeError \/ exists n, e = AttributeError n.
Proof.
  destruct name; simpl; intros H; try (inversion H; auto; fail).
  destruct (dict_get s (mod_dict module)); inversion H; eauto.
Qed.

Lemma resolve_exports_raises (module : py_module) (names : list py_value)
    (acc : dict py_value) (e : exn) :
  resolve_exports module names acc = Raise e ->
  e = TypeError \/ exists n, e = AttributeError n.
Proof.
  revert acc; induction names as [|name names IH]; intros acc; simpl.
  - discriminate.
  - destruct (getattr module name) as [v|e'] eqn:Hg; simpl.
    + destruct name; try (intros H; inversion H; auto; fail).
      apply IH.
    + intros H; inversion H; subst. eapply getattr_raises; eauto.
Qed.

Lemma check_extensions_raises (file : string) (items : list py_value)
    (e : exn) :
  Modules.check_extensions file items = Raise e ->
  exists reason, e = InvalidModule file reason.
Proof.
  induction items as [|item items IH]; simpl; [discriminate|].
  destruct item; try (intros H; inversion H; eauto; fail).
  destruct (Modules._EXTENSION_REGEX_fullmatch s); simpl.
  - destruct (Modules.check_extensions file items); [discriminate|].
    intros H; inversion H; subst; now apply IH.
  - intros H; inversion H; eauto.
Qed.

Lemma next_other_export_raises (attributes : dict py_value) (e : exn) :
  Modules.next_other_export attributes = Raise e -> e = StopIteration.
Proof.
  induction attributes as [|[k v] rest IH]; simpl.
  - intros H; now inversion H.
  - destruct (String.eqb k "EXTENSIONS"); simpl; [exact IH | discriminate].
Qed.

(** The validator raises [InvalidModule] about the module's file, or lets a
    [TypeError] or a [StopIteration] escape. *)
Lemma extensions_and_parser_of_raises (module : py_module)
    (names : list py_value) (e : exn) :
  Modules.extensions_and_parser_of module names = Raise e ->
  (exists reason, e = InvalidModule (mod_file module) reason)
  \/ e = TypeError \/ e = StopIteration.
Proof.
  unfold Modules.extensions_and_parser_of.
  destruct (negb (length names =? 2)%nat); [intros H; inversion H; eauto|].
  destruct (resolve_exports module names []) as [attrs|e'] eqn:Hr; simpl.
  2:{ apply resolve_exports_raises in Hr as [-> | [n ->]]; simpl;
        intros H; inversion H; eauto. }
  destruct (dict_get "EXTENSIONS" attrs) as [extensions|];
    [|intros H; inversion H; eauto].
  destruct (iterate extensions) as [items|]; [|intros H; inversion H; eauto].
  destruct (Modules.check_extensions (mod_file module) items) as [exts|e']
    eqn:Hc; simpl.
  2:{ apply check_extensions_raises in Hc as [reason ->].
      intros H; inversion H; eauto. }
  destruct (Modules.next_other_export attrs) as [cls|e'] eqn:Hn; simpl.
  2:{ apply next_other_export_raises in Hn as ->.
      intros H; inversion H; eauto. }
  destruct cls; try (intros H; inversion H; eauto; fail).
  destruct (cls_is_parser c); intros H; inversion H; eauto.
Qed.

Lemma get_extensions_and_parser_cls_raises (module : py_module) (e : exn) :
  Modules.get_extensions_and_parser_cls module = Raise e ->
  (exists reason, e = InvalidModule (mod_file module) reason)
  \/ e = TypeError \/ e = StopIteration.
Proof.
  unfold Modules.get_extensions_and_parser_cls.
  destruct (dict_get "__all__" (mod_dict module)) as [[]|];
    try (intros H; inversion H; eauto; fail);
    apply extensions_and_parser_of_raises.
Qed.

(** ** The installer ([modules.install_module]) *)

(** C2.  [install_module] raises [ModuleAlreadyInstalled] exactly when the
    candidate's short hash is the key of an installed record, or the
    candidate's extension set meets the extensions the installed records
    claim; in the second case the message lists exactly the conflicting
    extensions; and whenever [install_module] raises, the store and the file
    system are what they were. *)
Theorem install_already_installed_iff_atomic :
  forall (w : world) (path : string),
    let outcome := Modules.install_module path w in
    ((exists msg, snd outcome = Raise (ModuleAlreadyInstalled msg))
     <-> exists file_hash,
           hash_from_file w path = Ok file_hash
           /\ (dict_mem file_hash (installed_records w) = true
               \/ exists extensions,
                    candidate_extensions w path = Some extensions
                    /\ exists e, In e extensions
                                 /\ claimed (installed_records w) e))
    /\ (forall file_hash extensions,
           hash_from_file w path = Ok file_hash ->
           dict_mem file_hash (installed_records w) = false ->
           candidate_extensions w path = Some extensions ->
           (exists e, In e extensions /\ claimed (installed_records w) e) ->
           exists overlapping,
             snd outcome
             = Raise (ModuleAlreadyInstalled
                        ("Extensions already installed: "
                           +:+ join ", " overlapping))
             /\ forall e, In e overlapping
                          <-> In e extensions
                              /\ claimed (installed_records w) e)
    /\ (forall e, snd outcome = Raise e -> fst outcome = w).
Proof.
  intros w path outcome; subst outcome.
  unfold Modules.install_module, candidate_extensions, installed_records,
    io_bind, get_config_modules, io_read, io_try, io_raise, io_lift.
  set (modules := default [] (config w)).
  destruct (hash_from_file w path) as [file_hash|e0] eqn:Hh; simpl.
  2:{ split; [split | split].
      - intros [msg H]; injection H as ->.
        apply hash_from_file_raises in Hh as [|]; discriminate.
      - intros (h & Hx & _); discriminate.
      - intros h exts Hx; discriminate.
      - reflexivity. }
  destruct (dict_mem file_hash modules) eqn:Hmem; simpl.
  { split; [split | split].
    - intros _; exists file_hash; split; [reflexivity | now left].
    - intros _; now exists path.
    - intros h exts Hx Hm; injection Hx as <-; congruence.
    - reflexivity. }
  destruct (Modules.module_from_path w path file_hash) as [module|e1] eqn:Hl;
    simpl.
  2:{ split; [split | split].
      - intros [msg H]; injection H as ->.
        apply module_from_path_raises in Hl as [|[|]]; discriminate.
      - intros (h & Hx & [Hm | (exts & Hx' & _)]); [|discriminate].
        injection Hx as <-; congruence.
      - intros h exts _ _ Hx; discriminate.
      - reflexivity. }
  destruct (Modules.get_extensions_and_parser_cls module) as [[exts cls]|e2]
    eqn:Hv; simpl.
  2:{ split; [split | split].
      - intros [msg H]; injection H as ->.
        apply get_extensions_and_parser_cls_raises in Hv as [[r Hr]|[|]];
          discriminate.
      - intros (h & Hx & [Hm | (exts & Hx' & _)]); [|discriminate].
        injection Hx as <-; congruence.
      - intros h exts _ _ Hx; discriminate.
      - reflexivity. }
  set (overlapping := set_inter exts (Modules.installed_extensions modules)).
  assert (Hov : forall e, In e overlapping <-> In e exts /\ claimed modules e).
  { intros e; unfold overlapping.
    now rewrite set_inter_In, installed_extensions_claimed. }
  destruct (length overlapping =? 0)%nat eqn:Hlen; simpl.
  - apply length_eqb_0_nil in Hlen.
    assert (Hnone : ~ exists e, In e exts /\ claimed modules e).
    { intros [e He]; apply Hov in He; rewrite Hlen in He; exact He. }
    unfold shutil_copy, write_json.
    assert (Hstat : exists c, stat w path = Some (File c)).
    { unfold hash_from_file in Hh.
      destruct (stat w path) as [[|c]|]; try discriminate; eauto. }
    destruct Hstat as [c ->]; cbv beta zeta iota.
    destruct (String.eqb path (copy_target w path _)); cbn [fst snd];
      (split; [split | split]).
    all: try (intros [msg Hm]; discriminate).
    all: try (intros (h & Hx & [Hm | (exts' & Hx' & He)]);
              [injection Hx as <-; congruence
              | injection Hx' as <-; contradiction]).
    all: try (intros h exts' _ _ Hx' He; injection Hx' as <-; contradiction).
    + reflexivity.
    + intros e He; discriminate.
  - assert (Hne : overlapping <> []).
    { intros Hnil; apply length_eqb_0_nil in Hnil; congruence. }
    split; [split | split].
    + intros _; exists file_hash; split; [reflexivity|]; right.
      exists exts; split; [reflexivity|].
      apply nonempty_has_member in Hne as [e He].
      exists e; now apply Hov.
    + intros _; eauto.
    + intros h exts' _ _ Hx' _; injection Hx' as <-.
      exists (sorted overlapping); split; [reflexivity|].
      intros e; now rewrite sorted_In.
    + reflexivity.
Qed.

Example install_same_bytes_twice :
  let w1 := fst (Modules.install_module "/src/lower_txt.py"
                   Samples.two_case_variants) in
  let again := Modules.install_module "/src/lower_txt.py" w1 in
  snd again = Raise (ModuleAlreadyInstalled "/src/lower_txt.py")
  /\ config (fst again) = config w1
  /\ map fst (installed_records w1) = ["11111111"].
Proof. vm_compute; repeat split. Qed.

Example install_overlapping_extension :
  let w1 := fst (Modules.install_module "/src/lower_txt.py"
                   Samples.with_overlapping_candidate) in
  let second := Modules.install_module "/src/notes.py" w1 in
  snd second
  = Raise (ModuleAlreadyInstalled "Extensions already installed: .txt")
  /\ config (fst second) = config w1
  /\ fs (fst second) !! Samples.stored_path "33333333" = None.
Proof. vm_compute; repeat split. Qed.

(** ** Uninstalling every record ([modules.uninstall_module "*"]) *)

Lemma remove_module_file_regular (entry : module_entry) (w : world) :
  let p := default "" (entry_path entry) in
  stat w p <> Some Dir ->
  exists w',
    Modules.remove_module_file entry w = (w', Ok tt)
    /\ config w' = config w
    /\ parsers_dir w' = parsers_dir w
    /\ fs w' = delete p (fs w).
Proof.
  intros p Hp; unfold Modules.remove_module_file; fold p.
  unfold io_bind, io_read, io_ret, io_raise, unlink, path_exists, path_is_file.
  cbv beta.
  destruct (stat w p) as [[|c]|] eqn:Hs; cbv beta iota; rewrite ?Hs;
    cbn [negb].
  - now contradiction Hp.
  - exists (without_file p w); repeat split.
  - exists w; repeat split.
    unfold stat in Hs; destruct (String.eqb p ""); [discriminate|].
    now rewrite delete_id.
Qed.

Lemma remove_module_file_directory (entry : module_entry) (w : world) :
  let p := default "" (entry_path entry) in
  stat w p = Some Dir ->
  Modules.remove_module_file entry w = (w, Raise (IsADirectoryError p)).
Proof.
  intros p Hp; unfold Modules.remove_module_file; fold p.
  unfold io_bind, io_read, io_raise, path_exists, path_is_file.
  cbv beta; rewrite Hp; cbv beta iota; now rewrite Hp.
Qed.

(** Deleting a regular file leaves every directory a directory and no
    other path a directory. *)
Lemma stat_after_delete (w w' : world) (p q : string) :
  fs w' = delete p (fs w) ->
  stat w p <> Some Dir ->
  (stat w q = Some Dir <-> stat w' q = Some Dir).
Proof.
  intros Hfs Hp; unfold stat in *; rewrite Hfs.
  destruct (String.eqb q "") eqn:Hq; [tauto|].
  destruct (string_dec p q) as [->|Hne].
  - rewrite Hq in Hp; rewrite lookup_delete_eq; split; [tauto | discriminate].
  - now rewrite lookup_delete_ne.
Qed.

Lemma io_for_app {A} (a b : list A) (body : A -> io unit) (w : world) :
  io_for (a ++ b) body w
  = match io_for a body w with
    | (w', Ok _) => io_for b body w'
    | (w', Raise e) => (w', Raise e)
    end.
Proof.
  revert w; induction a as [|x a IH]; intros w; [reflexivity|].
  cbn [app io_for]; unfold io_bind.
  destruct (body x w) as [w1 [[]|e]]; [apply IH | reflexivity].
Qed.

(** The loop of [uninstall_module("*")] over records none of whose stored
    paths is a directory: it completes, and exactly their files are gone. *)
Lemma remove_all_regular (records : dict module_entry) (w : world) :
  Forall (fun record => stat w (stored_file record) <> Some Dir) records ->
  exists w',
    io_for records (fun kv => Modules.remove_module_file (snd kv)) w
    = (w', Ok tt)
    /\ config w' = config w
    /\ parsers_dir w' = parsers_dir w
    /\ (forall q, fs w' !! q
                  = if decide (q ∈ map stored_file records) then None
                    else fs w !! q)
    /\ (forall q, stat w q = Some Dir <-> stat w' q = Some Dir).
Proof.
  revert w; induction records as [|record rest IH]; intros w Hall.
  - exists w; repeat split; auto.
  - inversion Hall as [|? ? Hhead Htail]; subst.
    destruct (remove_module_file_regular (snd record) w Hhead)
      as (w1 & Hrun & Hc1 & Hd1 & Hfs1).
    destruct (IH w1) as (w' & Hrest & Hc & Hd & Hfs & Hdir).
    { eapply Forall_impl; [exact Htail|]; intros r Hr; simpl in Hr.
      now rewrite <- (stat_after_delete w w1 _ _ Hfs1 Hhead). }
    exists w'; cbn [io_for]; unfold io_bind; rewrite Hrun, Hrest.
    split; [reflexivity|].
    split; [congruence|]; split; [congruence|]; split.
    + intros q; rewrite Hfs, Hfs1; cbn [map].
      fold (stored_file record).
      destruct (decide (q ∈ map stored_file rest)) as [Hin|Hin].
      * rewrite decide_True; [reflexivity | now right].
      * destruct (decide (q = stored_file record)) as [->|Hne].
        -- rewrite decide_True by left; apply lookup_delete_eq.
        -- rewrite decide_False, lookup_delete_ne; [reflexivity | congruence|].
           rewrite elem_of_cons; tauto.
    + intros q; rewrite <- Hdir.
      apply (stat_after_delete w w1 _ _ Hfs1 Hhead).
Qed.

(** X11.  When no stored path is a directory, [uninstall_module("*")]
    returns, deletes every record's file (a file that is missing already is
    passed over), touches no other path and leaves an empty store. *)
Lemma uninstall_all_clears (w : world) :
  Forall (fun record => stat w (stored_file record) <> Some Dir)
    (installed_records w) ->
  exists w',
    Modules.uninstall_module "*" w = (w', Ok tt)
    /\ config w' = Some []
    /\ forall q, fs w' !! q
                 = if decide (q ∈ map stored_file (installed_records w))
                   then None else fs w !! q.
Proof.
  intros Hall.
  destruct (remove_all_regular _ w Hall) as (w1 & Hrun & Hc & Hd & Hfs & _).
  unfold Modules.uninstall_module, io_bind, get_config_modules, io_read.
  cbn [String.eqb Ascii.eqb Bool.eqb].
  fold (installed_records w); rewrite Hrun.
  exists (World (fs w1) (Some []) (parsers_dir w1)); repeat split.
  exact Hfs.
Qed.

Lemma uninstall_all_clears_witness :
  Forall (fun record =>
            stat Samples.two_records_regular (stored_file record) <> Some Dir)
    (installed_records Samples.two_records_regular)
  /\ exists w',
       Modules.uninstall_module "*" Samples.two_records_regular = (w', Ok tt)
       /\ config w' = Some []
       /\ forall q,
            fs w' !! q
            = if decide (q ∈ map stored_file
                               (installed_records Samples.two_records_regular))
              then None else fs Samples.two_records_regular !! q.
Proof.
  assert (H : Forall (fun record =>
                        stat Samples.two_records_regular (stored_file record)
                        <> Some Dir)
                (installed_records Samples.two_records_regular))
    by (repeat constructor; vm_compute; discriminate).
  split; [exact H | exact (uninstall_all_clears _ H)].
Defined.

(** X12.  When a stored path is a directory, [uninstall_module("*")] stops
    at the first such record with [IsADirectoryError]: the files of the
    records before it are gone, no other file is touched, and the store
    keeps every record. *)
Lemma uninstall_all_stops_at_first_directory (w : world)
    (before after : dict module_entry) (record : string * module_entry) :
  installed_records w = before ++ record :: after ->
  Forall (fun r => stat w (stored_file r) <> Some Dir) before ->
  stat w (stored_file record) = Some Dir ->
  exists w',
    Modules.uninstall_module "*" w
    = (w', Raise (IsADirectoryError (stored_file record)))
    /\ config w' = config w
    /\ forall q, fs w' !! q
                 = if decide (q ∈ map stored_file before) then None
                   else fs w !! q.
Proof.
  intros Hrecords Hbefore Hdir.
  destruct (remove_all_regular _ w Hbefore) as (w1 & Hrun & Hc & Hd & Hfs & Hd1).
  unfold Modules.uninstall_module, io_bind, get_config_modules, io_read.
  cbn [String.eqb Ascii.eqb Bool.eqb].
  fold (installed_records w); rewrite Hrecords, io_for_app, Hrun.
  cbn [io_for]; unfold io_bind.
  rewrite (remove_module_file_directory (snd record) w1)
    by (now apply Hd1).
  exists w1; repeat split; assumption.
Qed.

Lemma uninstall_all_stops_at_first_directory_witness :
  let w := Samples.three_records_middle_directory in
  let before := [Samples.record "a1b2c3d4" [".foo"] "foo.py"] in
  let record := Samples.record "bbbbbbbb" [".dir"] "dir.py" in
  let after := [Samples.record "cccccccc" [".bar"] "bar.py"] in
  installed_records w = before ++ record :: after
  /\ Forall (fun r => stat w (stored_file r) <> Some Dir) before
  /\ stat w (stored_file record) = Some Dir
  /\ exists w',
       Modules.uninstall_module "*" w
       = (w', Raise (IsADirectoryError (stored_file record)))
       /\ config w' = config w
       /\ forall q, fs w' !! q
                    = if decide (q ∈ map stored_file before) then None
                      else fs w !! q.
Proof.
  intros w before record after.
  assert (H1 : installed_records w = before ++ record :: after)
    by reflexivity.
  assert (H2 : Forall (fun r => stat w (stored_file r) <> Some Dir) before)
    by (repeat constructor; vm_compute; discriminate).
  assert (H3 : stat w (stored_file record) = Some Dir)
    by (vm_compute; reflexivity).
  split; [exact H1|]; split; [exact H2|]; split; [exact H3|].
  exact (uninstall_all_stops_at_first_directory w before after record
           H1 H2 H3).
Defined.

(** C3.  With three records whose second stored path is a directory,
    [uninstall_module("*")] deletes the first record's file, raises
    [IsADirectoryError] at the second, never reaches the third record's file,
    and leaves all three records in the persisted store; the registry can
    then no longer be built, the first record's file being gone. *)
Theorem uninstall_all_stops_at_directory :
  let w := Samples.three_records_middle_directory in
  let outcome := Modules.uninstall_module "*" w in
  snd outcome = Raise (IsADirectoryError (Samples.stored_path "bbbbbbbb"))
  /\ fs (fst outcome) !! Samples.stored_path "a1b2c3d4" = None
  /\ fs (fst outcome) !! Samples.stored_path "cccccccc"
     = fs w !! Samples.stored_path "cccccccc"
  /\ is_Some (fs w !! Samples.stored_path "cccccccc")
  /\ config (fst outcome) = config w
  /\ length (installed_records (fst outcome)) = 3
  /\ Modules.load_parsers (fst outcome)
     = Raise (FileNotFoundError (Samples.stored_path "a1b2c3d4")).
Proof.
  vm_compute. repeat split; eauto.
Qed.

(** ** The two resolution paths *)

(** C9.  On every registry that holds at least one binding,
    [v2.get_parser] raises [TypeError] for every file name: its loop unpacks
    the registry's values, which are classes; [modules.get_parser] answers
    the bound parser on the same registry. *)
Theorem v2_get_parser_raises_where_modules_resolves :
  (forall extension parser rest filename,
      V2Parsers.get_parser ((extension, parser) :: rest) filename
      = Raise TypeError)
  /\ Modules.get_parser [(".foo", Samples.FooParser)] "report.foo"
     = Samples.FooParser
  /\ V2Parsers.get_parser [(".foo", Samples.FooParser)] "report.foo"
     = Raise TypeError.
Proof. repeat split. Qed.

(** On the empty registry the two paths agree. *)
Lemma get_parser_paths_agree_on_empty (filename : string) :
  V2Parsers.get_parser [] filename = Ok (Modules.get_parser [] filename).
Proof. reflexivity. Qed.

(** ** Plugin validation *)

(** C6.  A module whose [__all__] lists ["EXTENSIONS"] twice is no plugin,
    yet [get_extensions_and_parser_cls] does not reject it with
    [InvalidModule]: [StopIteration] escapes from the search for the other
    export; [validate_module] rejects the same module.  A module whose
    [__all__] holds a non-string makes both raise [TypeError]. *)
Theorem get_extensions_and_parser_cls_lets_other_errors_escape :
  Modules.get_extensions_and_parser_cls Samples.extensions_listed_twice
  = Raise StopIteration
  /\ V2Parsers.validate_module Samples.extensions_listed_twice = Ok false
  /\ Modules.get_extensions_and_parser_cls Samples.all_with_number
     = Raise TypeError
  /\ V2Parsers.validate_module Samples.all_with_number = Raise TypeError.
Proof. repeat split. Qed.

(** ** The default reader *)

Lemma contains_nul_In (chunk : DefaultReader.bytes) :
  DefaultReader.contains_nul chunk = true <-> In Byte.x00 chunk.
Proof.
  unfold DefaultReader.contains_nul; rewrite existsb_exists; split.
  - intros (b & Hin & Hb); apply Byte.byte_dec_bl in Hb; now subst.
  - intros H; exists Byte.x00; split; [exact H | reflexivity].
Qed.

Lemma validate_rejects_binary (rt : DefaultReader.runtime)
    (chunk : DefaultReader.bytes) :
  DefaultReader.looks_binary chunk = true ->
  DefaultReader.validate rt chunk = Ok false.
Proof.
  intros Hb; unfold DefaultReader.validate; cbv zeta.
  match goal with |- (if ?c then _ else _) = _ => destruct c end;
    [reflexivity | now rewrite Hb].
Qed.

(** C7.  A chunk that contains a NUL byte is rejected by [validate],
    whatever the MIME probe and the encoding detector answer. *)
Theorem validate_rejects_nul :
  forall (rt : DefaultReader.runtime) (chunk : DefaultReader.bytes),
    In Byte.x00 chunk -> DefaultReader.validate rt chunk = Ok false.
Proof.
  intros rt chunk Hnul; apply validate_rejects_binary.
  unfold DefaultReader.looks_binary.
  now apply contains_nul_In in Hnul as ->.
Qed.

Lemma validate_rejects_nul_witness :
  In Byte.x00 Samples.chunk_with_nul
  /\ DefaultReader.validate
       (Samples.runtime_answering (Some "ascii") (Some "text/plain"))
       Samples.chunk_with_nul
     = Ok false.
Proof.
  split; [simpl; tauto | apply validate_rejects_nul; simpl; tauto].
Defined.

Lemma non_printable_byte_spec (byte : Byte.byte) :
  DefaultReader.non_printable_byte byte = bool_decide (in_control_ranges byte).
Proof.
  unfold DefaultReader.non_printable_byte, in_control_ranges.
  destruct (bool_decide_reflect
              ((Byte.to_N byte < 9)%N \/ (13 < Byte.to_N byte < 32)%N))
    as [H|H].
  - rewrite orb_true_iff, andb_true_iff, !N.ltb_lt; tauto.
  - apply not_true_is_false; intros Ht; apply H.
    rewrite orb_true_iff, andb_true_iff, !N.ltb_lt in Ht; tauto.
Qed.

Lemma non_printable_control_bytes (chunk : DefaultReader.bytes) :
  DefaultReader.non_printable chunk = control_bytes chunk.
Proof.
  unfold DefaultReader.non_printable, control_bytes; f_equal.
  apply filter_ext; intros b; apply non_printable_byte_spec.
Qed.

(** The ratio test of [looks_binary], without the division. *)
Lemma looks_binary_ratio (chunk : DefaultReader.bytes) :
  DefaultReader.contains_nul chunk = false ->
  DefaultReader.looks_binary chunk
  = (30 * Nat.max (length chunk) 1 <? 100 * DefaultReader.non_printable chunk)%nat.
Proof.
  intros Hnul; unfold DefaultReader.looks_binary; rewrite Hnul.
  set (n := DefaultReader.non_printable chunk).
  set (d := Nat.max (length chunk) 1).
  assert (Hd : Z.pos (Pos.of_nat d) = Z.of_nat d).
  { rewrite <- positive_nat_Z, Nat2Pos.id; [reflexivity | unfold d; lia]. }
  destruct (30 * d <? 100 * n)%nat eqn:Hc.
  - apply Nat.ltb_lt in Hc; apply negb_true_iff, not_true_is_false.
    rewrite QArith_base.Qle_bool_iff; unfold QArith_base.Qle; simpl.
    rewrite Hd; lia.
  - apply Nat.ltb_ge in Hc; apply negb_false_iff.
    rewrite QArith_base.Qle_bool_iff; unfold QArith_base.Qle; simpl.
    rewrite Hd; lia.
Qed.

Lemma looks_binary_above_30_percent (chunk : DefaultReader.bytes) :
  control_share_above_30_percent chunk ->
  DefaultReader.looks_binary chunk = true.
Proof.
  unfold control_share_above_30_percent; rewrite <- non_printable_control_bytes.
  intros Hshare.
  destruct (DefaultReader.contains_nul chunk) eqn:Hnul.
  - unfold DefaultReader.looks_binary; now rewrite Hnul.
  - rewrite looks_binary_ratio by exact Hnul; apply Nat.ltb_lt.
    destruct chunk; simpl in *; lia.
Qed.

(** C8.  A non-empty chunk in which strictly more than 30% of the bytes lie
    in the control ranges [0,9) and (13,32) is rejected by [validate],
    whatever the MIME probe answers; so is, in particular, a 500-byte chunk
    with 200 bytes between 1 and 8. *)
Theorem validate_rejects_control_heavy :
  forall (rt : DefaultReader.runtime) (chunk : DefaultReader.bytes),
    chunk <> [] ->
    control_share_above_30_percent chunk ->
    DefaultReader.validate rt chunk = Ok false.
Proof.
  intros rt chunk _ Hshare.
  now apply validate_rejects_binary, looks_binary_above_30_percent.
Qed.

Lemma validate_rejects_control_heavy_witness :
  length Samples.chunk_500_with_200_control = 500
  /\ control_bytes Samples.chunk_500_with_200_control = 200
  /\ DefaultReader.contains_nul Samples.chunk_500_with_200_control = false
  /\ DefaultReader.validate (Samples.runtime_answering (Some "ascii") None)
       Samples.chunk_500_with_200_control
     = Ok false.
Proof.
  split; [reflexivity|]; split; [reflexivity|]; split; [reflexivity|].
  apply validate_rejects_control_heavy.
  - discriminate.
  - unfold control_share_above_30_percent.
    change (control_bytes Samples.chunk_500_with_200_control) with 200.
    change (length Samples.chunk_500_with_200_control) with 500.
    lia.
Defined.

(** What [get_content] returns when Python has a codec for the detected
    charset: the strict decoding, or the lossy UTF-8 one when that fails. *)
Lemma get_content_known_codec (rt : DefaultReader.runtime)
    (file_bytes : DefaultReader.bytes)
    (decoder : DefaultReader.bytes -> option DefaultReader.text) :
  DefaultReader.codec rt
    (fst (DefaultReader.guess_encoding rt (take 1024 file_bytes)))
  = Some decoder ->
  DefaultReader.get_content rt file_bytes
  = Ok (default (DefaultReader.decode_utf8_replace file_bytes)
          (decoder file_bytes)).
Proof.
  intros Hc; unfold DefaultReader.get_content, DefaultReader.bytes_decode.
  rewrite Hc; now destruct (decoder file_bytes).
Qed.

(** What it does when Python has none: the [LookupError] of
    [bytes.decode] is not a [UnicodeDecodeError] and escapes. *)
Lemma get_content_unknown_codec (rt : DefaultReader.runtime)
    (file_bytes : DefaultReader.bytes) :
  let encoding :=
    fst (DefaultReader.guess_encoding rt (take 1024 file_bytes)) in
  DefaultReader.codec rt encoding = None ->
  DefaultReader.get_content rt file_bytes = Raise (LookupError encoding).
Proof.
  intros encoding Hc.
  unfold DefaultReader.get_content, DefaultReader.bytes_decode.
  fold encoding; now rewrite Hc.
Qed.

(** C4.  When the detector reports a charset Python has no codec for
    (["EUC-TW"]), [get_content] raises [LookupError] on every byte
    sequence, the empty one and ASCII text included. *)
Theorem get_content_raises_lookup_error :
  forall file_bytes : DefaultReader.bytes,
    DefaultReader.get_content Samples.detects_euc_tw file_bytes
    = Raise (LookupError "EUC-TW").
Proof. intros file_bytes; now apply get_content_unknown_codec. Qed.

Example get_content_decodes_utf_8 :
  DefaultReader.get_content (Samples.runtime_answering (Some "utf-8") None)
    [Byte.x63; Byte.x61; Byte.x66; Byte.xc3; Byte.xa9]
  = Ok [99; 97; 102; 233]%N.
Proof. reflexivity. Qed.

Example get_content_falls_back_to_lossy_utf_8 :
  DefaultReader.get_content (Samples.runtime_answering (Some "ascii") None)
    [Byte.x68; Byte.xff; Byte.x69; Byte.xe2; Byte.x82]
  = Ok [104; 65533; 105; 65533]%N.
Proof. reflexivity. Qed.

(** ** The ratio test in binary64 *)

Lemma range_from_In (n : nat) (start z : Z) :
  In z (DefaultReader.range_from start n)
  <-> (start <= z < start + Z.of_nat n)%Z.
Proof.
  revert start; induction n as [|n IH]; intros start.
  - simpl; lia.
  - change (DefaultReader.range_from start (S n))
      with (start :: DefaultReader.range_from (start + 1) n).
    simpl In; rewrite IH; lia.
Qed.

Lemma ratio_tests_agree_sound (n : nat) (count size : Z) :
  DefaultReader.ratio_tests_agree_up_to n = true ->
  (0 <= count <= size)%Z -> (size <= Z.of_nat n)%Z ->
  DefaultReader.exceeds_ratio_float count size
  = DefaultReader.exceeds_ratio_exact count size.
Proof.
  unfold DefaultReader.ratio_tests_agree_up_to; intros H Hc Hs.
  rewrite forallb_forall in H.
  specialize (H size); rewrite forallb_forall in H.
  apply Bool.eqb_prop, H.
  - apply range_from_In; lia.
  - apply range_from_In; rewrite Nat2Z.inj_succ, Z2Nat.id; lia.
Qed.

Lemma ratio_tests_agree_up_to_1024 :
  DefaultReader.ratio_tests_agree_up_to 1024 = true.
Proof. vm_cast_no_check (eq_refl true). Qed.

(** For chunks of at most 1024 bytes, the default sample size, the binary64
    comparison decides exactly what the rational one decides. *)
Lemma exceeds_ratio_float_exact (count size : Z) :
  (0 <= count <= size)%Z -> (size <= 1024)%Z ->
  DefaultReader.exceeds_ratio_float count size
  = DefaultReader.exceeds_ratio_exact count size.
Proof.
  intros Hc Hs.
  apply (ratio_tests_agree_sound 1024);
    [exact ratio_tests_agree_up_to_1024 | exact Hc |].
  replace (Z.of_nat 1024) with 1024%Z by reflexivity.
  exact Hs.
Qed.

(** X21.  On a chunk of at most 1024 bytes, the test as Python computes it
    (the quotient of two integers rounded to binary64, compared with the
    binary64 nearest to 0.30) answers as the exact test on the rational
    share does. *)
Lemma looks_binary_float_agrees (chunk : DefaultReader.bytes) :
  length chunk <= 1024 ->
  DefaultReader.looks_binary_float chunk = DefaultReader.looks_binary chunk.
Proof.
  intros Hlen; unfold DefaultReader.looks_binary_float.
  destruct (DefaultReader.contains_nul chunk) eqn:Hnul.
  - unfold DefaultReader.looks_binary; now rewrite Hnul.
  - rewrite looks_binary_ratio by exact Hnul.
    assert (Hn : DefaultReader.non_printable chunk <= length chunk)
      by apply List.filter_length_le.
    rewrite exceeds_ratio_float_exact by lia.
    unfold DefaultReader.exceeds_ratio_exact.
    destruct (30 * Nat.max (length chunk) 1
              <? 100 * DefaultReader.non_printable chunk)%nat eqn:Hc.
    + apply Nat.ltb_lt in Hc; apply Z.ltb_lt; lia.
    + apply Nat.ltb_ge in Hc; apply Z.ltb_ge; lia.
Qed.

Lemma looks_binary_float_agrees_witness :
  length Samples.chunk_500_with_200_control <= 1024
  /\ DefaultReader.looks_binary_float Samples.chunk_500_with_200_control
     = DefaultReader.looks_binary Samples.chunk_500_with_200_control.
Proof.
  assert (H : length Samples.chunk_500_with_200_control <= 1024)
    by (apply Nat.leb_le; vm_compute; reflexivity).
  split; [exact H | exact (looks_binary_float_agrees _ H)].
Defined.

(** ** Extensions that differ in letter case only *)

Lemma ci_suffix_lower (e1 e2 filename : string) :
  lower e1 = lower e2 -> ci_suffix e1 filename <-> ci_suffix e2 filename.
Proof.
  intros He; unfold ci_suffix; split; intros (stem & tail & Hf & Ht);
    exists stem, tail; split; congruence.
Qed.

(** C10.  The plugins declaring [{".txt"}] and [{".TXT"}] have extension
    sets that share no string and are equal once lowered; [install_module]
    accepts the one after the other, [load_parsers] builds a registry with
    both bindings and no conflict error, and both extensions match exactly
    the same file names at resolution: over that registry [get_parser]
    answers the first plugin's parser for every file name that ends in
    [".TXT"] (or [".txt"], in any letter case), [DefaultParser] for every
    other name, and never the second plugin's parser. *)
Theorem case_variants_install_and_collide_at_resolution :
  let w0 := Samples.two_case_variants in
  let first := Modules.install_module "/src/lower_txt.py" w0 in
  let second := Modules.install_module "/src/upper_txt.py" (fst first) in
  let registry :=
    [(".txt", Samples.LowerTxtParser); (".TXT", Samples.UpperTxtParser)] in
  candidate_extensions w0 "/src/lower_txt.py" = Some [".txt"]
  /\ candidate_extensions w0 "/src/upper_txt.py" = Some [".TXT"]
  /\ set_inter [".TXT"] [".txt"] = []
  /\ lower ".TXT" = lower ".txt"
  /\ snd first = Ok tt
  /\ snd second = Ok tt
  /\ map fst (installed_records (fst second)) = ["11111111"; "22222222"]
  /\ Modules.load_parsers (fst second) = Ok registry
  /\ (forall filename,
         ci_suffix ".txt" filename <-> ci_suffix ".TXT" filename)
  /\ (forall filename,
         ci_suffix ".TXT" filename ->
         Modules.get_parser registry filename = Samples.LowerTxtParser)
  /\ (forall filename,
         ~ ci_suffix ".TXT" filename ->
         Modules.get_parser registry filename = Modules.DefaultParser)
  /\ Modules.get_parser registry "README.TXT" = Samples.LowerTxtParser
  /\ Modules.get_parser registry "notes.txt" = Samples.LowerTxtParser
  /\ (forall filename,
         Modules.get_parser registry filename <> Samples.UpperTxtParser).
Proof.
  cbv zeta.
  repeat match goal with |- _ /\ _ => split end;
    try (vm_compute; reflexivity).
  - intros filename; now apply ci_suffix_lower.
  - intros filename Hm; apply endswith_lower_ci_suffix in Hm.
    cbn [Modules.get_parser].
    change (lower ".txt") with (lower ".TXT"); now rewrite Hm.
  - intros filename Hm; cbn [Modules.get_parser].
    change (lower ".txt") with (lower ".TXT").
    destruct (endswith (lower filename) (lower ".TXT")) eqn:He;
      [|reflexivity].
    apply endswith_lower_ci_suffix in He; contradiction.
  - intros filename; cbn [Modules.get_parser].
    change (lower ".TXT") with (lower ".txt").
    destruct (endswith (lower filename) (lower ".txt")); discriminate.
Qed.

(** ** Dictionaries *)

Section Dict.

Context {V : Type}.
Implicit Types (d : dict V) (k : string) (v : V).

Lemma dict_get_None d k : dict_get k d = None <-> ~ In k (map fst d).
Proof.
  induction d as [|[k' v'] d IH]; simpl; [tauto|].
  destruct (String.eqb_spec k' k) as [->|Hne].
  - split; [discriminate | intros H; exfalso; apply H; now left].
  - rewrite IH; tauto.
Qed.

Lemma dict_get_Some_In d k v : dict_get k d = Some v -> In k (map fst d).
Proof.
  intros H; destruct (in_dec string_dec k (map fst d)) as [|Hn]; [assumption|].
  apply dict_get_None in Hn; congruence.
Qed.

Lemma dict_get_app d d' k :
  dict_get k (d ++ d')
  = match dict_get k d with Some v => Some v | None => dict_get k d' end.
Proof.
  induction d as [|[k' v'] d IH]; simpl; [reflexivity|].
  now destruct (String.eqb k' k).
Qed.

Lemma dict_set_fresh d k v :
  dict_get k d = None -> dict_set k v d = d ++ [(k, v)].
Proof.
  induction d as [|[k' v'] d IH]; simpl; [reflexivity|].
  destruct (String.eqb k' k); [discriminate|].
  intros H; now rewrite IH.
Qed.

End Dict.

(** ** Binding offers in order *)

Lemma bind_in_order_app (a b : list (string * py_class))
    (parsers : dict py_class) :
  bind_in_order (a ++ b) parsers
  = match bind_in_order a parsers with
    | inl parsers' => bind_in_order b parsers'
    | inr conflict => inr conflict
    end.
Proof.
  revert parsers; induction a as [|[e c] a IH]; intros parsers; simpl;
    [reflexivity|].
  destruct (dict_get e parsers); [reflexivity | apply IH].
Qed.

(** Offers with pairwise distinct, unbound extensions all get bound, in
    order. *)
Lemma bind_in_order_distinct (offers : list (string * py_class))
    (parsers : dict py_class) :
  NoDup (map fst (parsers ++ offers)) ->
  bind_in_order offers parsers = inl (parsers ++ offers).
Proof.
  revert parsers; induction offers as [|[e c] offers IH]; intros parsers Hnd;
    simpl.
  - now rewrite app_nil_r.
  - assert (Hfresh : dict_get e parsers = None).
    { apply dict_get_None; intros Hin.
      rewrite map_app in Hnd; simpl in Hnd.
      apply NoDup_app in Hnd as (_ & Hdisjoint & _).
      apply (Hdisjoint e); [now apply list_elem_of_In | left]. }
    rewrite Hfresh, IH, <- app_assoc; [reflexivity|].
    now rewrite <- app_assoc.
Qed.

(** The first offer whose extension is bound already is the conflict. *)
Lemma bind_in_order_first_conflict
    (before after : list (string * py_class)) (parsers : dict py_class)
    (extension : string) (owner candidate : py_class) :
  NoDup (map fst (parsers ++ before)) ->
  dict_get extension (parsers ++ before) = Some owner ->
  bind_in_order (before ++ (extension, candidate) :: after) parsers
  = inr (extension, owner, candidate).
Proof.
  intros Hnd Hget.
  rewrite bind_in_order_app, bind_in_order_distinct by exact Hnd.
  simpl; now rewrite Hget.
Qed.

(** Without a conflict, what gets bound is what was offered. *)
Lemma bind_in_order_inl (offers : list (string * py_class))
    (parsers parsers' : dict py_class) :
  bind_in_order offers parsers = inl parsers' -> parsers' = parsers ++ offers.
Proof.
  revert parsers; induction offers as [|[e c] offers IH]; intros parsers;
    simpl.
  - intros H; injection H as <-; now rewrite app_nil_r.
  - destruct (dict_get e parsers); [discriminate|].
    intros H; apply IH in H; now rewrite <- app_assoc in H.
Qed.

(** ** The extension regex *)

Lemma extension_char_spec (c : ascii) :
  Modules.extension_char c = bool_decide (extension_class_char c).
Proof.
  destruct c as [[] [] [] [] [] [] [] []]; vm_compute; reflexivity.
Qed.

Lemma all_extension_chars_spec (s : string) :
  Modules.all_extension_chars s = true
  <-> Forall extension_class_char (list_ascii_of_string s).
Proof.
  induction s as [|c s IH]; simpl.
  - split; [constructor | reflexivity].
  - rewrite andb_true_iff, IH, extension_char_spec, bool_decide_eq_true.
    split; [intros [? ?]; now constructor | intros H; now inversion H].
Qed.

Lemma modules_fullmatch_spec (s : string) :
  Modules._EXTENSION_REGEX_fullmatch s = true <-> matches_extension_regex s.
Proof.
  unfold Modules._EXTENSION_REGEX_fullmatch, matches_extension_regex.
  destruct s as [|d body]; [split; [discriminate | intros (? & ? & _); discriminate]|].
  destruct (Ascii.eqb_spec d "."%char) as [->|Hd].
  - destruct body as [|c rest].
    + split; [discriminate|].
      intros (body & Hs & Hne & _); injection Hs as <-; congruence.
    + rewrite all_extension_chars_spec; split.
      * intros H; exists (String c rest); repeat split; [discriminate | exact H].
      * intros (body & Hs & _ & H); injection Hs as <-; exact H.
  - split.
    + destruct d as [[] [] [] [] [] [] [] []]; try discriminate.
      now contradiction Hd.
    + intros (body' & Hs & _); injection Hs as -> _; now contradiction Hd.
Qed.

Lemma v2_fullmatch_spec (s : string) :
  V2Parsers._EXTENSION_REGEX_fullmatch s = true <-> matches_extension_regex s.
Proof. apply modules_fullmatch_spec. Qed.

(** ** The shape of an accepted plugin *)

Lemma length_two {A} (l : list A) : length l = 2 -> exists x y, l = [x; y].
Proof.
  destruct l as [|x [|y [|z l]]]; simpl; try discriminate; eauto.
Qed.

Lemma resolve_exports_cons (module : py_module) (name : py_value)
    (rest : list py_value) (acc : dict py_value) :
  resolve_exports module (name :: rest) acc
  = match name with
    | PyStr n =>
        match dict_get n (mod_dict module) with
        | Some v => resolve_exports module rest (dict_set n v acc)
        | None => Raise (AttributeError n)
        end
    | _ => Raise TypeError
    end.
Proof.
  destruct name; try reflexivity.
  simpl; now destruct (dict_get s (mod_dict module)).
Qed.

Lemma resolve_exports_two (module : py_module) (n1 n2 : py_value)
    (exported : dict py_value) :
  resolve_exports module [n1; n2] [] = Ok exported
  <-> exists a b va vb,
        n1 = PyStr a /\ n2 = PyStr b
        /\ dict_get a (mod_dict module) = Some va
        /\ dict_get b (mod_dict module) = Some vb
        /\ exported = dict_set b vb [(a, va)].
Proof.
  rewrite resolve_exports_cons; split.
  - destruct n1 as [| |a| | | | | |]; try discriminate.
    destruct (dict_get a (mod_dict module)) as [va|] eqn:Ha; [|discriminate].
    rewrite resolve_exports_cons.
    destruct n2 as [| |b| | | | | |]; try discriminate.
    destruct (dict_get b (mod_dict module)) as [vb|] eqn:Hb; [|discriminate].
    intros H; injection H as <-.
    now exists a, b, va, vb.
  - intros (a & b & va & vb & -> & -> & Ha & Hb & ->).
    now rewrite Ha, resolve_exports_cons, Hb.
Qed.

(** The two exports, once [EXTENSIONS] is found among them and one other
    value remains: which is which. *)
Lemma exports_other_items (a b : string) (va vb v extensions : py_value) :
  dict_get "EXTENSIONS" (dict_set b vb [(a, va)]) = Some extensions ->
  V2Parsers.other_items (dict_set b vb [(a, va)]) = [v] ->
  (a = "EXTENSIONS" /\ b <> "EXTENSIONS" /\ extensions = va /\ v = vb)
  \/ (b = "EXTENSIONS" /\ a <> "EXTENSIONS" /\ extensions = vb /\ v = va).
Proof.
  unfold V2Parsers.other_items; cbn [dict_set].
  destruct (String.eqb_spec a b) as [<-|Hab]; cbn [dict_get List.filter fst snd].
  - destruct (String.eqb_spec a "EXTENSIONS"); simpl; discriminate.
  - destruct (String.eqb_spec a "EXTENSIONS") as [->|Ha];
      destruct (String.eqb_spec b "EXTENSIONS") as [->|Hb]; simpl;
      try congruence; intros H1 H2; injection H1 as <-; injection H2 as <-;
      auto.
Qed.

Lemma exports_next_other (a b : string) (va vb v extensions : py_value) :
  dict_get "EXTENSIONS" (dict_set b vb [(a, va)]) = Some extensions ->
  Modules.next_other_export (dict_set b vb [(a, va)]) = Ok v ->
  (a = "EXTENSIONS" /\ b <> "EXTENSIONS" /\ extensions = va /\ v = vb)
  \/ (b = "EXTENSIONS" /\ a <> "EXTENSIONS" /\ extensions = vb /\ v = va).
Proof.
  cbn [dict_set].
  destruct (String.eqb_spec a b) as [<-|Hab];
    cbn [dict_get Modules.next_other_export].
  - destruct (String.eqb_spec a "EXTENSIONS"); simpl; discriminate.
  - destruct (String.eqb_spec a "EXTENSIONS") as [->|Ha];
      destruct (String.eqb_spec b "EXTENSIONS") as [->|Hb]; simpl;
      try congruence; intros H1 H2; injection H1 as <-; injection H2 as <-;
      auto.
Qed.

Lemma extensions_valid_spec (items : list py_value) :
  V2Parsers.extensions_valid items = true
  <-> Forall (fun item => exists s, item = PyStr s
                                    /\ matches_extension_regex s) items.
Proof.
  induction items as [|item items IH]; simpl.
  - split; [constructor | reflexivity].
  - destruct item as [| |s| | | | | |];
      try (split; [discriminate
                  | intros H; inversion H as [|? ? (s & Hs & _)]; discriminate]).
    destruct (V2Parsers._EXTENSION_REGEX_fullmatch s) eqn:Hm; simpl.
    + rewrite IH; split.
      * intros H; constructor; [|exact H].
        exists s; split; [reflexivity | now apply v2_fullmatch_spec].
      * intros H; now inversion H.
    + split; [discriminate|].
      intros H; inversion H as [|? ? (s' & Hs & Hr)]; injection Hs as <-.
      apply v2_fullmatch_spec in Hr; congruence.
Qed.

Lemma check_extensions_spec (file : string) (items : list py_value)
    (exts : list string) :
  Modules.check_extensions file items = Ok exts
  <-> Forall (fun item => exists s, item = PyStr s
                                    /\ matches_extension_regex s) items
      /\ exts = strings_of items.
Proof.
  revert exts; induction items as [|item items IH]; intros exts; simpl.
  - split; [intros H; injection H as <-; split; [constructor | reflexivity]
           | intros [_ ->]; reflexivity].
  - destruct item as [| |s| | | | | |];
      try (split; [discriminate
                  | intros [H _]; inversion H as [|? ? (s & Hs & _)];
                    discriminate]).
    destruct (Modules._EXTENSION_REGEX_fullmatch s) eqn:Hm; simpl.
    + destruct (Modules.check_extensions file items) as [l|e].
      * split.
        -- intros H; injection H as <-.
           destruct (proj1 (IH l) eq_refl) as [Hall ->].
           split; [|reflexivity].
           constructor; [|exact Hall].
           exists s; split; [reflexivity | now apply modules_fullmatch_spec].
        -- intros [Hall ->]; inversion Hall as [|? ? _ Hrest]; subst.
           f_equal; f_equal; symmetry.
           assert (Hl : Ok l = Ok (strings_of items))
             by (apply IH; now split).
           now injection Hl.
      * split; [discriminate|].
        intros [Hall ->]; inversion Hall as [|? ? _ Hrest]; subst.
        assert (Hl : @Raise (list string) e = Ok (strings_of items))
          by (apply IH; now split).
        discriminate.
    + split; [discriminate|].
      intros [H _]; inversion H as [|? ? (s' & Hs & Hr)]; injection Hs as <-.
      apply modules_fullmatch_spec in Hr; congruence.
Qed.

Lemma exports_in_either_order (module : py_module) (names : list py_value)
    (other : string) (extensions vo : py_value) :
  names = [PyStr "EXTENSIONS"; PyStr other]
  \/ names = [PyStr other; PyStr "EXTENSIONS"] ->
  other <> "EXTENSIONS" ->
  dict_get "EXTENSIONS" (mod_dict module) = Some extensions ->
  dict_get other (mod_dict module) = Some vo ->
  exists exported,
    resolve_exports module names [] = Ok exported
    /\ dict_get "EXTENSIONS" exported = Some extensions
    /\ V2Parsers.other_items exported = [vo]
    /\ Modules.next_other_export exported = Ok vo.
Proof.
  intros Hnames Hother He Ho.
  assert (H1 : String.eqb "EXTENSIONS" other = false)
    by (apply String.eqb_neq; congruence).
  assert (H2 : String.eqb other "EXTENSIONS" = false)
    by (now apply String.eqb_neq).
  destruct Hnames as [-> | ->].
  - exists [("EXTENSIONS", extensions); (other, vo)].
    split; [|unfold V2Parsers.other_items;
             cbn [dict_get Modules.next_other_export List.filter fst snd map];
             rewrite ?String.eqb_refl, ?H2; simpl; auto].
    apply resolve_exports_two.
    exists "EXTENSIONS", other, extensions, vo; repeat split; try assumption.
    cbn [dict_set]; now rewrite H1.
  - exists [(other, vo); ("EXTENSIONS", extensions)].
    split; [|unfold V2Parsers.other_items;
             cbn [dict_get Modules.next_other_export List.filter fst snd map];
             rewrite ?String.eqb_refl, ?H2; simpl; auto].
    apply resolve_exports_two.
    exists other, "EXTENSIONS", vo, extensions; repeat split; try assumption.
    cbn [dict_set]; now rewrite H2.
Qed.

(** What [validate_module] accepts: exactly the export lists of the shape. *)
Lemma validate_exports_accepts_iff (module : py_module)
    (names : list py_value) :
  V2Parsers.validate_exports module names = Ok true
  <-> exists items c, exports_shape module names items c.
Proof.
  unfold V2Parsers.validate_exports; split.
  - destruct (length names =? 2)%nat eqn:Hlen; [|discriminate]; simpl.
    apply Nat.eqb_eq, length_two in Hlen as (n1 & n2 & ->).
    destruct (resolve_exports module [n1; n2] []) as [exported|e] eqn:Hr;
      [|destruct e; discriminate].
    apply resolve_exports_two in Hr
      as (a & b & va & vb & -> & -> & Ha & Hb & ->).
    destruct (dict_get "EXTENSIONS" (dict_set b vb [(a, va)]))
      as [extensions|] eqn:He; [|discriminate].
    destruct (iterate extensions) as [items|] eqn:Hi; [|discriminate].
    destruct (V2Parsers.extensions_valid items) eqn:Hv; [|discriminate];
      cbn [negb].
    destruct (V2Parsers.other_items (dict_set b vb [(a, va)]))
      as [|v rest] eqn:Ho; [discriminate|].
    destruct v; try discriminate.
    destruct rest; [|discriminate].
    intros Hc; injection Hc as Hc.
    apply extensions_valid_spec in Hv.
    exists items, c.
    destruct (exports_other_items _ _ _ _ _ _ He Ho)
      as [(-> & Hne & -> & <-) | (-> & Hne & -> & <-)].
    + exists b, va; repeat split; auto.
    + exists a, vb; repeat split; auto.
  - intros (items & c & other & extensions & Hnames & Hne & He & Hi & Hall
            & Ho & Hc).
    destruct (exports_in_either_order module names other extensions
                (PyClass c) Hnames Hne He Ho)
      as (exported & -> & -> & -> & _).
    assert (Hlen : (length names =? 2)%nat = true)
      by (destruct Hnames as [-> | ->]; reflexivity).
    rewrite Hlen, Hi; simpl.
    apply extensions_valid_spec in Hall; rewrite Hall; simpl.
    now rewrite Hc.
Qed.

Lemma validate_module_accepts_iff (module : py_module) :
  V2Parsers.validate_module module = Ok true
  <-> exists items c, plugin_shape module items c.
Proof.
  unfold V2Parsers.validate_module, plugin_shape; split.
  - destruct (dict_get "__all__" (mod_dict module)) as [[]|];
      try discriminate; intros H;
      apply validate_exports_accepts_iff in H as (its & c & Hs);
      exists its, c, items; auto.
  - intros (its & c & names & [-> | ->] & Hs);
      apply validate_exports_accepts_iff; eauto.
Qed.

(** What a later iteration yields: what the first one did, or nothing. *)
Lemma iterate_again_items (v : py_value) (items : list py_value) :
  iterate v = Some items -> iterate_again v = items \/ iterate_again v = [].
Proof.
  destruct v; cbn; intros H; try discriminate; injection H as <-; auto.
Qed.

Lemma declared_extensions_shape (module : py_module) (items : list py_value)
    (c : py_class) :
  plugin_shape module items c ->
  declared_extensions module = strings_of items
  \/ declared_extensions module = [].
Proof.
  intros (names & _ & other & extensions & _ & _ & He & Hi & _).
  unfold declared_extensions; rewrite He.
  destruct (iterate_again_items _ _ Hi) as [-> | ->]; auto.
Qed.

(** What [get_extensions_and_parser_cls] accepts, and what it returns
    then: the set of the extensions a second iteration yields, and the
    exported class. *)
Lemma extensions_and_parser_of_accepts_iff (module : py_module)
    (names : list py_value) (exts : list string) (c : py_class) :
  Modules.extensions_and_parser_of module names = Ok (exts, c)
  <-> exists items,
        exports_shape module names items c
        /\ exts = frozenset (declared_extensions module).
Proof.
  unfold Modules.extensions_and_parser_of; split.
  - destruct (length names =? 2)%nat eqn:Hlen; [|discriminate]; simpl.
    apply Nat.eqb_eq, length_two in Hlen as (n1 & n2 & ->).
    destruct (resolve_exports module [n1; n2] []) as [exported|e] eqn:Hr;
      [|destruct e; discriminate].
    apply resolve_exports_two in Hr
      as (a & b & va & vb & -> & -> & Ha & Hb & ->).
    cbn [mbind result_bind try_except].
    destruct (dict_get "EXTENSIONS" (dict_set b vb [(a, va)]))
      as [extensions|] eqn:He; [|discriminate].
    destruct (iterate extensions) as [items|] eqn:Hi; [|discriminate].
    destruct (Modules.check_extensions (mod_file module) items) as [l|e]
      eqn:Hv; [|discriminate]; cbn [mbind result_bind].
    destruct (Modules.next_other_export (dict_set b vb [(a, va)]))
      as [v|e] eqn:Ho; [|discriminate]; cbn [mbind result_bind].
    destruct v as [| | | | | |c'| |]; try discriminate.
    destruct (cls_is_parser c') eqn:Hc; [|discriminate].
    intros H; injection H as <- <-.
    apply check_extensions_spec in Hv as [Hall ->].
    exists items.
    destruct (exports_next_other _ _ _ _ _ _ He Ho)
      as [(-> & Hne & -> & <-) | (-> & Hne & -> & <-)].
    + split; [exists b, va; repeat split; auto|].
      unfold declared_extensions; now rewrite Ha.
    + split; [exists a, vb; repeat split; auto|].
      unfold declared_extensions; now rewrite Hb.
  - intros (items & (other & extensions & Hnames & Hne & He & Hi & Hall
                     & Ho & Hc) & ->).
    destruct (exports_in_either_order module names other extensions
                (PyClass c) Hnames Hne He Ho)
      as (exported & -> & Hget & _ & Hnext).
    assert (Hlen : (length names =? 2)%nat = true)
      by (destruct Hnames as [-> | ->]; reflexivity).
    rewrite Hlen; simpl; rewrite Hget, Hi.
    assert (Hv : Modules.check_extensions (mod_file module) items
                 = Ok (strings_of items))
      by (apply check_extensions_spec; now split).
    rewrite Hv; simpl; rewrite Hnext; simpl.
    rewrite Hc; unfold declared_extensions; now rewrite He.
Qed.

Lemma get_extensions_and_parser_cls_accepts_iff (module : py_module)
    (exts : list string) (c : py_class) :
  Modules.get_extensions_and_parser_cls module = Ok (exts, c)
  <-> exists items,
        plugin_shape module items c
        /\ exts = frozenset (declared_extensions module).
Proof.
  unfold Modules.get_extensions_and_parser_cls, plugin_shape; split.
  - destruct (dict_get "__all__" (mod_dict module)) as [[]|];
      try discriminate; intros H;
      apply extensions_and_parser_of_accepts_iff in H as (its & Hs & ->);
      exists its; (split; [exists items; auto | reflexivity]).
  - intros (its & (names & [-> | ->] & Hs) & ->);
      apply extensions_and_parser_of_accepts_iff; eauto.
Qed.

(** A plugin of the shape exports one class. *)
Lemma plugin_shape_declares (module : py_module) (items : list py_value)
    (c : py_class) :
  plugin_shape module items c ->
  exported_classes module = [c].
Proof.
  intros (names & Hall & other & extensions & Hnames & Hne & He & Hi & _
          & Ho & _).
  assert (Hnc : forall c', extensions <> PyClass c')
    by (intros c' ->; discriminate).
  unfold exported_classes.
  assert (Hflat :
    flat_map (fun name => match getattr module name with
                          | Ok (PyClass c0) => [c0]
                          | _ => []
                          end) names = [c]).
  { destruct Hnames as [-> | ->]; cbn [flat_map getattr];
      rewrite He, Ho; destruct extensions; try reflexivity;
      now contradiction (Hnc c0). }
  destruct Hall as [-> | ->]; exact Hflat.
Qed.

(** ** The directory scan of [v2] *)

Lemma v2_register_module_shape (module : py_module) (items : list py_value)
    (c : py_class) (parsers : dict py_class)
    (log : list V2Parsers.log_record) :
  plugin_shape module items c ->
  V2Parsers.register_module module parsers log
  = V2Parsers.register_extensions c (declared_extensions module) parsers log.
Proof.
  intros (names & Hall & other & extensions & Hnames & Hne & He & Hi & _
          & Ho & _).
  assert (Hnext : V2Parsers.next_parser_export module names = Ok (PyClass c)).
  { assert (H2 : String.eqb other "EXTENSIONS" = false)
      by (now apply String.eqb_neq).
    destruct Hnames as [-> | ->];
      cbn [V2Parsers.next_parser_export py_eq_str getattr];
      rewrite ?String.eqb_refl, ?H2; cbn [negb]; now rewrite Ho. }
  unfold V2Parsers.register_module, declared_extensions; rewrite He.
  destruct Hall as [-> | ->]; now rewrite Hi, Hnext.
Qed.

Lemma v2_register_extensions_outcome (cls : py_class) (exts : list string)
    (parsers : dict py_class) (log : list V2Parsers.log_record) :
  snd (V2Parsers.register_extensions cls exts parsers log)
  = match bind_in_order (map (fun e => (e, cls)) exts) parsers with
    | inl parsers' => Ok parsers'
    | inr (e, owner, candidate) => Raise (ValueError e owner candidate)
    end.
Proof.
  revert parsers log; induction exts as [|e exts IH]; intros parsers log;
    simpl; [reflexivity|].
  destruct (dict_get e parsers) as [owner|] eqn:Hget; [reflexivity|].
  now rewrite IH, dict_set_fresh.
Qed.

Lemma v2_register_extensions_log (cls : py_class) (exts : list string)
    (parsers : dict py_class) (log : list V2Parsers.log_record)
    (r : V2Parsers.log_record) :
  In r log -> In r (fst (V2Parsers.register_extensions cls exts parsers log)).
Proof.
  revert parsers log; induction exts as [|e exts IH]; intros parsers log Hin;
    simpl; [exact Hin|].
  destruct (dict_get e parsers); simpl.
  - apply in_or_app; now left.
  - apply IH, in_or_app; now left.
Qed.

Lemma v2_register_module_log (module : py_module) (parsers : dict py_class)
    (log : list V2Parsers.log_record) (r : V2Parsers.log_record) :
  In r log -> In r (fst (V2Parsers.register_module module parsers log)).
Proof.
  intros Hin; unfold V2Parsers.register_module.
  destruct (dict_get "EXTENSIONS" (mod_dict module)) as [extensions|];
    [|exact Hin].
  destruct (dict_get "__all__" (mod_dict module)) as [[]|]; try exact Hin;
    destruct (iterate extensions);
    destruct (V2Parsers.next_parser_export module items) as [[]|];
    try exact Hin; now apply v2_register_extensions_log.
Qed.

(** One step of the scan. *)
Lemma v2_load_paths_cons (w : world) (path : string) (rest : list string)
    (parsers : dict py_class) (log : list V2Parsers.log_record) :
  V2Parsers.load_paths w (path :: rest) parsers log
  = if String.eqb (path_name path) "__init__.py"
    then V2Parsers.load_paths w rest parsers log
    else
      match V2Parsers.load_module_from_path w path with
      | V2Parsers.LoadExits => (log, Exits)
      | V2Parsers.NotLoaded =>
          V2Parsers.load_paths w rest parsers
            (log ++ [V2Parsers.LogLoadFailed path;
                     V2Parsers.LogSkipFailedToLoad (path_name path)])
      | V2Parsers.Loaded module =>
          match V2Parsers.validate_module module with
          | Raise e => (log, Ends (Raise e))
          | Ok false =>
              V2Parsers.load_paths w rest parsers
                (log ++ [V2Parsers.LogSkipInvalid (path_name path)])
          | Ok true =>
              match V2Parsers.register_module module parsers log with
              | (log', Ok parsers') => V2Parsers.load_paths w rest parsers' log'
              | (log', Raise e) => (log', Ends (Raise e))
              end
          end
      end.
Proof. reflexivity. Qed.

Lemma v2_validation_returns_tail (w : world) (path : string)
    (rest : list string) :
  v2_validation_returns w (path :: rest) -> v2_validation_returns w rest.
Proof. intros H p Hin; apply H; now right. Qed.

(** The outcome of the scan: the offers of the accepted paths, bound in
    order. *)
Lemma v2_load_paths_outcome (w : world) (paths : list string)
    (parsers : dict py_class) (log : list V2Parsers.log_record) :
  v2_validation_returns w paths ->
  snd (V2Parsers.load_paths w paths parsers log)
  = Ends
      match bind_in_order (flat_map (v2_bindings w) paths) parsers with
      | inl parsers' => Ok parsers'
      | inr (e, owner, candidate) => Raise (ValueError e owner candidate)
      end.
Proof.
  revert parsers log; induction paths as [|path rest IH];
    intros parsers log Hret; [reflexivity|].
  pose proof (v2_validation_returns_tail _ _ _ Hret) as Hrest.
  rewrite v2_load_paths_cons; cbn [flat_map]; unfold v2_bindings at 1.
  destruct (String.eqb_spec (path_name path) "__init__.py") as [Hinit|Hinit];
    [now apply IH|].
  destruct (Hret path) as [Hstays Hv]; [now left | assumption|].
  destruct (V2Parsers.load_module_from_path w path) as [module| |];
    [|now apply IH|contradiction].
  destruct (Hv module eq_refl) as [verdict Hverdict].
  rewrite Hverdict; destruct verdict; [|now apply IH].
  apply validate_module_accepts_iff in Hverdict as (items & c & Hshape).
  rewrite (plugin_shape_declares _ _ _ Hshape).
  rewrite (v2_register_module_shape _ _ _ parsers log Hshape).
  rewrite bind_in_order_app.
  pose proof (v2_register_extensions_outcome c (declared_extensions module)
                parsers log) as Hreg.
  destruct (V2Parsers.register_extensions c (declared_extensions module)
              parsers log) as [log' [parsers'|e]]; simpl in Hreg.
  - destruct (bind_in_order _ parsers) as [p|[[? ?] ?]];
      [|discriminate].
    injection Hreg as ->; now apply IH.
  - destruct (bind_in_order _ parsers) as [p|[[? ?] ?]];
      [discriminate|].
    now injection Hreg as ->.
Qed.

Lemma v2_load_paths_log (w : world) (paths : list string)
    (parsers : dict py_class) (log : list V2Parsers.log_record)
    (r : V2Parsers.log_record) :
  In r log -> In r (fst (V2Parsers.load_paths w paths parsers log)).
Proof.
  revert parsers log; induction paths as [|path rest IH];
    intros parsers log Hin; [exact Hin|].
  rewrite v2_load_paths_cons.
  destruct (String.eqb (path_name path) "__init__.py"); [now apply IH|].
  destruct (V2Parsers.load_module_from_path w path) as [module| |];
    [| |exact Hin].
  2:{ apply IH, in_or_app; now left. }
  destruct (V2Parsers.validate_module module) as [[]|e]; [| |exact Hin].
  - pose proof (v2_register_module_log module parsers log r Hin) as Hreg.
    destruct (V2Parsers.register_module module parsers log)
      as [log' [parsers'|e]]; [now apply IH | exact Hreg].
  - apply IH, in_or_app; now left.
Qed.

(** A scan that completes has left the diagnostic of every path it
    skipped. *)
Lemma v2_load_paths_diagnostics (w : world) (paths : list string)
    (parsers : dict py_class) (log : list V2Parsers.log_record) :
  (exists registry,
      snd (V2Parsers.load_paths w paths parsers log) = Ends (Ok registry)) ->
  forall path,
    In path paths -> v2_skipped w path ->
    In (v2_diagnostic w path) (fst (V2Parsers.load_paths w paths parsers log)).
Proof.
  revert parsers log; induction paths as [|path0 rest IH];
    intros parsers log Hok path Hin Hskip; [destruct Hin|].
  rewrite v2_load_paths_cons in Hok |- *.
  destruct Hskip as [Hname Hwhy].
  assert (Hthis : path = path0 \/ In path rest) by (destruct Hin; auto).
  clear Hin.
  destruct (String.eqb_spec (path_name path0) "__init__.py") as [Hinit|Hinit].
  { destruct Hthis as [-> | Hin]; [contradiction|].
    apply IH; [assumption.. | now split]. }
  destruct (V2Parsers.load_module_from_path w path0) as [module| |]
    eqn:Hload.
  3:{ destruct Hok as [registry Hok]; discriminate. }
  2:{ destruct Hthis as [-> | Hin].
      - apply v2_load_paths_log; unfold v2_diagnostic; rewrite Hload.
        apply in_or_app; right; right; now left.
      - apply IH; [assumption.. | now split]. }
  destruct (V2Parsers.validate_module module) as [[]|e] eqn:Hv.
  - destruct Hthis as [-> | Hin].
    + destruct Hwhy as [Hnone | (m & Hm & Hfalse)]; [congruence|].
      rewrite Hload in Hm; injection Hm as <-; congruence.
    + destruct (V2Parsers.register_module module parsers log)
        as [log' [parsers'|e]].
      * apply IH; [assumption.. | now split].
      * destruct Hok as [registry Hok]; discriminate.
  - destruct Hthis as [-> | Hin].
    + apply v2_load_paths_log; unfold v2_diagnostic; rewrite Hload.
      apply in_or_app; right; now left.
    + apply IH; [assumption.. | now split].
  - destruct Hok as [registry Hok]; discriminate.
Qed.

(** ** The record-based construction of [modules.py] *)

Lemma v1_register_extensions_outcome (module_path : string) (cls : py_class)
    (exts : list string) (parsers : dict py_class) :
  Modules.register_extensions module_path cls exts parsers
  = match bind_in_order (map (fun e => (e, cls)) exts) parsers with
    | inl parsers' => Ok parsers'
    | inr (e, owner, _) =>
        Raise (InvalidModule module_path (ExtensionAlreadyRegistered e owner))
    end.
Proof.
  revert parsers; induction exts as [|e exts IH]; intros parsers; simpl;
    [reflexivity|].
  destruct (dict_get e parsers) as [owner|] eqn:Hget; [reflexivity|].
  now rewrite IH, dict_set_fresh.
Qed.

(** One step of the loop over the records: the checks on the path are
    those [module_from_path] repeats. *)
Lemma v1_load_records_cons (w : world) (record : string * module_entry)
    (rest : dict module_entry) (parsers : dict py_class) :
  Modules.load_records w (record :: rest) parsers
  = match v1_loaded w record with
    | Raise e => Raise e
    | Ok ext_cls =>
        match Modules.register_extensions
                (default "" (entry_path (snd record)))
                (snd ext_cls) (fst ext_cls) parsers with
        | Ok parsers' => Modules.load_records w rest parsers'
        | Raise e => Raise e
        end
    end.
Proof.
  destruct record as [module_id module_entry].
  cbn [Modules.load_records]; unfold v1_loaded; cbn [fst snd].
  set (module_path := default "" (entry_path module_entry)).
  unfold Modules.module_from_path, path_exists, path_is_file.
  destruct (stat w module_path) as [[|c]|]; cbn [negb mbind result_bind];
    try reflexivity.
  destruct (exec c); reflexivity.
Qed.

(** A record that does not load or validate aborts the construction. *)
Lemma v1_invalid_record_aborts (w : world) (records : dict module_entry)
    (parsers : dict py_class) (record : string * module_entry) :
  In record records -> ~ v1_valid w record ->
  exists e, Modules.load_records w records parsers = Raise e.
Proof.
  revert parsers; induction records as [|record0 rest IH];
    intros parsers Hin Hbad; [destruct Hin|].
  rewrite v1_load_records_cons.
  destruct (v1_loaded w record0) as [ext_cls|e] eqn:Hload; [|eauto].
  destruct Hin as [-> | Hin]; [exfalso; apply Hbad; now exists ext_cls|].
  destruct (Modules.register_extensions _ _ _ _) as [parsers'|e]; [|eauto].
  now apply IH.
Qed.

(** With valid records only, the outcome is that of binding their offers
    in order. *)
Lemma v1_load_records_outcome (w : world) (records : dict module_entry)
    (parsers : dict py_class) :
  Forall (v1_valid w) records ->
  match bind_in_order (flat_map (v1_bindings w) records) parsers with
  | inl parsers' => Modules.load_records w records parsers = Ok parsers'
  | inr (e, owner, _) =>
      exists module_path,
        Modules.load_records w records parsers
        = Raise (InvalidModule module_path (ExtensionAlreadyRegistered e owner))
  end.
Proof.
  revert parsers; induction records as [|record rest IH];
    intros parsers Hvalid; [reflexivity|].
  inversion Hvalid as [|? ? [ext_cls Hload] Hrest]; subst.
  rewrite v1_load_records_cons; cbn [flat_map]; unfold v1_bindings at 1.
  rewrite Hload, bind_in_order_app, v1_register_extensions_outcome.
  destruct (bind_in_order _ parsers) as [parsers'|[[e owner] cand]].
  - now apply IH.
  - eauto.
Qed.

(** ** Registry construction: what is skipped and what aborts *)

Lemma v2_skipped_offers_nothing (w : world) (path : string) :
  v2_skipped w path -> v2_bindings w path = [].
Proof.
  intros [Hname Hwhy]; unfold v2_bindings.
  apply String.eqb_neq in Hname; rewrite Hname.
  destruct Hwhy as [-> | (module & -> & ->)]; reflexivity.
Qed.

(** C5.  The record-based construction of [modules.py] does not isolate a
    bad plugin.  Over a store of two records, the first pointing to a file
    that is no plugin (it binds no [__all__]), the second to a plugin that
    loads and validates on its own, [load_parsers] raises [InvalidModule]
    about the first file and builds no registry, where the claim has the
    artifact skipped and construction go on; the directory scan of [v2]
    over the same two files skips the first, logs the diagnostic, and
    registers the second.  This is so for every store: a record that does
    not load or validate makes [modules.load_parsers] raise. *)
Theorem modules_load_parsers_aborts_on_invalid_plugin :
  let w := Samples.invalid_then_valid in
  let bad := Samples.record "0badc0de" [".bad"] "bad.py" in
  let good := Samples.record "a1b2c3d4" [".foo"] "foo.py" in
  installed_records w = [bad; good]
  /\ v1_loaded w bad
     = Raise (InvalidModule (Samples.stored_path "0badc0de")
                AllMissingOrInvalid)
  /\ v1_loaded w good = Ok ([".foo"], Samples.FooParser)
  /\ Modules.load_parsers w
     = Raise (InvalidModule (Samples.stored_path "0badc0de")
                AllMissingOrInvalid)
  /\ V2Parsers.load_parsers w
       [Samples.stored_path "0badc0de"; Samples.stored_path "a1b2c3d4"]
     = ([V2Parsers.LogSkipInvalid "0badc0de.py";
         V2Parsers.LogRegistered Samples.FooParser ".foo"],
        Ends (Ok [(".foo", Samples.FooParser)]))
  /\ (forall (w' : world) (record : string * module_entry),
         In record (installed_records w') ->
         ~ v1_valid w' record ->
         exists e, Modules.load_parsers w' = Raise e).
Proof.
  cbv zeta.
  repeat match goal with |- _ /\ _ => split end;
    try (vm_compute; reflexivity).
  intros w' record Hin Hbad.
  unfold Modules.load_parsers; fold (installed_records w').
  now apply (v1_invalid_record_aborts w' _ [] record).
Qed.

(** * Further properties of the code *)

(** ** Plugin validation *)

Lemma validate_exports_raises (module : py_module) (names : list py_value)
    (e : exn) :
  V2Parsers.validate_exports module names = Raise e -> e = TypeError.
Proof.
  unfold V2Parsers.validate_exports.
  destruct (negb (length names =? 2)%nat); [discriminate|].
  destruct (resolve_exports module names []) as [exported|e'] eqn:Hr.
  - destruct (dict_get "EXTENSIONS" exported) as [extensions|];
      [|discriminate].
    destruct (iterate extensions) as [items|]; [|discriminate].
    destruct (negb (V2Parsers.extensions_valid items)); [discriminate|].
    destruct (V2Parsers.other_items exported) as [|[] [|]]; discriminate.
  - apply resolve_exports_raises in Hr as [-> | [n ->]];
      intros H; now inversion H.
Qed.

(** The only exception [validate_module] lets escape is the [TypeError] of
    [getattr] on a name that is no string. *)
Lemma validate_module_raises (module : py_module) (e : exn) :
  V2Parsers.validate_module module = Raise e -> e = TypeError.
Proof.
  unfold V2Parsers.validate_module.
  destruct (dict_get "__all__" (mod_dict module)) as [[]|];
    try discriminate; apply validate_exports_raises.
Qed.

(** X5.  Over the values of the model (none, integers, strings, lists,
    tuples, sets, iterators, classes, other objects), the only exception
    [validate_module] lets escape is [TypeError], from [getattr] on an
    export name that is no string; every other malformed module is answered
    with [False]. *)
Theorem validate_module_raises_type_error_only (module : py_module)
    (e : exn) :
  V2Parsers.validate_module module = Raise e -> e = TypeError.
Proof. apply validate_module_raises. Qed.

Lemma validate_module_raises_type_error_only_witness :
  V2Parsers.validate_module Samples.all_with_number = Raise TypeError
  /\ TypeError = TypeError.
Proof.
  split; [reflexivity|].
  exact (validate_module_raises_type_error_only Samples.all_with_number
           TypeError eq_refl).
Defined.

(** X4.  Whatever [get_extensions_and_parser_cls] raises is [InvalidModule]
    for the module's file, the [TypeError] of [getattr] on an export name
    that is no string, or the [StopIteration] of [next] over an empty
    remainder of the exports. *)
Theorem get_extensions_and_parser_cls_raises_one_of_three
    (module : py_module) (e : exn) :
  Modules.get_extensions_and_parser_cls module = Raise e ->
  (exists reason, e = InvalidModule (mod_file module) reason)
  \/ e = TypeError \/ e = StopIteration.
Proof. apply get_extensions_and_parser_cls_raises. Qed.

Lemma get_extensions_and_parser_cls_raises_one_of_three_witness :
  Modules.get_extensions_and_parser_cls Samples.extensions_listed_twice
  = Raise StopIteration
  /\ ((exists reason,
          StopIteration
          = InvalidModule (mod_file Samples.extensions_listed_twice) reason)
      \/ StopIteration = TypeError \/ StopIteration = StopIteration).
Proof.
  split; [reflexivity|].
  exact (get_extensions_and_parser_cls_raises_one_of_three
           Samples.extensions_listed_twice StopIteration eq_refl).
Defined.

(** An iterator bound to [EXTENSIONS] passes both validators, which use it
    up: [get_extensions_and_parser_cls] returns the empty set, and the
    registration loop of [v2] registers nothing. *)
Example one_shot_extensions_are_used_up :
  Modules.get_extensions_and_parser_cls Samples.one_shot_extensions
  = Ok ([], Samples.GenParser)
  /\ V2Parsers.validate_module Samples.one_shot_extensions = Ok true
  /\ V2Parsers.register_module Samples.one_shot_extensions [] [] = ([], Ok []).
Proof. repeat split. Qed.

(** X1.  Over the values of the model (none, integers, strings, lists,
    tuples, sets, iterators, classes, other objects),
    [get_extensions_and_parser_cls] returns exactly for the modules of the
    plugin shape ([__all__] a list or tuple of two names, one of them
    [EXTENSIONS] bound to an iterable whose items are strings that match
    the regex, the other bound to a subclass of [Parser]).  It returns that
    class with the set of the strings a second iteration over [EXTENSIONS]
    yields: the items the first iteration checked, or, when [EXTENSIONS] is
    an iterator, which the check has used up, the empty set. *)
Theorem get_extensions_and_parser_cls_returns_iff (module : py_module)
    (exts : list string) (c : py_class) :
  Modules.get_extensions_and_parser_cls module = Ok (exts, c)
  <-> exists items extensions,
        plugin_shape module items c
        /\ dict_get "EXTENSIONS" (mod_dict module) = Some extensions
        /\ exts = match extensions with
                  | PyIterator _ => []
                  | _ => frozenset (strings_of items)
                  end.
Proof.
  rewrite get_extensions_and_parser_cls_accepts_iff; split.
  - intros (items & Hshape & ->); exists items.
    pose proof Hshape as (names & _ & other & extensions & _ & _ & He & Hi
                          & _).
    exists extensions; split; [exact Hshape|]; split; [exact He|].
    unfold declared_extensions; rewrite He.
    destruct extensions; cbn in Hi |- *; try discriminate;
      try (injection Hi as <-); reflexivity.
  - intros (items & extensions & Hshape & He & ->); exists items.
    split; [exact Hshape|].
    pose proof Hshape as (names & _ & other & extensions' & _ & _ & He' & Hi
                          & _).
    rewrite He in He'; injection He' as <-.
    unfold declared_extensions; rewrite He.
    destruct extensions; cbn in Hi |- *; try discriminate;
      try (injection Hi as <-); reflexivity.
Qed.

(** X2.  [validate_module] answers [True] exactly for the modules of the
    plugin shape. *)
Theorem validate_module_true_iff (module : py_module) :
  V2Parsers.validate_module module = Ok true
  <-> exists items c, plugin_shape module items c.
Proof. apply validate_module_accepts_iff. Qed.

Lemma filter_NoDup {A} (f : A -> bool) (l : list A) :
  NoDup l -> NoDup (List.filter f l).
Proof.
  induction 1 as [|x l Hx Hnd IH]; simpl; [constructor|].
  destruct (f x); [|exact IH].
  constructor; [|exact IH].
  rewrite list_elem_of_In, filter_In, <- list_elem_of_In; tauto.
Qed.

Lemma frozenset_NoDup (l : list string) : NoDup (frozenset l).
Proof.
  induction l as [|x l IH]; simpl; constructor.
  - rewrite list_elem_of_In, filter_In, negb_true_iff, String.eqb_neq; tauto.
  - now apply filter_NoDup.
Qed.

Lemma strings_of_valid_items (items : list py_value) (s : string) :
  Forall (fun item => exists s, item = PyStr s /\ matches_extension_regex s)
    items ->
  In s (strings_of items) -> matches_extension_regex s.
Proof.
  induction 1 as [|item items (s' & -> & Hs') Hrest IH]; simpl; [tauto|].
  intros [<- | Hin]; auto.
Qed.

Lemma declared_extensions_valid (module : py_module)
    (items : list py_value) (c : py_class) (s : string) :
  plugin_shape module items c ->
  In s (declared_extensions module) -> matches_extension_regex s.
Proof.
  intros Hshape Hin.
  destruct (declared_extensions_shape _ _ _ Hshape) as [Hd | Hd];
    rewrite Hd in Hin; [|destruct Hin].
  destruct Hshape as (names & _ & other & extensions & _ & _ & _ & _ & Hall
                      & _).
  eapply strings_of_valid_items; eauto.
Qed.

(** X6.  What an accepted plugin yields: a duplicate-free set of strings
    that all match the extension regex, and a subclass of [Parser]. *)
Theorem accepted_plugin_is_well_formed :
  forall (module : py_module) (exts : list string) (c : py_class),
    Modules.get_extensions_and_parser_cls module = Ok (exts, c) ->
    NoDup exts
    /\ (forall e, In e exts -> matches_extension_regex e)
    /\ cls_is_parser c = true.
Proof.
  intros module exts c H.
  apply get_extensions_and_parser_cls_accepts_iff in H as (items & Hshape & ->).
  split; [apply frozenset_NoDup|]; split.
  - intros e He; apply (proj1 (frozenset_In _ _)) in He.
    eapply declared_extensions_valid; eauto.
  - now destruct Hshape as (names & _ & other & extensions & _ & _ & _ & _
                            & _ & _ & Hc).
Qed.

Lemma accepted_plugin_is_well_formed_witness :
  Modules.get_extensions_and_parser_cls Samples.foo_module
  = Ok ([".foo"], Samples.FooParser)
  /\ NoDup [".foo"]
  /\ (forall e, In e [".foo"] -> matches_extension_regex e)
  /\ cls_is_parser Samples.FooParser = true.
Proof.
  split; [reflexivity|].
  exact (accepted_plugin_is_well_formed Samples.foo_module [".foo"]
           Samples.FooParser eq_refl).
Defined.

(** ** The installer: success *)

Lemma set_inter_nil_iff (a b : list string) :
  set_inter a b = [] <-> forall e, In e a -> ~ In e b.
Proof.
  split.
  - intros H e Ha Hb.
    assert (Hin : In e (set_inter a b)) by (now apply set_inter_In).
    now rewrite H in Hin.
  - intros H; destruct (set_inter a b) as [|e l] eqn:Hs; [reflexivity|].
    assert (Hin : In e (set_inter a b)) by (rewrite Hs; now left).
    apply set_inter_In in Hin as [Ha Hb]; now contradiction (H e Ha).
Qed.

(** What a successful [install_module] needs and what it does: the file
    hashes to a new key, loads, validates, claims no recorded extension and
    is not the file at the place the copy goes to; the file is copied under
    the store directory (into the target when the target is a directory)
    and one record is appended to the store. *)
Lemma install_module_success (w w' : world) (path : string) :
  Modules.install_module path w = (w', Ok tt)
  <-> exists c exts,
        stat w path = Some (File c)
        /\ dict_mem (digest c) (installed_records w) = false
        /\ candidate_extensions w path = Some exts
        /\ (forall e, In e exts -> ~ claimed (installed_records w) e)
        /\ let target := store_target w (digest c) in
           let copy := copy_target w path target in
           path <> copy
           /\ w' = World (<[copy := File c]> (fs w))
                    (Some (installed_records w
                             ++ [(digest c,
                                  ModuleEntry (Some exts) (Some target)
                                    (Some (path_name path)))]))
                    (parsers_dir w).
Proof.
  unfold Modules.install_module, candidate_extensions, installed_records,
    store_target, io_bind, get_config_modules, io_read, io_try, io_raise,
    io_lift, hash_from_file.
  set (modules := default [] (config w)).
  destruct (stat w path) as [[|c]|] eqn:Hstat; cbv beta iota.
  1,3: split; [discriminate | intros (c & exts & Hc & _); discriminate].
  destruct (dict_mem (digest c) modules) eqn:Hmem; cbv beta iota.
  { split; [discriminate|].
    intros (c' & exts & Hc & Hm & _); injection Hc as <-; congruence. }
  destruct (Modules.module_from_path w path (digest c)) as [module|e1];
    cbv beta iota.
  2:{ split; [discriminate|].
      intros (c' & exts & Hc & _ & Hx & _); injection Hc as <-.
      discriminate. }
  destruct (Modules.get_extensions_and_parser_cls module) as [[exts cls]|e2];
    cbv beta iota.
  2:{ split; [discriminate|].
      intros (c' & exts & Hc & _ & Hx & _); injection Hc as <-.
      discriminate. }
  cbn [fst].
  assert (Hov : set_inter exts (Modules.installed_extensions modules) = []
                <-> forall e, In e exts -> ~ claimed modules e).
  { rewrite set_inter_nil_iff; split; intros H e He Hc;
      apply (H e He); now apply installed_extensions_claimed. }
  destruct (length (set_inter exts (Modules.installed_extensions modules))
            =? 0)%nat eqn:Hlen; cbn [negb]; cbv beta iota.
  - apply length_eqb_0_nil in Hlen.
    unfold shutil_copy, write_json; rewrite Hstat; cbv beta iota zeta.
    assert (Hset : forall entry,
               dict_set (digest c) entry modules = modules ++ [(digest c, entry)]).
    { intros entry; apply dict_set_fresh.
      unfold dict_mem in Hmem; now destruct (dict_get (digest c) modules). }
    destruct (String.eqb_spec path
                (copy_target w path
                   (parsers_dir w +:+ "/" +:+ digest c +:+ ".py")))
      as [Hsame|Hsame]; cbn [fs config parsers_dir].
    + split; [discriminate|].
      intros (c' & exts' & Hc & _ & _ & _ & Hne & _).
      injection Hc as <-; contradiction.
    + rewrite Hset; split.
      * intros H; injection H as <-.
        exists c, exts; repeat split; auto.
        now apply Hov.
      * intros (c' & exts' & Hc & _ & Hx & _ & _ & ->).
        injection Hc as <-; injection Hx as <-; reflexivity.
  - split; [discriminate|].
    intros (c' & exts' & Hc & _ & Hx & Hno & _).
    injection Hc as <-; injection Hx as <-.
    apply Hov in Hno; rewrite Hno in Hlen; discriminate.
Qed.


Lemma dict_mem_false {V} (k : string) (d : dict V) :
  dict_mem k d = false <-> ~ In k (map fst d).
Proof.
  rewrite <- dict_get_None; unfold dict_mem.
  destruct (dict_get k d); split; congruence.
Qed.

Lemma claimed_recorded (records : dict module_entry) (e : string) :
  claimed records e <-> In e (flat_map recorded_extensions records).
Proof.
  rewrite in_flat_map; unfold claimed, recorded_extensions; split.
  - intros (id & entry & exts & Hin & Hx & He).
    exists (id, entry); split; [exact Hin|]; simpl; now rewrite Hx.
  - intros ([id entry] & Hin & He); simpl in He.
    destruct (entry_extensions entry) as [exts|] eqn:Hx; [|destruct He].
    now exists id, entry, exts.
Qed.

Lemma candidate_extensions_NoDup (w : world) (path : string)
    (exts : list string) :
  candidate_extensions w path = Some exts -> NoDup exts.
Proof.
  unfold candidate_extensions.
  destruct (hash_from_file w path) as [h|]; [|discriminate].
  destruct (Modules.module_from_path w path h) as [module|]; [|discriminate].
  destruct (Modules.get_extensions_and_parser_cls module) as [[exts' c]|]
    eqn:Hv; [|discriminate].
  intros H; injection H as <-.
  apply get_extensions_and_parser_cls_accepts_iff in Hv as (items & _ & ->).
  apply frozenset_NoDup.
Qed.

(** Installing the file that lies at the store target already: the copy
    raises [SameFileError], and nothing changes. *)
Example install_from_the_store_target :
  let w := Samples.candidate_in_store in
  let path := Samples.stored_path "a1b2c3d4" in
  Modules.install_module path w = (w, Raise (SameFileError path path)).
Proof. vm_compute; reflexivity. Qed.

(** X8.  A successful install keeps the invariants of the store: no hash
    is the key of two records and no extension is listed twice. *)
Lemma install_module_keeps_invariant (w w' : world) (path : string) :
  store_invariant (installed_records w) ->
  Modules.install_module path w = (w', Ok tt) ->
  store_invariant (installed_records w').
Proof.
  intros [Hkeys Hexts] Hinstall.
  apply install_module_success in Hinstall
    as (c & exts & _ & Hmem & Hcand & Hfree & _ & ->).
  change (store_invariant
            (installed_records w
               ++ [(digest c,
                    ModuleEntry (Some exts) (Some (store_target w (digest c)))
                      (Some (path_name path)))])).
  split.
  - rewrite map_app; apply NoDup_app; repeat split; [exact Hkeys | |].
    + intros k Hk Hk'; apply list_elem_of_In in Hk.
      apply dict_mem_false in Hmem.
      cbn in Hk'; apply list_elem_of_singleton in Hk'; subst; contradiction.
    + cbn; apply NoDup_singleton.
  - rewrite flat_map_app; apply NoDup_app; repeat split; [exact Hexts | |].
    + intros e He He'; cbn in He'; rewrite app_nil_r in He'.
      apply list_elem_of_In in He, He'.
      apply (Hfree e He'); now apply claimed_recorded.
    + cbn; rewrite app_nil_r.
      eapply candidate_extensions_NoDup; eauto.
Qed.

Lemma install_module_keeps_invariant_witness :
  let w := Samples.after_first_install in
  let w' := Samples.after_second_install in
  store_invariant (installed_records w)
  /\ Modules.install_module "/src/upper_txt.py" w = (w', Ok tt)
  /\ store_invariant (installed_records w').
Proof.
  intros w w'.
  assert (H0 : store_invariant (installed_records w))
    by (split; apply (bool_decide_unpack _); vm_compute; reflexivity).
  assert (H1 : Modules.install_module "/src/upper_txt.py" w = (w', Ok tt))
    by (vm_compute; reflexivity).
  split; [exact H0|]; split; [exact H1|].
  exact (install_module_keeps_invariant _ _ _ H0 H1).
Defined.

(** ** Uninstalling one record *)

Lemma dict_get_del_ne {V} (d : dict V) (k id : string) :
  k <> id -> dict_get k (dict_del id d) = dict_get k d.
Proof.
  intros Hne; induction d as [|[k' v'] d IH]; simpl; [reflexivity|].
  destruct (String.eqb_spec k' id) as [->|Hk'].
  - destruct (String.eqb_spec id k); [congruence | reflexivity].
  - simpl; now rewrite IH.
Qed.

Lemma dict_del_keys_subset {V} (d : dict V) (id k : string) :
  In k (map fst (dict_del id d)) -> In k (map fst d).
Proof.
  induction d as [|[k' v'] d IH]; simpl; [tauto|].
  destruct (String.eqb k' id); simpl; tauto.
Qed.

Lemma dict_get_del_eq {V} (d : dict V) (id : string) :
  NoDup (map fst d) -> dict_get id (dict_del id d) = None.
Proof.
  induction d as [|[k' v'] d IH]; simpl; [reflexivity|].
  intros Hnd; apply NoDup_cons in Hnd as [Hk' Hnd].
  destruct (String.eqb_spec k' id) as [->|Hne].
  - apply dict_get_None; now rewrite <- list_elem_of_In.
  - simpl; destruct (String.eqb_spec k' id); [contradiction | now apply IH].
Qed.

Lemma dict_del_appended {V} (d : dict V) (id : string) (v : V) :
  dict_get id d = None -> dict_del id (d ++ [(id, v)]) = d.
Proof.
  induction d as [|[k' v'] d IH]; simpl.
  - now rewrite String.eqb_refl.
  - destruct (String.eqb k' id); [discriminate|].
    intros H; now rewrite IH.
Qed.

(** The three ways [uninstall_module] ends for one id: an unknown id
    raises [KeyError]; a stored path that is a directory raises
    [IsADirectoryError]; in both cases nothing changes.  Otherwise the
    stored file is deleted and the record is dropped from the store. *)
Lemma uninstall_module_one (w : world) (module_id : string) :
  module_id <> "*" ->
  match dict_get module_id (installed_records w) with
  | None => Modules.uninstall_module module_id w = (w, Raise (KeyError module_id))
  | Some entry =>
      let p := default "" (entry_path entry) in
      match stat w p with
      | Some Dir =>
          Modules.uninstall_module module_id w = (w, Raise (IsADirectoryError p))
      | _ =>
          Modules.uninstall_module module_id w
          = (World (delete p (fs w))
               (Some (dict_del module_id (installed_records w)))
               (parsers_dir w),
             Ok tt)
      end
  end.
Proof.
  intros Hid; apply String.eqb_neq in Hid.
  unfold Modules.uninstall_module, installed_records, io_bind,
    get_config_modules, io_read, io_raise.
  rewrite Hid.
  destruct (dict_get module_id (default [] (config w))) as [entry|];
    [|reflexivity].
  cbv zeta; unfold Modules.remove_module_file, io_bind, io_read, io_ret,
    io_raise, unlink, without_file, write_json, path_exists, path_is_file.
  cbv beta.
  destruct (stat w (default "" (entry_path entry))) as [[|c]|] eqn:Hs;
    cbv beta iota; rewrite ?Hs; cbn [negb fs config parsers_dir];
    try reflexivity.
  unfold stat in Hs.
  destruct (String.eqb (default "" (entry_path entry)) ""); [discriminate|].
  now rewrite delete_id.
Qed.

(** X9.  The three ways [uninstall_module] ends for one id: an unknown id
    raises [KeyError]; a stored path that is a directory raises
    [IsADirectoryError]; in both cases nothing changes.  Otherwise the
    stored file is deleted (a missing one is passed over) and the record is
    dropped from the store. *)
Theorem uninstall_module_three_endings (w : world) (module_id : string) :
  module_id <> "*" ->
  match dict_get module_id (installed_records w) with
  | None => Modules.uninstall_module module_id w = (w, Raise (KeyError module_id))
  | Some entry =>
      let p := default "" (entry_path entry) in
      match stat w p with
      | Some Dir =>
          Modules.uninstall_module module_id w = (w, Raise (IsADirectoryError p))
      | _ =>
          Modules.uninstall_module module_id w
          = (World (delete p (fs w))
               (Some (dict_del module_id (installed_records w)))
               (parsers_dir w),
             Ok tt)
      end
  end.
Proof. apply uninstall_module_one. Qed.

Lemma uninstall_module_three_endings_witness :
  "cccccccc" <> "*"
  /\ Modules.uninstall_module "cccccccc" Samples.three_records_middle_directory
     = (World
          (delete (Samples.stored_path "cccccccc")
             (fs Samples.three_records_middle_directory))
          (Some (dict_del "cccccccc"
                   (installed_records Samples.three_records_middle_directory)))
          (parsers_dir Samples.three_records_middle_directory),
        Ok tt).
Proof.
  assert (H : "cccccccc" <> "*") by discriminate.
  split; [exact H|].
  exact (uninstall_module_three_endings Samples.three_records_middle_directory
           "cccccccc" H).
Defined.

(** X10.  After a successful uninstall of one id from a store without
    duplicate keys, the id is no key of the store, every other record is
    kept, nothing is left at the record's stored path, and every other
    path is as before. *)
Theorem uninstall_module_removes_that_record_only (w w' : world)
    (module_id : string) :
  module_id <> "*" ->
  NoDup (map fst (installed_records w)) ->
  Modules.uninstall_module module_id w = (w', Ok tt) ->
  exists entry,
    dict_get module_id (installed_records w) = Some entry
    /\ dict_get module_id (installed_records w') = None
    /\ (forall k, k <> module_id ->
          dict_get k (installed_records w') = dict_get k (installed_records w))
    /\ stat w' (default "" (entry_path entry)) = None
    /\ (forall q, q <> default "" (entry_path entry) -> stat w' q = stat w q).
Proof.
  intros Hid Hnd Hun.
  pose proof (uninstall_module_one w module_id Hid) as H.
  destruct (dict_get module_id (installed_records w)) as [entry|] eqn:Hget;
    [|rewrite H in Hun; discriminate].
  exists entry; split; [reflexivity|].
  cbv zeta in H.
  set (p := default "" (entry_path entry)) in *.
  assert (Hw : stat w p <> Some Dir
               /\ w' = World (delete p (fs w))
                         (Some (dict_del module_id (installed_records w)))
                         (parsers_dir w)).
  { destruct (stat w p) as [[|c]|]; rewrite H in Hun;
      [discriminate | |]; injection Hun as <-; split; congruence. }
  destruct Hw as [Hp ->].
  assert (Hne : String.eqb p "" = false).
  { unfold stat in Hp; destruct (String.eqb p ""); congruence. }
  change (installed_records (World _ (Some ?d) _)) with d.
  split; [now apply dict_get_del_eq|].
  split; [intros k Hk; now apply dict_get_del_ne|].
  unfold stat; cbn [fs]; rewrite Hne; split; [apply lookup_delete_eq|].
  intros q Hq; destruct (String.eqb q ""); [reflexivity|].
  now apply lookup_delete_ne.
Qed.

Lemma uninstall_module_removes_that_record_only_witness :
  let w := Samples.two_records_regular in
  let w' := fst (Modules.uninstall_module "cccccccc" w) in
  "cccccccc" <> "*"
  /\ NoDup (map fst (installed_records w))
  /\ Modules.uninstall_module "cccccccc" w = (w', Ok tt)
  /\ exists entry,
       dict_get "cccccccc" (installed_records w) = Some entry
       /\ dict_get "cccccccc" (installed_records w') = None
       /\ (forall k, k <> "cccccccc" ->
             dict_get k (installed_records w')
             = dict_get k (installed_records w))
       /\ stat w' (default "" (entry_path entry)) = None
       /\ (forall q, q <> default "" (entry_path entry) ->
             stat w' q = stat w q).
Proof.
  intros w w'.
  assert (H1 : "cccccccc" <> "*") by discriminate.
  assert (H2 : NoDup (map fst (installed_records w)))
    by (apply (bool_decide_unpack _); vm_compute; reflexivity).
  assert (H3 : Modules.uninstall_module "cccccccc" w = (w', Ok tt))
    by (vm_compute; reflexivity).
  split; [exact H1|]; split; [exact H2|]; split; [exact H3|].
  exact (uninstall_module_removes_that_record_only w w' "cccccccc" H1 H2 H3).
Defined.

(** ** A plugin validates the same wherever it is loaded from *)

Lemma dict_get_set {V} (d : dict V) (k k' : string) (v : V) :
  dict_get k (dict_set k' v d)
  = if String.eqb k' k then Some v else dict_get k d.
Proof.
  induction d as [|[k0 v0] d IH]; simpl; [reflexivity|].
  destruct (String.eqb_spec k0 k') as [->|Hne]; simpl.
  - now destruct (String.eqb k' k).
  - rewrite IH.
    destruct (String.eqb_spec k0 k) as [->|Hk]; [|reflexivity].
    destruct (String.eqb_spec k' k); [congruence | reflexivity].
Qed.

(** A name the module's code binds has the bound value; any other name has
    the value the import machinery gave it. *)
Lemma dict_get_bind_all (ns : dict py_value) (k : string) :
  (exists v, forall base, dict_get k (bind_all ns base) = Some v)
  \/ (forall base, dict_get k (bind_all ns base) = dict_get k base).
Proof.
  unfold bind_all; induction ns as [|[k' v'] ns IH]; [now right|].
  cbn [foldl fst snd].
  destruct IH as [[v Hv] | Hbase].
  - left; exists v; intros base; apply Hv.
  - destruct (String.eqb_spec k' k) as [->|Hne].
    + left; exists v'; intros base.
      now rewrite Hbase, dict_get_set, String.eqb_refl.
    + right; intros base; rewrite Hbase, dict_get_set.
      now apply String.eqb_neq in Hne as ->.
Qed.

Lemma initial_attributes_elsewhere (name path name' path' k : string)
    (v : py_value) :
  dict_get k (initial_attributes name path) = Some v ->
  (forall s, v <> PyStr s) ->
  dict_get k (initial_attributes name' path') = Some v.
Proof.
  unfold initial_attributes; cbn [dict_get].
  intros H Hv; revert H.
  repeat match goal with
         | |- context [String.eqb ?a k] => destruct (String.eqb a k)
         end;
    intros H; try exact H; injection H as <-;
    match goal with Hv : forall s, PyStr ?x <> _ |- _ =>
      now contradiction (Hv x) end.
Qed.

Lemma loaded_attribute_elsewhere (ns : dict py_value)
    (name path name' path' k : string) (v : py_value) :
  dict_get k (bind_all ns (initial_attributes name path)) = Some v ->
  (forall s, v <> PyStr s) ->
  dict_get k (bind_all ns (initial_attributes name' path')) = Some v.
Proof.
  intros H Hv.
  destruct (dict_get_bind_all ns k) as [[v0 Hv0] | Hbase].
  - rewrite Hv0 in H |- *; exact H.
  - rewrite Hbase in H |- *.
    now apply (initial_attributes_elsewhere name path).
Qed.

Lemma initial_attributes_no_extensions (name path : string) :
  dict_get "EXTENSIONS" (initial_attributes name path) = None.
Proof. reflexivity. Qed.

Lemma loaded_extensions_elsewhere (ns : dict py_value)
    (name path name' path' : string) :
  dict_get "EXTENSIONS" (bind_all ns (initial_attributes name path))
  = dict_get "EXTENSIONS" (bind_all ns (initial_attributes name' path')).
Proof.
  destruct (dict_get_bind_all ns "EXTENSIONS") as [[v0 Hv0] | Hbase].
  - now rewrite !Hv0.
  - now rewrite !Hbase.
Qed.

Lemma plugin_shape_elsewhere (ns : dict py_value)
    (name path name' path' : string) (items : list py_value) (c : py_class) :
  plugin_shape
    (PyModule name path (bind_all ns (initial_attributes name path)))
    items c ->
  plugin_shape
    (PyModule name' path' (bind_all ns (initial_attributes name' path')))
    items c.
Proof.
  intros (names & Hall & other & extensions & Hnames & Hne & He & Hi & Hitems
          & Ho & Hc).
  cbn [mod_dict] in *.
  exists names; split.
  - destruct Hall as [H | H]; [left | right];
      apply (loaded_attribute_elsewhere ns name path); auto; discriminate.
  - exists other, extensions; repeat split; auto; cbn [mod_dict].
    + now rewrite (loaded_extensions_elsewhere ns name' path' name path).
    + apply (loaded_attribute_elsewhere ns name path); auto; discriminate.
Qed.

(** The outcome of validation does not depend on the name and the path the
    module was loaded under. *)
Lemma accepted_elsewhere (ns : dict py_value)
    (name path name' path' : string) (exts : list string) (c : py_class) :
  Modules.get_extensions_and_parser_cls
    (PyModule name path (bind_all ns (initial_attributes name path)))
  = Ok (exts, c) ->
  Modules.get_extensions_and_parser_cls
    (PyModule name' path' (bind_all ns (initial_attributes name' path')))
  = Ok (exts, c).
Proof.
  intros H.
  apply get_extensions_and_parser_cls_accepts_iff in H as (items & Hs & ->).
  apply get_extensions_and_parser_cls_accepts_iff.
  exists items; split; [now apply (plugin_shape_elsewhere ns name path)|].
  unfold declared_extensions; cbn [mod_dict].
  now rewrite (loaded_extensions_elsewhere ns name' path' name path).
Qed.

(** X13.  [get_extensions_and_parser_cls] reads only what the module's
    code has bound: of two modules that hold the same bindings of their
    code over the attributes the import machinery sets from the module
    name and the path ([__name__], [__file__] and the like), it accepts
    the one when it accepts the other, with the same result. *)
Theorem validation_ignores_module_name_and_path (ns : dict py_value)
    (name path name' path' : string) (exts : list string) (c : py_class) :
  Modules.get_extensions_and_parser_cls
    (PyModule name path (bind_all ns (initial_attributes name path)))
  = Ok (exts, c) ->
  Modules.get_extensions_and_parser_cls
    (PyModule name' path' (bind_all ns (initial_attributes name' path')))
  = Ok (exts, c).
Proof. apply accepted_elsewhere. Qed.

Lemma validation_ignores_module_name_and_path_witness :
  let ns := Samples.plugin_namespace [".foo"] Samples.FooParser in
  Modules.get_extensions_and_parser_cls
    (PyModule "a1b2c3d4" "/src/foo.py"
       (bind_all ns (initial_attributes "a1b2c3d4" "/src/foo.py")))
  = Ok ([".foo"], Samples.FooParser)
  /\ Modules.get_extensions_and_parser_cls Samples.foo_module
     = Ok ([".foo"], Samples.FooParser).
Proof.
  intros ns; split; [reflexivity|].
  exact (validation_ignores_module_name_and_path ns "a1b2c3d4" "/src/foo.py"
           "a1b2c3d4" (Samples.stored_path "a1b2c3d4") [".foo"]
           Samples.FooParser eq_refl).
Defined.

(** ** Installing, rebuilding the registry, resolving *)

Lemma append_not_empty (a b : string) (c : ascii) : a +:+ String c b <> "".
Proof. destruct a; discriminate. Qed.

Lemma store_target_not_empty (w : world) (h : string) : store_target w h <> "".
Proof. apply append_not_empty. Qed.

Lemma stat_lookup (w : world) (p : string) :
  p <> "" -> stat w p = fs w !! p.
Proof. intros Hp; unfold stat; now apply String.eqb_neq in Hp as ->. Qed.

(** Writing one file changes [stat] there only. *)
Lemma stat_after_write (w : world) (target p : string) (c : file_content)
    (records : option (dict module_entry)) :
  p <> target ->
  stat (World (<[target := File c]> (fs w)) records (parsers_dir w)) p
  = stat w p.
Proof.
  intros Hp; unfold stat; cbn [fs].
  destruct (String.eqb p ""); [reflexivity|].
  now rewrite lookup_insert_ne.
Qed.

Lemma module_from_path_stat (w w' : world) (p name : string) :
  stat w' p = stat w p ->
  Modules.module_from_path w' p name = Modules.module_from_path w p name.
Proof.
  intros Hs; unfold Modules.module_from_path, path_exists, path_is_file.
  now rewrite Hs.
Qed.

Lemma v1_loaded_stat (w w' : world) (record : string * module_entry) :
  stat w' (stored_file record) = stat w (stored_file record) ->
  v1_loaded w' record = v1_loaded w record.
Proof.
  intros Hs; unfold v1_loaded.
  now rewrite (module_from_path_stat w w' _ _ Hs).
Qed.

(** A record that loads has a regular file at its stored path. *)
Lemma v1_loaded_file (w : world) (record : string * module_entry)
    (ext_cls : list string * py_class) :
  v1_loaded w record = Ok ext_cls ->
  exists c, stat w (stored_file record) = Some (File c).
Proof.
  unfold v1_loaded, Modules.module_from_path, path_exists, path_is_file,
    stored_file.
  destruct (stat w (default "" (entry_path (snd record)))) as [[|c]|];
    try discriminate; eauto.
Qed.

Lemma load_records_ext (w w' : world) (records : dict module_entry)
    (parsers : dict py_class) :
  (forall record, In record records ->
                  v1_loaded w' record = v1_loaded w record) ->
  Modules.load_records w' records parsers
  = Modules.load_records w records parsers.
Proof.
  revert parsers; induction records as [|record rest IH]; intros parsers Hext;
    [reflexivity|].
  rewrite !v1_load_records_cons, Hext by (now left).
  destruct (v1_loaded w record) as [ext_cls|e]; [|reflexivity].
  destruct (Modules.register_extensions _ _ _ _); [|reflexivity].
  apply IH; intros r Hr; apply Hext; now right.
Qed.

Lemma load_records_app (w : world) (a b : dict module_entry)
    (parsers : dict py_class) :
  Modules.load_records w (a ++ b) parsers
  = match Modules.load_records w a parsers with
    | Ok parsers' => Modules.load_records w b parsers'
    | Raise e => Raise e
    end.
Proof.
  revert parsers; induction a as [|record rest IH]; intros parsers;
    [reflexivity|].
  cbn [app]; rewrite !v1_load_records_cons.
  destruct (v1_loaded w record) as [ext_cls|e]; [|reflexivity].
  destruct (Modules.register_extensions _ _ _ _); [apply IH | reflexivity].
Qed.

Lemma bind_in_order_keys (offers : list (string * py_class))
    (parsers parsers' : dict py_class) :
  bind_in_order offers parsers = inl parsers' ->
  NoDup (map fst parsers) -> NoDup (map fst parsers').
Proof.
  revert parsers; induction offers as [|[e c] offers IH]; intros parsers;
    simpl.
  - intros H; now injection H as <-.
  - destruct (dict_get e parsers) eqn:Hget; [discriminate|].
    intros H Hnd; apply (IH _ H).
    rewrite map_app; apply NoDup_app; repeat split; [exact Hnd | |].
    + intros k Hk Hk'; cbn in Hk'; apply list_elem_of_singleton in Hk'; subst.
      apply dict_get_None in Hget; now apply list_elem_of_In in Hk.
    + cbn; apply NoDup_singleton.
Qed.

Lemma load_records_all_valid (w : world) (records : dict module_entry)
    (parsers registry : dict py_class) :
  Modules.load_records w records parsers = Ok registry ->
  Forall (v1_valid w) records.
Proof.
  revert parsers; induction records as [|record rest IH]; intros parsers;
    [constructor|].
  rewrite v1_load_records_cons.
  destruct (v1_loaded w record) as [ext_cls|e] eqn:Hl; [|discriminate].
  destruct (Modules.register_extensions _ _ _ _); [|discriminate].
  intros H; constructor; [now exists ext_cls | eapply IH; eauto].
Qed.

(** A registry that was built lists the bindings of the records in order,
    and no extension twice. *)
Lemma load_parsers_registry (w : world) (registry : dict py_class) :
  Modules.load_parsers w = Ok registry ->
  registry = flat_map (v1_bindings w) (installed_records w)
  /\ NoDup (map fst registry).
Proof.
  unfold Modules.load_parsers; fold (installed_records w); intros Hload.
  pose proof (load_records_all_valid _ _ _ _ Hload) as Hvalid.
  pose proof (v1_load_records_outcome w _ [] Hvalid) as Hout.
  destruct (bind_in_order (flat_map (v1_bindings w) (installed_records w)) [])
    as [parsers'|[[e owner] cand]] eqn:Hbind.
  - rewrite Hload in Hout; injection Hout as ->.
    split; [now apply bind_in_order_inl in Hbind|].
    eapply bind_in_order_keys; [exact Hbind | constructor].
  - destruct Hout as [p Hp]; congruence.
Qed.

Lemma get_parser_app_none (a b : dict py_class) (filename : string) :
  none_matches a filename ->
  Modules.get_parser (a ++ b) filename = Modules.get_parser b filename.
Proof.
  induction 1 as [|[e c] a Hno Hrest IH]; [reflexivity|].
  cbn [app Modules.get_parser].
  destruct (endswith (lower filename) (lower e)) eqn:Hm; [|exact IH].
  apply endswith_lower_ci_suffix in Hm; now contradiction Hno.
Qed.

Lemma get_parser_one_class (exts : list string) (c : py_class)
    (filename e : string) :
  In e exts -> ci_suffix e filename ->
  Modules.get_parser (map (fun e => (e, c)) exts) filename = c.
Proof.
  induction exts as [|e0 exts IH]; intros Hin Hm; [destruct Hin|].
  cbn [map Modules.get_parser].
  destruct (endswith (lower filename) (lower e0)) eqn:Hm0; [reflexivity|].
  destruct Hin as [-> | Hin]; [|now apply IH].
  apply endswith_lower_ci_suffix in Hm; congruence.
Qed.

Lemma candidate_plugin_inv (w : world) (path : string) (c0 : file_content)
    (exts : list string) :
  stat w path = Some (File c0) ->
  candidate_extensions w path = Some exts ->
  exists ns cls,
    exec c0 (digest c0) path = ExecOk ns
    /\ Modules.get_extensions_and_parser_cls
         (PyModule (digest c0) path
            (bind_all ns (initial_attributes (digest c0) path)))
       = Ok (exts, cls)
    /\ candidate_plugin w path = Some (exts, cls).
Proof.
  intros Hstat; unfold candidate_extensions, candidate_plugin, hash_from_file,
    Modules.module_from_path, path_exists, path_is_file.
  rewrite Hstat; cbn [negb].
  destruct (exec c0 (digest c0) path) as [| | |ns]; try discriminate.
  destruct (Modules.get_extensions_and_parser_cls _) as [[exts' cls]|] eqn:Hv;
    [|discriminate].
  intros H; injection H as <-; eauto.
Qed.

Lemma registry_keys_claimed (w : world) (k : string) :
  store_consistent w ->
  In k (map fst (flat_map (v1_bindings w) (installed_records w))) ->
  claimed (installed_records w) k.
Proof.
  unfold store_consistent; intros Hcons Hk.
  apply in_map_iff in Hk as ([k' c] & <- & Hin).
  apply in_flat_map in Hin as (record & Hrec & Hin).
  rewrite Forall_forall in Hcons.
  destruct (Hcons record) as (exts & cls & recorded & Hl & Hr & Hiff);
    [now apply list_elem_of_In|].
  unfold v1_bindings in Hin; rewrite Hl in Hin; cbn [fst snd] in Hin.
  apply in_map_iff in Hin as (e & He & Hin); injection He as <- _.
  destruct record as [id entry]; exists id, entry, recorded.
  repeat split; [exact Hrec | exact Hr | now apply Hiff].
Qed.

(** Installing a plugin whose code does the same when it runs from the
    store, into a store that agrees with its files and where the registry
    builds: the rebuilt registry is the old one followed by the candidate's
    bindings, and the store still agrees with its files. *)
Lemma install_then_rebuild (w w' : world) (path : string) (c0 : file_content)
    (registry : dict py_class) :
  store_consistent w ->
  Modules.load_parsers w = Ok registry ->
  stat w path = Some (File c0) ->
  stat w (store_target w (digest c0)) = None ->
  exec c0 (digest c0) (store_target w (digest c0))
  = exec c0 (digest c0) path ->
  Modules.install_module path w = (w', Ok tt) ->
  exists exts c,
    candidate_plugin w path = Some (exts, c)
    /\ Modules.load_parsers w'
       = Ok (registry ++ map (fun e => (e, c)) exts)
    /\ store_consistent w'.
Proof.
  intros Hcons Hload Hstat Hfree Hsame Hinstall.
  apply install_module_success in Hinstall
    as (c & exts & Hstat' & Hmem & Hcand & Hnone & Hw).
  rewrite Hstat in Hstat'; injection Hstat' as <-.
  cbv zeta in Hw; unfold copy_target in Hw; rewrite Hfree in Hw.
  destruct Hw as [_ Hw].
  set (target := store_target w (digest c0)) in *.
  set (entry := ModuleEntry (Some exts) (Some target) (Some (path_name path)))
    in *.
  destruct (candidate_plugin_inv w path c0 exts Hstat Hcand)
    as (ns & cls & Hexec & Hvalid & Hplugin).
  exists exts, cls; split; [exact Hplugin|].
  destruct (load_parsers_registry w registry Hload) as [Hreg Hkeys].
  assert (Htarget : target <> "") by apply store_target_not_empty.
  (* the old records load in the new world as in the old one *)
  assert (Hold : forall record,
             In record (installed_records w) ->
             v1_loaded w' record = v1_loaded w record).
  { intros record Hin; apply v1_loaded_stat; subst w'.
    apply stat_after_write; intros Heq.
    unfold store_consistent in Hcons; rewrite Forall_forall in Hcons.
    destruct (Hcons record) as (e1 & c1 & r1 & Hl & _);
      [now apply list_elem_of_In|].
    apply v1_loaded_file in Hl as [c1' Hc1]; congruence. }
  (* the new record loads to the candidate's plugin *)
  assert (Hnew : v1_loaded w' (digest c0, entry) = Ok (exts, cls)).
  { unfold v1_loaded; cbn [fst snd].
    change (default "" (entry_path entry)) with target.
    unfold Modules.module_from_path, path_exists, path_is_file.
    assert (Hs : stat w' target = Some (File c0)).
    { subst w'; rewrite stat_lookup by exact Htarget; cbn [fs].
      apply lookup_insert_eq. }
    rewrite Hs; cbn [negb]; rewrite Hsame, Hexec; cbn [mbind result_bind].
    now apply (accepted_elsewhere ns (digest c0) path). }
  (* the candidate's extensions are new to the registry *)
  assert (Hdistinct :
            NoDup (map fst (registry ++ map (fun e => (e, cls)) exts))).
  { rewrite map_app, map_map; cbn [fst]; rewrite map_id.
    apply NoDup_app; repeat split; [exact Hkeys | |].
    - intros k Hk Hk'; apply list_elem_of_In in Hk, Hk'.
      apply (Hnone k Hk'); apply registry_keys_claimed; [exact Hcons|].
      now rewrite <- Hreg.
    - eapply candidate_extensions_NoDup; eauto. }
  assert (Hrecords : installed_records w'
                     = installed_records w ++ [(digest c0, entry)])
    by (now subst w').
  split.
  - unfold Modules.load_parsers in *.
    fold (installed_records w') (installed_records w) in *.
    rewrite Hrecords, load_records_app, (load_records_ext w w') by exact Hold.
    rewrite Hload, v1_load_records_cons, Hnew; cbn [fst snd].
    rewrite v1_register_extensions_outcome,
      (bind_in_order_distinct _ _ Hdistinct).
    reflexivity.
  - unfold store_consistent; rewrite Hrecords.
    apply Forall_app; split.
    + unfold store_consistent in Hcons.
      rewrite Forall_forall in Hcons |- *; intros record Hin.
      destruct (Hcons record Hin) as (e1 & c1 & r1 & Hl & Hr & Hiff).
      exists e1, c1, r1; repeat split; try apply Hiff; auto.
      rewrite Hold; [exact Hl | now apply list_elem_of_In].
    + constructor; [|constructor].
      exists exts, cls, exts; repeat split; auto.
Qed.

Lemma get_parser_app_some (a b : dict py_class) (filename : string) :
  (exists e c, In (e, c) a /\ ci_suffix e filename) ->
  Modules.get_parser (a ++ b) filename = Modules.get_parser a filename.
Proof.
  induction a as [|[e0 c0] a IH]; intros (e & c & Hin & Hm); [destruct Hin|].
  cbn [app Modules.get_parser].
  destruct (endswith (lower filename) (lower e0)) eqn:Hm0; [reflexivity|].
  apply IH; destruct Hin as [Heq | Hin]; [|eauto].
  injection Heq as -> ->.
  apply endswith_lower_ci_suffix in Hm; congruence.
Qed.

(** X14.  Installing a plugin into a store that agrees with its files,
    where the registry builds and the store target is free, the plugin's
    code doing the same when it runs from the store as it did from the
    candidate's path: the registry builds again and is the old one followed
    by the candidate's bindings (in some order), the store still agrees
    with its files, a file name the old registry matched resolves as
    before, and a file name it did not match resolves to the new plugin's
    class when one of its extensions is a suffix. *)
Theorem install_then_rebuild_and_resolve (w w' : world) (path : string)
    (c0 : file_content) (registry : dict py_class) :
  store_consistent w ->
  Modules.load_parsers w = Ok registry ->
  stat w path = Some (File c0) ->
  stat w (store_target w (digest c0)) = None ->
  exec c0 (digest c0) (store_target w (digest c0))
  = exec c0 (digest c0) path ->
  Modules.install_module path w = (w', Ok tt) ->
  exists exts c registry' added,
    candidate_plugin w path = Some (exts, c)
    /\ Modules.load_parsers w' = Ok registry'
    /\ registry' = registry ++ added
    /\ Permutation added (map (fun e => (e, c)) exts)
    /\ store_consistent w'
    /\ forall filename,
         ((exists e c1, In (e, c1) registry /\ ci_suffix e filename) ->
          Modules.get_parser registry' filename
          = Modules.get_parser registry filename)
         /\ (none_matches registry filename ->
             (exists e, In e exts /\ ci_suffix e filename) ->
             Modules.get_parser registry' filename = c).
Proof.
  intros Hcons Hload Hstat Hfree Hsame Hinstall.
  destruct (install_then_rebuild w w' path c0 registry Hcons Hload Hstat Hfree
              Hsame Hinstall) as (exts & c & Hplugin & Hload' & Hcons').
  exists exts, c, (registry ++ map (fun e => (e, c)) exts),
    (map (fun e => (e, c)) exts).
  repeat split; auto.
  - now apply get_parser_app_some.
  - intros Hnone (e & He & Hm).
    rewrite get_parser_app_none by exact Hnone.
    now apply (get_parser_one_class exts c filename e).
Qed.

Lemma install_then_rebuild_and_resolve_witness :
  let w := Samples.one_record_one_candidate in
  let w' := fst (Modules.install_module "/src/bar.py" w) in
  let c0 := Samples.bar_content in
  let registry := [(".foo", Samples.FooParser)] in
  store_consistent w
  /\ Modules.load_parsers w = Ok registry
  /\ stat w "/src/bar.py" = Some (File c0)
  /\ stat w (store_target w (digest c0)) = None
  /\ exec c0 (digest c0) (store_target w (digest c0))
     = exec c0 (digest c0) "/src/bar.py"
  /\ Modules.install_module "/src/bar.py" w = (w', Ok tt)
  /\ exists exts c registry' added,
       candidate_plugin w "/src/bar.py" = Some (exts, c)
       /\ Modules.load_parsers w' = Ok registry'
       /\ registry' = registry ++ added
       /\ Permutation added (map (fun e => (e, c)) exts)
       /\ store_consistent w'
       /\ forall filename,
            ((exists e c1, In (e, c1) registry /\ ci_suffix e filename) ->
             Modules.get_parser registry' filename
             = Modules.get_parser registry filename)
            /\ (none_matches registry filename ->
                (exists e, In e exts /\ ci_suffix e filename) ->
                Modules.get_parser registry' filename = c).
Proof.
  intros w w' c0 registry.
  assert (H1 : store_consistent w).
  { constructor; [|constructor].
    exists [".foo"], Samples.FooParser, [".foo"].
    split; [vm_compute; reflexivity|]; split; [reflexivity | tauto]. }
  assert (H2 : Modules.load_parsers w = Ok registry)
    by (vm_compute; reflexivity).
  assert (H3 : stat w "/src/bar.py" = Some (File c0))
    by (vm_compute; reflexivity).
  assert (H4 : stat w (store_target w (digest c0)) = None)
    by (vm_compute; reflexivity).
  assert (H5 : exec c0 (digest c0) (store_target w (digest c0))
               = exec c0 (digest c0) "/src/bar.py") by reflexivity.
  assert (H6 : Modules.install_module "/src/bar.py" w = (w', Ok tt))
    by (vm_compute; reflexivity).
  split; [exact H1|]; split; [exact H2|]; split; [exact H3|];
    split; [exact H4|]; split; [exact H5|]; split; [exact H6|].
  exact (install_then_rebuild_and_resolve w w' "/src/bar.py" c0 registry
           H1 H2 H3 H4 H5 H6).
Defined.

(** ** Installing, then uninstalling *)

(** X15.  Uninstalling, by its hash, what was just installed into a free
    store target restores the records, and, apart from the configuration
    file and bytecode caches, the file system. *)
Theorem install_then_uninstall (w w1 : world) (path : string)
    (c0 : file_content) :
  stat w path = Some (File c0) ->
  digest c0 <> "*" ->
  stat w (store_target w (digest c0)) = None ->
  Modules.install_module path w = (w1, Ok tt) ->
  exists w2,
    Modules.uninstall_module (digest c0) w1 = (w2, Ok tt)
    /\ installed_records w2 = installed_records w
    /\ parsers_dir w2 = parsers_dir w
    /\ forall q, ~ bytecode_cache q -> fs w2 !! q = fs w !! q.
Proof.
  intros Hstat Hne Hfree Hinstall.
  apply install_module_success in Hinstall
    as (c & exts & Hstat' & Hmem & _ & _ & Hw).
  rewrite Hstat in Hstat'; injection Hstat' as <-.
  cbv zeta in Hw; unfold copy_target in Hw; rewrite Hfree in Hw.
  destruct Hw as [_ Hw].
  set (target := store_target w (digest c0)) in *.
  set (entry := ModuleEntry (Some exts) (Some target) (Some (path_name path)))
    in *.
  assert (Htarget : target <> "") by apply store_target_not_empty.
  assert (Hget : dict_get (digest c0) (installed_records w) = None).
  { unfold dict_mem in Hmem.
    now destruct (dict_get (digest c0) (installed_records w)). }
  pose proof (uninstall_module_one w1 (digest c0) Hne) as Hun.
  assert (Hrecords : installed_records w1
                     = installed_records w ++ [(digest c0, entry)])
    by (now subst w1).
  rewrite Hrecords, dict_get_app, Hget in Hun.
  cbn [dict_get] in Hun; rewrite String.eqb_refl in Hun.
  change (default "" (entry_path entry)) with target in Hun.
  assert (Hs : stat w1 target = Some (File c0)).
  { subst w1; rewrite stat_lookup by exact Htarget; cbn [fs].
    apply lookup_insert_eq. }
  cbv zeta in Hun; rewrite Hs in Hun.
  eexists; split; [exact Hun|].
  rewrite dict_del_appended by exact Hget.
  subst w1; cbn [fs parsers_dir]; repeat split.
  intros q _; rewrite delete_insert_eq, delete_id; [reflexivity|].
  now rewrite <- stat_lookup.
Qed.

Lemma install_then_uninstall_witness :
  let w := Samples.one_record_one_candidate in
  let w1 := fst (Modules.install_module "/src/bar.py" w) in
  let c0 := Samples.bar_content in
  stat w "/src/bar.py" = Some (File c0)
  /\ digest c0 <> "*"
  /\ stat w (store_target w (digest c0)) = None
  /\ Modules.install_module "/src/bar.py" w = (w1, Ok tt)
  /\ exists w2,
       Modules.uninstall_module (digest c0) w1 = (w2, Ok tt)
       /\ installed_records w2 = installed_records w
       /\ parsers_dir w2 = parsers_dir w
       /\ forall q, ~ bytecode_cache q -> fs w2 !! q = fs w !! q.
Proof.
  intros w w1 c0.
  assert (H1 : stat w "/src/bar.py" = Some (File c0))
    by (vm_compute; reflexivity).
  assert (H2 : digest c0 <> "*") by discriminate.
  assert (H3 : stat w (store_target w (digest c0)) = None)
    by (vm_compute; reflexivity).
  assert (H4 : Modules.install_module "/src/bar.py" w = (w1, Ok tt))
    by (vm_compute; reflexivity).
  split; [exact H1|]; split; [exact H2|]; split; [exact H3|];
    split; [exact H4|].
  exact (install_then_uninstall w w1 "/src/bar.py" c0 H1 H2 H3 H4).
Defined.

(** ** The default reader: what is binary, what is accepted *)

Lemma prefix_spec (p s : string) :
  String.prefix p s = true <-> exists rest, s = p +:+ rest.
Proof.
  revert s; induction p as [|a p IH]; intros s.
  - destruct s; simpl; split; eauto.
  - destruct s as [|b s]; simpl.
    + split; [discriminate | intros [rest H]; discriminate].
    + destruct (Ascii.ascii_dec a b) as [->|Hne].
      * rewrite IH; split; intros [rest H]; exists rest.
        -- now rewrite H.
        -- now injection H.
      * split; [discriminate|].
        intros [rest H]; injection H as H _; congruence.
Qed.

(** X16.  [looks_binary] answers [True] exactly for a chunk that holds a
    NUL byte or whose bytes lie in the control ranges for a share above
    30%; the empty chunk is not binary. *)
Lemma looks_binary_iff (chunk : DefaultReader.bytes) :
  DefaultReader.looks_binary chunk = true
  <-> In Byte.x00 chunk \/ control_share_above_30_percent chunk.
Proof.
  split.
  - intros Hb.
    destruct (DefaultReader.contains_nul chunk) eqn:Hnul.
    + left; now apply contains_nul_In.
    + right; rewrite looks_binary_ratio in Hb by exact Hnul.
      apply Nat.ltb_lt in Hb.
      unfold control_share_above_30_percent.
      rewrite <- non_printable_control_bytes.
      destruct chunk as [|b chunk]; [simpl in Hb; lia|].
      rewrite Nat.max_l in Hb by (simpl; lia); exact Hb.
  - intros [Hnul | Hshare].
    + unfold DefaultReader.looks_binary.
      now apply contains_nul_In in Hnul as ->.
    + now apply looks_binary_above_30_percent.
Qed.

Lemma rejected_by_mime_spec (mime : option string) :
  match mime with
  | Some m =>
      if String.eqb m "" then false
      else negb (startswith m "text/"
                 || str_in m DefaultReader.TEXTUAL_APPLICATION_MIMES)
  | None => false
  end = false
  <-> acceptable_mime mime.
Proof.
  destruct mime as [m|]; cbn [acceptable_mime]; [|tauto].
  destruct (String.eqb_spec m "") as [->|Hne]; [tauto|].
  rewrite negb_false_iff, orb_true_iff.
  unfold startswith; rewrite prefix_spec, str_in_In; tauto.
Qed.

(** [validate] accepts exactly the chunks whose MIME probe does not reject,
    that do not look binary and that decode under the detected encoding. *)
Lemma validate_accepts_iff (rt : DefaultReader.runtime)
    (chunk : DefaultReader.bytes) :
  DefaultReader.validate rt chunk = Ok true
  <-> acceptable_mime (DefaultReader.guess_mime_type rt chunk)
      /\ DefaultReader.looks_binary chunk = false
      /\ exists t, decodes_as rt chunk chunk t.
Proof.
  unfold DefaultReader.validate; cbv zeta.
  rewrite <- rejected_by_mime_spec.
  match goal with |- (if ?c then _ else _) = _ <-> _ => destruct c end.
  { split; [discriminate | intros [H _]; discriminate]. }
  destruct (DefaultReader.looks_binary chunk).
  { split; [discriminate | intros (_ & H & _); discriminate]. }
  unfold decodes_as, detected_encoding, DefaultReader.bytes_decode.
  destruct (DefaultReader.codec rt _) as [decoder|]; cbn.
  - destruct (decoder chunk) as [t|] eqn:Hd; cbn.
    + split; [intros _; repeat split; eauto | reflexivity].
    + split; [discriminate|].
      intros (_ & _ & t & d & Hd' & Ht); injection Hd' as <-; congruence.
  - split; [discriminate|].
    intros (_ & _ & t & d & Hd' & _); discriminate.
Qed.

(** X18.  The only exception [validate] lets escape is the [LookupError]
    of a detected encoding name without a codec; a MIME probe that fails
    and bytes that do not decode are answered with [False]. *)
Lemma validate_raises (rt : DefaultReader.runtime)
    (chunk : DefaultReader.bytes) (e : exn) :
  DefaultReader.validate rt chunk = Raise e ->
  e = LookupError (detected_encoding rt chunk)
  /\ DefaultReader.codec rt (detected_encoding rt chunk) = None.
Proof.
  unfold DefaultReader.validate, detected_encoding; cbv zeta.
  match goal with |- (if ?c then _ else _) = _ -> _ => destruct c end;
    [discriminate|].
  destruct (DefaultReader.looks_binary chunk); [discriminate|].
  unfold DefaultReader.bytes_decode.
  destruct (DefaultReader.codec rt _) as [decoder|]; cbn.
  - destruct (decoder chunk); discriminate.
  - intros H; injection H as <-; auto.
Qed.

Lemma validate_raises_witness :
  let rt := Samples.detects_euc_tw in
  let chunk := [Byte.x68; Byte.x69] in
  DefaultReader.validate rt chunk = Raise (LookupError "EUC-TW")
  /\ LookupError "EUC-TW" = LookupError (detected_encoding rt chunk)
  /\ DefaultReader.codec rt (detected_encoding rt chunk) = None.
Proof.
  intros rt chunk; split; [reflexivity|].
  exact (validate_raises rt chunk (LookupError "EUC-TW") eq_refl).
Defined.

(** X17.  [validate] accepts exactly the chunks whose MIME probe does not
    reject, that do not look binary and that decode strictly under the
    detected encoding. *)
Theorem validate_true_iff (rt : DefaultReader.runtime)
    (chunk : DefaultReader.bytes) :
  DefaultReader.validate rt chunk = Ok true
  <-> acceptable_mime (DefaultReader.guess_mime_type rt chunk)
      /\ DefaultReader.looks_binary chunk = false
      /\ exists t, decodes_as rt chunk chunk t.
Proof. apply validate_accepts_iff. Qed.

(** X19.  [get_content] returns exactly when there is a codec for the
    encoding detected on the first 1024 bytes: the strict decoding of the
    whole file, or its UTF-8 decoding with replacement when the strict one
    fails; without a codec it raises that encoding's [LookupError]. *)
Lemma get_content_returns_iff (rt : DefaultReader.runtime)
    (file_bytes : DefaultReader.bytes) :
  let encoding := detected_encoding rt (take 1024 file_bytes) in
  match DefaultReader.codec rt encoding with
  | Some decoder =>
      DefaultReader.get_content rt file_bytes
      = Ok (default (DefaultReader.decode_utf8_replace file_bytes)
              (decoder file_bytes))
  | None =>
      DefaultReader.get_content rt file_bytes = Raise (LookupError encoding)
  end.
Proof.
  intros encoding.
  destruct (DefaultReader.codec rt encoding) as [decoder|] eqn:Hc.
  - now apply get_content_known_codec.
  - now apply get_content_unknown_codec.
Qed.

(** X20.  A file of at most 1024 bytes that [validate] accepts is decoded
    by [get_content] under the same encoding, without the lossy
    fallback. *)
Lemma validated_content_decodes_strictly (rt : DefaultReader.runtime)
    (file_bytes : DefaultReader.bytes) :
  length file_bytes <= 1024 ->
  DefaultReader.validate rt file_bytes = Ok true ->
  exists t,
    decodes_as rt file_bytes file_bytes t
    /\ DefaultReader.get_content rt file_bytes = Ok t.
Proof.
  intros Hlen Hv.
  apply validate_accepts_iff in Hv as (_ & _ & t & decoder & Hc & Hd).
  exists t; split; [now exists decoder|].
  rewrite (get_content_known_codec rt file_bytes decoder).
  - now rewrite Hd.
  - rewrite take_ge by exact Hlen; exact Hc.
Qed.

Lemma validated_content_decodes_strictly_witness :
  let rt := Samples.runtime_answering (Some "ascii") None in
  let file_bytes := [Byte.x68; Byte.x69] in
  length file_bytes <= 1024
  /\ DefaultReader.validate rt file_bytes = Ok true
  /\ exists t,
       decodes_as rt file_bytes file_bytes t
       /\ DefaultReader.get_content rt file_bytes = Ok t.
Proof.
  intros rt file_bytes.
  assert (H1 : length file_bytes <= 1024) by (simpl; lia).
  assert (H2 : DefaultReader.validate rt file_bytes = Ok true)
    by reflexivity.
  split; [exact H1|]; split; [exact H2|].
  exact (validated_content_decodes_strictly rt file_bytes H1 H2).
Defined.

(** ** What a built registry holds *)

Lemma accepted_binding_well_formed (module : py_module) (exts : list string)
    (c : py_class) (e : string) :
  Modules.get_extensions_and_parser_cls module = Ok (exts, c) ->
  In e exts ->
  matches_extension_regex e /\ cls_is_parser c = true.
Proof.
  intros H He.
  apply get_extensions_and_parser_cls_accepts_iff in H as (items & Hshape & ->).
  split.
  - apply (proj1 (frozenset_In _ _)) in He.
    eapply declared_extensions_valid; eauto.
  - now destruct Hshape as (names & _ & other & extensions & _ & _ & _ & _
                            & _ & _ & Hc).
Qed.

Lemma v1_bindings_well_formed (w : world) (record : string * module_entry)
    (e : string) (c : py_class) :
  In (e, c) (v1_bindings w record) ->
  matches_extension_regex e /\ cls_is_parser c = true.
Proof.
  unfold v1_bindings, v1_loaded.
  destruct (Modules.module_from_path w _ _) as [module|]; cbn; [|tauto].
  destruct (Modules.get_extensions_and_parser_cls module) as [[exts c']|]
    eqn:Hv; cbn; [|tauto].
  intros Hin; apply in_map_iff in Hin as (e' & He & Hin).
  injection He as <- <-.
  eapply accepted_binding_well_formed; eauto.
Qed.

(** The registry [modules.load_parsers] returns: no extension twice, every
    extension matching the regex, every class a subclass of [Parser]. *)
Lemma load_parsers_well_formed (w : world) (registry : dict py_class) :
  Modules.load_parsers w = Ok registry ->
  NoDup (map fst registry)
  /\ forall e c, In (e, c) registry ->
                 matches_extension_regex e /\ cls_is_parser c = true.
Proof.
  intros Hload.
  destruct (load_parsers_registry w registry Hload) as [-> Hkeys].
  split; [exact Hkeys|].
  intros e c Hin; apply in_flat_map in Hin as (record & _ & Hin).
  eapply v1_bindings_well_formed; eauto.
Qed.

(** X22.  The registry [modules.load_parsers] returns binds no extension
    twice, binds only extensions that match the regex, and binds them to
    subclasses of [Parser]. *)
Theorem modules_registry_well_formed (w : world) (registry : dict py_class) :
  Modules.load_parsers w = Ok registry ->
  NoDup (map fst registry)
  /\ forall e c, In (e, c) registry ->
                 matches_extension_regex e /\ cls_is_parser c = true.
Proof. apply load_parsers_well_formed. Qed.

Lemma modules_registry_well_formed_witness :
  let registry := [(".foo", Samples.FooParser); (".bar", Samples.BarParser)] in
  Modules.load_parsers Samples.two_records_regular = Ok registry
  /\ NoDup (map fst registry)
  /\ forall e c, In (e, c) registry ->
                 matches_extension_regex e /\ cls_is_parser c = true.
Proof.
  intros registry.
  assert (H : Modules.load_parsers Samples.two_records_regular = Ok registry)
    by (vm_compute; reflexivity).
  split; [exact H|].
  exact (modules_registry_well_formed Samples.two_records_regular registry H).
Defined.

Lemma get_parser_from_registry (registry : dict py_class) (filename : string) :
  Modules.get_parser registry filename = Modules.DefaultParser
  \/ exists e, In (e, Modules.get_parser registry filename) registry.
Proof.
  induction registry as [|[e c] rest IH]; [now left|].
  cbn [Modules.get_parser].
  destruct (endswith (lower filename) (lower e)).
  - right; exists e; now left.
  - destruct IH as [H | [e' H]]; [now left|].
    right; exists e'; now right.
Qed.

(** X23.  Over a registry that [load_parsers] built, [get_parser] answers
    a subclass of [Parser] for every file name ([DefaultParser] being
    one). *)
Lemma get_parser_answers_a_parser (w : world) (registry : dict py_class)
    (filename : string) :
  Modules.load_parsers w = Ok registry ->
  cls_is_parser (Modules.get_parser registry filename) = true.
Proof.
  intros Hload.
  destruct (load_parsers_well_formed w registry Hload) as [_ Hwf].
  destruct (get_parser_from_registry registry filename) as [-> | [e He]];
    [reflexivity|].
  now apply (Hwf e).
Qed.

Lemma get_parser_answers_a_parser_witness :
  let registry := [(".foo", Samples.FooParser); (".bar", Samples.BarParser)] in
  Modules.load_parsers Samples.two_records_regular = Ok registry
  /\ cls_is_parser (Modules.get_parser registry "notes.BAR") = true.
Proof.
  intros registry.
  assert (H : Modules.load_parsers Samples.two_records_regular = Ok registry)
    by (vm_compute; reflexivity).
  split; [exact H|].
  exact (get_parser_answers_a_parser Samples.two_records_regular registry
           "notes.BAR" H).
Defined.

(** ** The directory scan of [v2]: more *)

Lemma v2_bindings_well_formed (w : world) (path e : string) (c : py_class) :
  In (e, c) (v2_bindings w path) ->
  matches_extension_regex e /\ cls_is_parser c = true.
Proof.
  unfold v2_bindings.
  destruct (String.eqb (path_name path) "__init__.py"); [intros []|].
  destruct (V2Parsers.load_module_from_path w path) as [module| |];
    try (intros []; fail).
  destruct (V2Parsers.validate_module module) as [[]|] eqn:Hv;
    try (intros []; fail).
  apply validate_module_accepts_iff in Hv as (items & c' & Hshape).
  rewrite (plugin_shape_declares _ _ _ Hshape).
  intros Hin; apply in_map_iff in Hin as (e' & He & Hin).
  injection He as <- <-.
  split; [eapply declared_extensions_valid; eauto|].
  now destruct Hshape as (names & _ & other & extensions & _ & _ & _ & _
                          & _ & _ & Hc).
Qed.

(** A scan that completes has had loading return for every path it
    visited, and [validate_module] for every module it loaded. *)
Lemma v2_completed_validation_returns (w : world) (paths : list string)
    (parsers registry : dict py_class) (log : list V2Parsers.log_record) :
  snd (V2Parsers.load_paths w paths parsers log) = Ends (Ok registry) ->
  v2_validation_returns w paths.
Proof.
  revert parsers log; induction paths as [|path rest IH];
    intros parsers log Hok p Hin; [destruct Hin|].
  rewrite v2_load_paths_cons in Hok.
  intros Hname.
  destruct (String.eqb_spec (path_name path) "__init__.py") as [Hinit|Hinit].
  { destruct Hin as [-> | Hin]; [contradiction|].
    eapply IH; eauto. }
  destruct (V2Parsers.load_module_from_path w path) as [module| |] eqn:Hl;
    [| |discriminate].
  2:{ destruct Hin as [-> | Hin]; [|eapply IH; eauto].
      rewrite Hl; split; discriminate. }
  destruct (V2Parsers.validate_module module) as [[]|e] eqn:Hv;
    [| |discriminate].
  - destruct (V2Parsers.register_module module parsers log)
      as [log' [parsers'|e]]; [|discriminate].
    destruct Hin as [-> | Hin]; [|eapply IH; eauto].
    rewrite Hl; split; [discriminate|].
    intros m Hm; injection Hm as <-; eauto.
  - destruct Hin as [-> | Hin]; [|eapply IH; eauto].
    rewrite Hl; split; [discriminate|].
    intros m Hm; injection Hm as <-; eauto.
Qed.

(** X24.  The registry the scan of [v2] returns is the bindings of the
    accepted files in scan order, a file binding the strings its
    [EXTENSIONS] yields to the registration loop (none when it is an
    iterator, which [validate_module] has used up); the registry binds no
    extension twice, only extensions that match the regex, and only
    subclasses of [Parser]. *)
Lemma v2_load_parsers_well_formed (w : world) (paths : list string)
    (registry : dict py_class) :
  snd (V2Parsers.load_parsers w paths) = Ends (Ok registry) ->
  registry = flat_map (v2_bindings w) paths
  /\ NoDup (map fst registry)
  /\ forall e c, In (e, c) registry ->
                 matches_extension_regex e /\ cls_is_parser c = true.
Proof.
  unfold V2Parsers.load_parsers; intros Hok.
  pose proof (v2_completed_validation_returns _ _ _ _ _ Hok) as Hret.
  rewrite (v2_load_paths_outcome w paths [] [] Hret) in Hok.
  destruct (bind_in_order (flat_map (v2_bindings w) paths) [])
    as [parsers'|[[e owner] cand]] eqn:Hbind; [|discriminate].
  injection Hok as ->.
  pose proof (bind_in_order_inl _ _ _ Hbind) as Hreg; cbn in Hreg.
  split; [exact Hreg|]; split.
  - eapply bind_in_order_keys; [exact Hbind | constructor].
  - intros e c Hin; rewrite Hreg in Hin.
    apply in_flat_map in Hin as (path & _ & Hin).
    eapply v2_bindings_well_formed; eauto.
Qed.

Lemma v2_load_parsers_well_formed_witness :
  let w := Samples.two_records_regular in
  let paths := [Samples.stored_path "a1b2c3d4";
                Samples.stored_path "cccccccc"] in
  let registry := [(".foo", Samples.FooParser); (".bar", Samples.BarParser)] in
  snd (V2Parsers.load_parsers w paths) = Ends (Ok registry)
  /\ registry = flat_map (v2_bindings w) paths
  /\ NoDup (map fst registry)
  /\ forall e c, In (e, c) registry ->
                 matches_extension_regex e /\ cls_is_parser c = true.
Proof.
  intros w paths registry.
  assert (H : snd (V2Parsers.load_parsers w paths) = Ends (Ok registry))
    by (vm_compute; reflexivity).
  split; [exact H | exact (v2_load_parsers_well_formed w paths registry H)].
Defined.

(** X25.  The scan ignores every [__init__.py], plugin or not: registry,
    log and error are those of the scan over the other paths. *)
Lemma v2_load_paths_ignores_init (w : world) (paths : list string)
    (parsers : dict py_class) (log : list V2Parsers.log_record) :
  V2Parsers.load_paths w paths parsers log
  = V2Parsers.load_paths w
      (List.filter
         (fun p => negb (String.eqb (path_name p) "__init__.py")) paths)
      parsers log.
Proof.
  revert parsers log; induction paths as [|path rest IH]; intros parsers log;
    [reflexivity|].
  cbn [List.filter]; rewrite v2_load_paths_cons.
  destruct (String.eqb (path_name path) "__init__.py") eqn:Hinit;
    cbn [negb]; [apply IH|].
  rewrite v2_load_paths_cons, Hinit.
  destruct (V2Parsers.load_module_from_path w path) as [module| |];
    [|apply IH|reflexivity].
  destruct (V2Parsers.validate_module module) as [[]|e];
    [|apply IH|reflexivity].
  destruct (V2Parsers.register_module module parsers log)
    as [log' [parsers'|e]]; [apply IH | reflexivity].
Qed.

(** The scan ends on an extension that is bound twice, and on a file whose
    code exits, whatever plugins follow. *)
Example v2_scan_ends_on_duplicate_and_on_exit :
  snd (V2Parsers.load_parsers Samples.duplicate_foo_files
         [Samples.store_dir +:+ "/__init__.py";
          Samples.stored_path "a1b2c3d4";
          Samples.stored_path "cccccccc"])
  = Ends (Raise (ValueError ".foo" Samples.FooParser Samples.BarParser))
  /\ V2Parsers.load_parsers Samples.exiting_then_valid
       [Samples.stored_path "0badc0de"; Samples.stored_path "a1b2c3d4"]
     = ([], Exits).
Proof. split; vm_compute; reflexivity. Qed.

(** X26.  When the scan does not return a registry, it has raised the
    [ValueError] of an extension that is bound already or the [TypeError]
    that escapes [validate_module], or the code of a scanned file has
    raised what is no [Exception] ([SystemExit], [KeyboardInterrupt]), which
    [load_module_from_path] does not catch.  A file whose code raises an
    [Exception], or for which no loader is found, never ends the scan. *)
Lemma v2_load_paths_raises (w : world) (paths : list string)
    (parsers : dict py_class) (log : list V2Parsers.log_record) :
  (forall registry,
      snd (V2Parsers.load_paths w paths parsers log) <> Ends (Ok registry)) ->
  snd (V2Parsers.load_paths w paths parsers log) = Ends (Raise TypeError)
  \/ (exists extension owner candidate,
         snd (V2Parsers.load_paths w paths parsers log)
         = Ends (Raise (ValueError extension owner candidate)))
  \/ (snd (V2Parsers.load_paths w paths parsers log) = Exits
      /\ exists path c,
           In path paths
           /\ stat w path = Some (File c)
           /\ exec c ("_parser_" +:+ V2Parsers.path_stem path) path
              = ExecExits).
Proof.
  revert parsers log; induction paths as [|path rest IH]; intros parsers log.
  { intros H; now contradiction (H parsers). }
  assert (Hlater : forall parsers' log',
             (forall registry,
                 snd (V2Parsers.load_paths w rest parsers' log')
                 <> Ends (Ok registry)) ->
             snd (V2Parsers.load_paths w rest parsers' log')
             = Ends (Raise TypeError)
             \/ (exists extension owner candidate,
                    snd (V2Parsers.load_paths w rest parsers' log')
                    = Ends (Raise (ValueError extension owner candidate)))
             \/ (snd (V2Parsers.load_paths w rest parsers' log') = Exits
                 /\ exists path0 c,
                      In path0 (path :: rest)
                      /\ stat w path0 = Some (File c)
                      /\ exec c ("_parser_" +:+ V2Parsers.path_stem path0)
                           path0
                         = ExecExits)).
  { intros parsers' log' H.
    destruct (IH parsers' log' H) as [? | [? | (? & p & c & Hin & ?)]];
      auto.
    right; right; split; [assumption|].
    exists p, c; split; [now right | assumption]. }
  rewrite v2_load_paths_cons.
  destruct (String.eqb (path_name path) "__init__.py"); [apply Hlater|].
  destruct (V2Parsers.load_module_from_path w path) as [module| |]
    eqn:Hload; [|apply Hlater|].
  - destruct (V2Parsers.validate_module module) as [[]|e'] eqn:Hv;
      [|apply Hlater|].
    + pose proof Hv as Hshape.
      apply validate_module_accepts_iff in Hshape as (items & c & Hshape).
      rewrite (v2_register_module_shape _ _ _ parsers log Hshape).
      pose proof (v2_register_extensions_outcome c
                    (declared_extensions module) parsers log) as Hreg.
      destruct (V2Parsers.register_extensions c (declared_extensions module)
                  parsers log) as [log' [parsers'|e']]; [apply Hlater|].
      cbn in Hreg |- *; intros _.
      destruct (bind_in_order _ parsers) as [|[[x o] cand]]; [discriminate|].
      injection Hreg as ->; eauto 6.
    + cbn; intros _; left.
      now rewrite (validate_module_raises module e' Hv).
  - cbn; intros _; right; right; split; [reflexivity|].
    unfold V2Parsers.load_module_from_path in Hload.
    destruct (stat w path) as [[|c]|] eqn:Hs; try discriminate.
    exists path, c; split; [now left|]; split; [exact Hs|].
    now destruct (exec c _ path).
Qed.

Lemma v2_load_paths_raises_witness :
  let w := Samples.exiting_then_valid in
  let paths := [Samples.stored_path "a1b2c3d4";
                Samples.stored_path "0badc0de"] in
  let log := [V2Parsers.LogRegistered Samples.FooParser ".foo"] in
  (forall registry,
      snd (V2Parsers.load_paths w paths [] []) <> Ends (Ok registry))
  /\ V2Parsers.load_paths w paths [] [] = (log, Exits)
  /\ (snd (V2Parsers.load_paths w paths [] []) = Ends (Raise TypeError)
      \/ (exists extension owner candidate,
             snd (V2Parsers.load_paths w paths [] [])
             = Ends (Raise (ValueError extension owner candidate)))
      \/ (snd (V2Parsers.load_paths w paths [] []) = Exits
          /\ exists path c,
               In path paths
               /\ stat w path = Some (File c)
               /\ exec c ("_parser_" +:+ V2Parsers.path_stem path) path
                  = ExecExits)).
Proof.
  intros w paths log.
  assert (H : V2Parsers.load_paths w paths [] [] = (log, Exits))
    by (vm_compute; reflexivity).
  assert (H' : forall registry,
             snd (V2Parsers.load_paths w paths [] []) <> Ends (Ok registry))
    by (intros registry; rewrite H; discriminate).
  split; [exact H'|]; split; [exact H|].
  exact (v2_load_paths_raises w paths [] [] H').
Defined.

(** ** The command line: uninstalling *)

Section MainProperties.

Context {state : Type}.
Variable import_parser : string -> state -> state * result unit.
Variable remove_parser : string -> state -> state * result unit.
Variable list_installed_parsers : state -> dict (list string).
Variable path_exists : string -> state -> bool.
Variable path_is_file : string -> state -> bool.
Variable read_merger_ignore_file : string -> state -> result (list string).
Variable write_merged :
  string -> list string -> string -> state -> state * result unit.

Lemma uninstall_extensions_spec (module_name : string) (exts : list string)
    (st : state) :
  fst (MergerCli.uninstall_extensions remove_parser module_name exts st)
  = MergerCli.after_removals remove_parser exts st
  /\ map MergerCli.event_subject
       (snd (MergerCli.uninstall_extensions remove_parser module_name exts st))
     = map (fun ext => Some (module_name, ext)) exts.
Proof.
  revert st; induction exts as [|ext exts IH]; intros st; [now split|].
  cbn [MergerCli.uninstall_extensions MergerCli.after_removals foldl map].
  destruct (remove_parser ext st) as [st' [[]|exc]]; cbn [fst];
    destruct (IH st') as [Hst Hev];
    destruct (MergerCli.uninstall_extensions remove_parser module_name exts st')
      as [st'' events]; cbn [fst snd map MergerCli.event_subject] in *;
    now rewrite Hst, Hev.
Qed.

Lemma uninstall_all_spec (installed : dict (list string)) (st : state) :
  fst (MergerCli.uninstall_all remove_parser installed st)
  = MergerCli.after_removals remove_parser (flat_map snd installed) st
  /\ map MergerCli.event_subject
       (snd (MergerCli.uninstall_all remove_parser installed st))
     = map Some (MergerCli.listed_extensions installed).
Proof.
  revert st; induction installed as [|[module_name exts] rest IH]; intros st;
    [now split|].
  cbn [MergerCli.uninstall_all flat_map MergerCli.listed_extensions fst snd].
  destruct (uninstall_extensions_spec module_name exts st) as [Hst Hev].
  destruct (MergerCli.uninstall_extensions remove_parser module_name exts st)
    as [st' events]; cbn [fst snd] in Hst, Hev.
  destruct (IH st') as [Hst' Hev'].
  destruct (MergerCli.uninstall_all remove_parser rest st')
    as [st'' events']; cbn [fst snd] in *.
  unfold MergerCli.after_removals in *; rewrite foldl_app, <- Hst, Hst'.
  split; [reflexivity|].
  rewrite !map_app, Hev, Hev', map_map; reflexivity.
Qed.

(** X27.  [--uninstall "*"] without [--install], where
    [list_installed_parsers] returns a snapshot that the removals do not
    change: [main] returns (no exception of [remove_parser] escapes), having
    tried [remove_parser] once on every extension of every module of the
    snapshot, in order, failures or not; it logs one event per try, or that
    nothing is installed. *)
Lemma main_uninstall_all (args : MergerCli.arguments) (st : state) :
  MergerCli.install args = None ->
  MergerCli.uninstall args = Some "*" ->
  let installed := list_installed_parsers st in
  exists events,
    MergerCli.main import_parser remove_parser list_installed_parsers
      path_exists path_is_file read_merger_ignore_file write_merged args st
    = (MergerCli.after_removals remove_parser (flat_map snd installed) st,
       events, MergerCli.Returned)
    /\ (installed = [] -> events = [MergerCli.InfoNoParsersInstalled])
    /\ (installed <> [] ->
        map MergerCli.event_subject events
        = map Some (MergerCli.listed_extensions installed)).
Proof.
  intros Hinstall Hun installed.
  unfold MergerCli.main; rewrite Hinstall, Hun; cbv zeta.
  fold installed.
  destruct installed as [|kv rest] eqn:Hi.
  - eexists; split; [reflexivity|]; split; [reflexivity | congruence].
  - cbn [String.eqb Ascii.eqb Bool.eqb].
    destruct (uninstall_all_spec (kv :: rest) st) as [Hst Hev].
    destruct (MergerCli.uninstall_all remove_parser (kv :: rest) st)
      as [st' events]; cbn [fst snd] in Hst, Hev.
    exists events; rewrite Hst.
    split; [reflexivity|]; split; [discriminate | intros _; exact Hev].
Qed.

Lemma uninstall_first_absent (ext : string) (installed : dict (list string))
    (st : state) :
  (forall kv, In kv installed -> ~ In ext (snd kv)) ->
  MergerCli.uninstall_first remove_parser ext installed st = (st, [], false).
Proof.
  induction installed as [|[module_name exts] rest IH]; intros Hno;
    [reflexivity|].
  cbn [MergerCli.uninstall_first].
  destruct (str_in ext exts) eqn:Hin.
  - apply str_in_In in Hin; now contradiction (Hno (module_name, exts)
                                                (or_introl eq_refl)).
  - apply IH; intros kv Hkv; apply Hno; now right.
Qed.

Lemma uninstall_first_present (ext module_name : string)
    (exts : list string) (before after : dict (list string)) (st : state) :
  (forall kv, In kv before -> ~ In ext (snd kv)) ->
  In ext exts ->
  MergerCli.uninstall_first remove_parser ext
    (before ++ (module_name, exts) :: after) st
  = match remove_parser ext st with
    | (st', Ok _) => (st', [MergerCli.InfoUninstalled module_name ext], true)
    | (st', Raise e) => (st', [MergerCli.ErrorFailedToUninstall ext e], false)
    end.
Proof.
  intros Hno Hin; induction before as [|[m0 e0] before IH].
  - cbn [app MergerCli.uninstall_first].
    now apply str_in_In in Hin as ->.
  - cbn [app MergerCli.uninstall_first].
    destruct (str_in ext e0) eqn:Hin0.
    + apply str_in_In in Hin0.
      now contradiction (Hno (m0, e0) (or_introl eq_refl)).
    + apply IH; intros kv Hkv; apply Hno; now right.
Qed.

(** X28.  [--uninstall EXT] without [--install]: when no module of a
    non-empty snapshot lists the extension, nothing is removed and the one
    event is the not-found error; otherwise [remove_parser] is tried once,
    for the first module that lists it, and a failure is logged together
    with the not-found error. *)
Lemma main_uninstall_one (args : MergerCli.arguments) (st : state)
    (ext : string) :
  MergerCli.install args = None ->
  MergerCli.uninstall args = Some ext ->
  ext <> "" -> ext <> "*" ->
  let installed := list_installed_parsers st in
  installed <> [] ->
  ((forall kv, In kv installed -> ~ In ext (snd kv)) ->
   MergerCli.main import_parser remove_parser list_installed_parsers
     path_exists path_is_file read_merger_ignore_file write_merged args st
   = (st, [MergerCli.ErrorNoParserFound ext], MergerCli.Returned))
  /\ (forall before module_name exts after,
         installed = before ++ (module_name, exts) :: after ->
         (forall kv, In kv before -> ~ In ext (snd kv)) ->
         In ext exts ->
         MergerCli.main import_parser remove_parser list_installed_parsers
           path_exists path_is_file read_merger_ignore_file write_merged args st
         = match remove_parser ext st with
           | (st', Ok _) =>
               (st', [MergerCli.InfoUninstalled module_name ext],
                MergerCli.Returned)
           | (st', Raise e) =>
               (st', [MergerCli.ErrorFailedToUninstall ext e;
                      MergerCli.ErrorNoParserFound ext],
                MergerCli.Returned)
           end).
Proof.
  intros Hinstall Hun Hne Hstar installed Hsome.
  unfold MergerCli.main; rewrite Hinstall, Hun; cbv zeta.
  fold installed.
  destruct ext as [|c0 ext0]; [congruence|].
  apply String.eqb_neq in Hstar.
  destruct installed as [|kv rest] eqn:Hi; [congruence|].
  rewrite Hstar; split.
  - intros Hno; now rewrite uninstall_first_absent.
  - intros before module_name exts after -> Hno Hin.
    rewrite uninstall_first_present by assumption.
    now destruct (remove_parser (String c0 ext0) st) as [st' [[]|e]].
Qed.

End MainProperties.

Lemma main_uninstall_all_witness :
  let args := Samples.cli_uninstall "*" in
  let st := [".a"; ".b"] in
  let installed := Samples.cli_installed st in
  MergerCli.install args = None
  /\ MergerCli.uninstall args = Some "*"
  /\ exists events,
       Samples.cli_main args st
       = (MergerCli.after_removals Samples.cli_remove_parser
            (flat_map snd installed) st,
          events, MergerCli.Returned)
       /\ (installed = [] -> events = [MergerCli.InfoNoParsersInstalled])
       /\ (installed <> [] ->
           map MergerCli.event_subject events
           = map Some (MergerCli.listed_extensions installed)).
Proof.
  intros args st installed.
  split; [reflexivity|]; split; [reflexivity|].
  exact (main_uninstall_all Samples.cli_import_parser
           Samples.cli_remove_parser Samples.cli_installed
           (fun _ _ => false) (fun _ _ => false) (fun _ _ => Ok [])
           Samples.cli_write_merged args st eq_refl eq_refl).
Defined.

Lemma main_uninstall_one_witness :
  let args := Samples.cli_uninstall ".locked" in
  let st := [".a"; ".b"] in
  let installed := Samples.cli_installed st in
  MergerCli.install args = None
  /\ MergerCli.uninstall args = Some ".locked"
  /\ ".locked" <> ""
  /\ ".locked" <> "*"
  /\ installed <> []
  /\ ((forall kv, In kv installed -> ~ In ".locked" (snd kv)) ->
      Samples.cli_main args st
      = (st, [MergerCli.ErrorNoParserFound ".locked"], MergerCli.Returned))
  /\ (forall before module_name exts after,
         installed = before ++ (module_name, exts) :: after ->
         (forall kv, In kv before -> ~ In ".locked" (snd kv)) ->
         In ".locked" exts ->
         Samples.cli_main args st
         = match Samples.cli_remove_parser ".locked" st with
           | (st', Ok _) =>
               (st', [MergerCli.InfoUninstalled module_name ".locked"],
                MergerCli.Returned)
           | (st', Raise e) =>
               (st', [MergerCli.ErrorFailedToUninstall ".locked" e;
                      MergerCli.ErrorNoParserFound ".locked"],
                MergerCli.Returned)
           end).
Proof.
  intros args st installed.
  assert (H1 : ".locked" <> "") by discriminate.
  assert (H2 : ".locked" <> "*") by discriminate.
  assert (H3 : installed <> []) by discriminate.
  split; [reflexivity|]; split; [reflexivity|]; split; [exact H1|];
    split; [exact H2|]; split; [exact H3|].
  exact (main_uninstall_one Samples.cli_import_parser
           Samples.cli_remove_parser Samples.cli_installed
           (fun _ _ => false) (fun _ _ => false) (fun _ _ => Ok [])
           Samples.cli_write_merged args st ".locked" eq_refl eq_refl
           H1 H2 H3).
Defined.

(** ** The PDF examples: extracted text *)

Lemma has_empty_line_occurs (s : string) :
  occurs_in empty_line s -> has_empty_line s = true.
Proof.
  intros (before & after & ->); induction before as [|c before IH].
  - reflexivity.
  - change (String c before +:+ empty_line +:+ after)
      with (String c (before +:+ empty_line +:+ after)).
    destruct (before +:+ empty_line +:+ after) as [|b tail] eqn:Ht.
    + destruct before; discriminate.
    + cbn [has_empty_line] in *; rewrite IH; apply orb_true_r.
Qed.

Lemma has_empty_line_cons (c : ascii) (s : string) :
  c <> PdfExample.LF -> has_empty_line (String c s) = has_empty_line s.
Proof.
  intros Hc; apply Ascii.eqb_neq in Hc.
  destruct s as [|b s]; cbn [has_empty_line]; [reflexivity|].
  now rewrite Hc.
Qed.

Lemma has_empty_line_before (c : ascii) (s : string) :
  c <> PdfExample.LF ->
  has_empty_line (String PdfExample.LF (String c s))
  = has_empty_line (String c s).
Proof.
  intros Hc; apply Ascii.eqb_neq in Hc.
  cbn [has_empty_line]; rewrite Hc, andb_false_r.
  reflexivity.
Qed.

Lemma remove_double_newlines_head (c : ascii) (s : string) :
  c <> PdfExample.LF ->
  PdfExample.remove_double_newlines (String c s)
  = String c (PdfExample.remove_double_newlines s).
Proof.
  intros Hc; apply Ascii.eqb_neq in Hc.
  destruct s as [|b s]; cbn [PdfExample.remove_double_newlines];
    [reflexivity|].
  now rewrite Hc.
Qed.

Lemma remove_double_newlines_step (a b : ascii) (rest : string) :
  PdfExample.remove_double_newlines (String a (String b rest))
  = if Ascii.eqb a PdfExample.LF && Ascii.eqb b PdfExample.LF
    then PdfExample.remove_double_newlines rest
    else String a (PdfExample.remove_double_newlines (String b rest)).
Proof. reflexivity. Qed.

Lemma remove_double_newlines_clean (n : nat) (text : string) :
  String.length text <= n ->
  has_empty_line (PdfExample.remove_double_newlines text) = false.
Proof.
  revert text; induction n as [|n IH]; intros [|a [|b rest]] Hlen;
    try reflexivity; cbn [String.length] in Hlen; try lia.
  rewrite remove_double_newlines_step.
  destruct (Ascii.eqb_spec a PdfExample.LF) as [->|Ha]; cbn [andb].
  - destruct (Ascii.eqb_spec b PdfExample.LF) as [->|Hb].
    + apply IH; lia.
    + rewrite remove_double_newlines_head by exact Hb.
      rewrite has_empty_line_before by exact Hb.
      rewrite <- remove_double_newlines_head by exact Hb.
      apply IH; cbn [String.length]; lia.
  - rewrite has_empty_line_cons by exact Ha.
    apply IH; cbn [String.length]; lia.
Qed.

Lemma has_empty_line_joined (a b : string) :
  has_empty_line (a +:+ " " +:+ b) = has_empty_line a || has_empty_line b.
Proof.
  assert (Hsp : " "%char <> PdfExample.LF) by discriminate.
  induction a as [|c a IH].
  - change ("" +:+ " " +:+ b) with (String " " b).
    now rewrite has_empty_line_cons.
  - change (String c a +:+ " " +:+ b) with (String c (a +:+ " " +:+ b)).
    destruct a as [|c' a].
    + change ("" +:+ " " +:+ b) with (String " " b) in *.
      cbn [has_empty_line] in *; rewrite IH; cbn [orb].
      now rewrite (proj2 (Ascii.eqb_neq _ _) Hsp), andb_false_r.
    + change (String c' a +:+ " " +:+ b)
        with (String c' (a +:+ " " +:+ b)) in *.
      cbn [has_empty_line] in *; rewrite IH, orb_assoc; reflexivity.
Qed.

Lemma join_spaces_clean (texts : list string) :
  Forall (fun text => has_empty_line text = false) texts ->
  has_empty_line (PdfExample.join_spaces texts) = false.
Proof.
  induction 1 as [|text rest Htext Hrest IH]; [reflexivity|].
  cbn [PdfExample.join_spaces].
  destruct rest as [|text' rest]; [exact Htext|].
  now rewrite has_empty_line_joined, Htext, IH.
Qed.

(** X29.  The text the PDF examples extract holds no empty line (no two
    line feeds in a row), whatever text the pages have. *)
Theorem extract_pdf_text_has_no_empty_line (pages : list string) :
  ~ occurs_in empty_line (PdfExample.extract_pdf_text pages).
Proof.
  intros Hocc; apply has_empty_line_occurs in Hocc.
  assert (Hclean : has_empty_line (PdfExample.extract_pdf_text pages) = false);
    [|congruence].
  clear Hocc; apply join_spaces_clean.
  induction pages as [|text rest IH]; [constructor|].
  cbn [PdfExample.page_texts].
  destruct (negb (String.eqb text "")); [|exact IH].
  constructor; [|exact IH].
  now apply (remove_double_newlines_clean (String.length text)).
Qed.
